(** * Video generator pipeline: remote-task client, artifact store, stage
      executors and status record, embedded from the Python sources.

    Layout: the Python value model, then one module per source file
    ([Storage] for [src/storage.py], [KieClient] for
    [src/services/kie_client.py], ...), definitions first; the facts proved
    about them follow in the second half of the file. *)

From Stdlib Require Import ZArith QArith Lqa PrimFloat DecimalString Ascii String List Lia.
From Stdlib Require DecimalPos DecimalZ.
From stdpp Require Import base gmap strings list sorting.

Set Warnings "-register-all".

Local Open Scope string_scope.
Local Open Scope list_scope.
Local Open Scope Z_scope.

(* ===================================================================== *)
(** * Python values, exceptions and the effect monad                      *)
(* ===================================================================== *)

Module Py.

(** What [json.loads] / [response.json()] can return, which is also what the
    services keep in dictionaries.  A [dict] is an association list in
    insertion order, looked up by first match. *)
Inductive value : Type :=
| VNone
| VBool (b : bool)
| VInt (z : Z)
| VFloat (f : float)
| VStr (s : string)
| VList (l : list value)
| VDict (d : list (string * value)).

(** [bool(v)]: the test behind [if v], [not v] and [a or b]. *)
Definition truthy (v : value) : bool :=
  match v with
  | VNone => false
  | VBool b => b
  | VInt z => negb (z =? 0)
  | VFloat f => negb (PrimFloat.eqb f 0%float)
  | VStr s => negb (String.eqb s "")
  | VList l => match l with [] => false | _ => true end
  | VDict d => match d with [] => false | _ => true end
  end.

(** [a or b] *)
Definition py_or (a b : value) : value := if truthy a then a else b.

Fixpoint dict_get (d : list (string * value)) (k : string) : option value :=
  match d with
  | [] => None
  | (k', v) :: rest => if String.eqb k' k then Some v else dict_get rest k
  end.

(** [d[k] = v]: an existing key keeps its place, a new one goes last. *)
Fixpoint dict_set (d : list (string * value)) (k : string) (v : value)
  : list (string * value) :=
  match d with
  | [] => [(k, v)]
  | (k', v') :: rest =>
      if String.eqb k' k then (k', v) :: rest else (k', v') :: dict_set rest k v
  end.

(** [d.update(kwargs)] *)
Definition dict_update (d kwargs : list (string * value)) : list (string * value) :=
  fold_left (fun acc kv => dict_set acc (fst kv) (snd kv)) kwargs d.

Definition has_key (d : list (string * value)) (k : string) : bool :=
  match dict_get d k with Some _ => true | None => false end.

(** [v.get(k)] on a value that is known to be a dict: a missing key is [None]. *)
Definition get_or_none (d : list (string * value)) (k : string) : value :=
  match dict_get d k with Some v => v | None => VNone end.

(** The exceptions the modelled code raises or lets through.  A
    [RuntimeError] carries the constant prefix of its message. *)
Inductive exn : Type :=
| RuntimeError (msg : string)
| TimeoutError
| TypeError
| KeyError
| IndexError
| AttributeError
| JSONDecodeError
| ValueError (msg : string)
| FileNotFoundError
| NotADirectoryError
| IsADirectoryError
| CalledProcessError
| HTTPStatusError (status : Z)
| TransportError
| HTTPException (status : Z).

Inductive result (A : Type) : Type :=
| Return (a : A)
| Raise (e : exn).
Arguments Return {A} a.
Arguments Raise {A} e.

Definition is_raise {A} (r : result A) : bool :=
  match r with Raise _ => true | Return _ => false end.

(** Effectful code: a world is threaded through, and an exception keeps the
    world as it was when it was raised. *)
Definition M (W A : Type) : Type := W -> result A * W.

Definition ret {W A} (a : A) : M W A := fun w => (Return a, w).
Definition raise {W A} (e : exn) : M W A := fun w => (Raise e, w).
Definition bind {W A B} (m : M W A) (k : A -> M W B) : M W B :=
  fun w => match m w with
           | (Return a, w') => k a w'
           | (Raise e, w') => (Raise e, w')
           end.
Definition lift {W A} (r : result A) : M W A := fun w => (r, w).
Definition gets {W A} (f : W -> A) : M W A := fun w => (Return (f w), w).
Definition modify {W} (f : W -> W) : M W unit := fun w => (Return tt, f w).

(** [try: m  except Exception as e: h e] *)
Definition try_except {W A} (m : M W A) (h : exn -> M W A) : M W A :=
  fun w => match m w with
           | (Return a, w') => (Return a, w')
           | (Raise e, w') => h e w'
           end.

(** [try: m  finally: f] *)
Definition try_finally {W A} (m : M W A) (f : M W unit) : M W A :=
  fun w => match m w with
           | (r, w') => match f w' with
                        | (Return _, w'') => (r, w'')
                        | (Raise e, w'') => (Raise e, w'')
                        end
           end.

(** [triple pre m post_return post_raise]: run from a world satisfying
    [pre], [m] ends in a world satisfying the postcondition of its outcome. *)
Definition triple {W A} (pre : W -> Prop) (m : M W A)
    (post_return : A -> W -> Prop) (post_raise : exn -> W -> Prop) : Prop :=
  forall w, pre w ->
    match m w with
    | (Return a, w') => post_return a w'
    | (Raise e, w') => post_raise e w'
    end.

End Py.
Export Py.

Declare Scope py_scope.
Delimit Scope py_scope with py.
Notation "x <- m ;; k" := (bind m (fun x => k))
  (at level 100, m at next level, k at level 200, right associativity) : py_scope.
Notation "m ;;; k" := (bind m (fun _ => k))
  (at level 100, k at level 200, right associativity) : py_scope.

(* ===================================================================== *)
(** * Character-level string operations used by the store                 *)
(* ===================================================================== *)

Module Str.

Fixpoint map (f : ascii -> ascii) (s : string) : string :=
  match s with
  | EmptyString => EmptyString
  | String c r => String (f c) (map f r)
  end.

(** [s[:n]] *)
Fixpoint take (n : nat) (s : string) : string :=
  match n, s with
  | S n', String c r => String c (take n' r)
  | _, _ => EmptyString
  end.

(** [s.lstrip(c)], [s.rstrip(c)] and [s.strip(c)] for a one-character set *)
Fixpoint lstrip (c : ascii) (s : string) : string :=
  match s with
  | String a r => if Ascii.eqb a c then lstrip c r else s
  | EmptyString => EmptyString
  end.

Fixpoint rstrip (c : ascii) (s : string) : string :=
  match s with
  | EmptyString => EmptyString
  | String a r =>
      match rstrip c r with
      | EmptyString => if Ascii.eqb a c then EmptyString else String a EmptyString
      | r' => String a r'
      end
  end.

Definition strip (c : ascii) (s : string) : string := rstrip c (lstrip c s).

Fixpoint all (p : ascii -> bool) (s : string) : bool :=
  match s with
  | EmptyString => true
  | String c r => p c && all p r
  end.

Definition first (s : string) : option ascii :=
  match s with String c _ => Some c | EmptyString => None end.

Fixpoint last (s : string) : option ascii :=
  match s with
  | EmptyString => None
  | String c EmptyString => Some c
  | String _ r => last r
  end.

(** [s.endswith(suffix)] *)
Definition endswith (s suffix : string) : bool :=
  let n := String.length s in
  let m := String.length suffix in
  (m <=? n)%nat && String.eqb (String.substring (n - m) m s) suffix.

(** [s.replace(old, new)] for a non-empty [old]: matches are taken from the
    left and do not overlap; [skip] counts the characters of a match still to
    be dropped. *)
Fixpoint replace_from (old new : string) (skip : nat) (s : string) : string :=
  match s with
  | EmptyString => EmptyString
  | String c r =>
      match skip with
      | S k => replace_from old new k r
      | O =>
          if String.prefix old s
          then new +:+ replace_from old new (String.length old - 1) r
          else String c (replace_from old new 0 r)
      end
  end.

Definition replace (old new s : string) : string := replace_from old new 0 s.

(** [str(n)] for an [int] *)
Definition of_Z (n : Z) : string := NilZero.string_of_int (Z.to_int n).

(** A character of [str(n)] for an [int]: the sign or a digit. *)
Definition sign_or_digit (c : ascii) : bool :=
  Ascii.eqb c "-" || ((48 <=? nat_of_ascii c) && (nat_of_ascii c <=? 57))%nat.

(** The order [sorted] uses on [str]. *)
Definition le (a b : string) : Prop := String.leb a b = true.

#[global] Instance le_dec : RelDecision le.
Proof. intros a b. unfold le. apply _. Defined.

End Str.

(* ===================================================================== *)
(** * The world outside the services: file system, remote calls, tools    *)
(* ===================================================================== *)

Module Sys.

(** A path is its list of components below the file-system root.  [p / c]
    for a single component [c]; as in [pathlib], joining the empty string
    changes nothing. *)
Abbreviation path := (list string).

Definition join (p : path) (c : string) : path :=
  if String.eqb c "" then p else p ++ [c].

Definition parent (p : path) : path := removelast p.

Inductive ffmpeg_cmd : Type :=
| ExtractLastFrame (video out : path)
| ConcatCopy (list_file : path) (out : path)
| MuxAudio (video audio out : path).

Definition output_of (cmd : ffmpeg_cmd) : path :=
  match cmd with
  | ExtractLastFrame _ out => out
  | ConcatCopy _ out => out
  | MuxAudio _ _ out => out
  end.

(** Where the bytes of a file come from, and whether the writer finished. *)
Inductive origin : Type :=
| FromUrl (url : value)
| FromFfmpeg (cmd : ffmpeg_cmd).

Inductive content : Type :=
| Whole (o : origin)
| Partial (o : origin)
| JsonDoc (v : value)
| ConcatList (inputs : list path).

Inductive node : Type :=
| Dir
| File (c : content).

Abbreviation fs := (gmap path node).

Definition exists_ (f : fs) (p : path) : bool :=
  match f !! p with Some _ => true | None => false end.

Definition is_dir (f : fs) (p : path) : bool :=
  match f !! p with Some Dir => true | _ => false end.

(** [Path.mkdir(parents=True, exist_ok=True)]: every missing ancestor and the
    directory itself are created; a regular file on the way is an [OSError]. *)
Fixpoint mkdir_from (done : path) (todo : list string) (f : fs) : result fs :=
  match todo with
  | [] => Return f
  | c :: rest =>
      let p := done ++ [c] in
      match f !! p with
      | Some (File _) => Raise NotADirectoryError
      | Some Dir => mkdir_from p rest f
      | None => mkdir_from p rest (<[p := Dir]> f)
      end
  end.

Definition mkdir_parents (p : path) (f : fs) : result fs := mkdir_from [] p f.

(** [open(p, 'w')] followed by a complete write. *)
Definition write_file (p : path) (c : content) (f : fs) : result fs :=
  match f !! p with
  | Some Dir => Raise IsADirectoryError
  | _ => if is_dir f (parent p) then Return (<[p := File c]> f)
         else Raise FileNotFoundError
  end.

Definition read_file (p : path) (f : fs) : result content :=
  match f !! p with
  | Some (File c) => Return c
  | Some Dir => Raise IsADirectoryError
  | None => Raise FileNotFoundError
  end.

(** What an [ffmpeg] run did: exit status 0, with or without an output file,
    or a non-zero status, with or without an unfinished output file. *)
Inductive ffmpeg_outcome : Type :=
| FfDone (wrote : bool)
| FfFailed (left_partial : bool).

(** What a streamed download did: it completed, or it raised, with or
    without an unfinished file at the destination. *)
Inductive download_outcome : Type :=
| DlDone
| DlFailed (e : exn) (left_partial : bool).

(** One interaction with something outside the process.  A task submission
    is recorded with the shot it is made for and the file system as it was
    when the request went out; the provider sees the payload only. *)
Inductive event : Type :=
| EvCreateTask (for_shot : Z) (payload : value) (at_fs : fs)
| EvPollTask (task_id : string)
| EvDownload (url : value) (dest : path)
| EvUpload (image : path)
| EvFfmpeg (cmd : ffmpeg_cmd)
| EvClock.

Record world : Type := mkWorld {
  w_fs : fs;
  w_trace : list event      (* most recent event first *)
}.

(** The behaviour of the collaborators, each a function of everything that
    has happened so far (the request it answers is the head of the trace). *)
Record env : Type := mkEnv {
  kie_create_task : list event -> result string;
  kie_poll_task : list event -> result value;
  kie_download_file : list event -> download_outcome;
  uploader_upload_image : list event -> result string;
  ffmpeg_run : list event -> ffmpeg_outcome;
  datetime_now_isoformat : list event -> string;
  json_loads : string -> option value
}.

Local Open Scope py_scope.

Definition log (e : event) : M world unit :=
  modify (fun w => mkWorld (w_fs w) (e :: w_trace w)).

Definition ask {A} (oracle : list event -> A) : M world A :=
  gets (fun w => oracle (w_trace w)).

(** Lift a file-system operation that can fail. *)
Definition on_fs (op : fs -> result fs) : M world unit :=
  fun w => match op (w_fs w) with
           | Return f' => (Return tt, mkWorld f' (w_trace w))
           | Raise e => (Raise e, w)
           end.

Definition path_exists (p : path) : M world bool := gets (fun w => exists_ (w_fs w) p).

(** [os.remove(p)] on a path that was just tested to exist *)
Definition remove (p : path) : M world unit :=
  modify (fun w => mkWorld (delete p (w_fs w)) (w_trace w)).

(** [shutil.copy2(src, dst)] *)
Definition copy2 (src dst : path) : M world unit :=
  fun w => match read_file src (w_fs w) with
           | Return c => on_fs (write_file dst c) w
           | Raise e => (Raise e, w)
           end.

(** [subprocess.run(cmd, check=True, ...)]: the tool writes its output only
    where the output directory exists. *)
Definition subprocess_run (E : env) (cmd : ffmpeg_cmd) : M world unit :=
  log (EvFfmpeg cmd) ;;;
  outcome <- ask (ffmpeg_run E) ;;
  can_write <- gets (fun w => is_dir (w_fs w) (parent (output_of cmd))
                              && negb (is_dir (w_fs w) (output_of cmd))) ;;
  let put c := modify (fun w => mkWorld (<[output_of cmd := File c]> (w_fs w)) (w_trace w)) in
  match outcome with
  | FfDone wrote =>
      if can_write then (if wrote then put (Whole (FromFfmpeg cmd)) else ret tt)
      else raise CalledProcessError
  | FfFailed left_partial =>
      (if can_write && left_partial then put (Partial (FromFfmpeg cmd)) else ret tt) ;;;
      raise CalledProcessError
  end.

Definition is_create_task (e : event) : bool :=
  match e with EvCreateTask _ _ _ => true | _ => false end.

(** [m] submits no task: it adds events other than submissions only. *)
Definition quiet {A} (m : M world A) : Prop :=
  forall w, exists added,
    w_trace (snd (m w)) = added ++ w_trace w
    /\ Forall (fun e => is_create_task e = false) added.

(** [m] removes no file: what is on disk before it is on disk after it. *)
Definition keeps_files {A} (m : M world A) : Prop :=
  forall w q, exists_ (w_fs w) q = true -> exists_ (w_fs (snd (m w))) q = true.

(** [m] submits at most [n] tasks. *)
Definition submits_at_most {A} (n : nat) (m : M world A) : Prop :=
  forall w, exists added,
    w_trace (snd (m w)) = added ++ w_trace w
    /\ (List.length (List.filter is_create_task added) <= n)%nat.

(** [shutil.rmtree(root)]: the directory goes with everything below it. *)
Definition rmtree (root : path) (f : fs) : result fs :=
  match f !! root with
  | Some Dir => Return (filter (fun entry => ~ root `prefix_of` entry.1) f)
  | Some (File _) => Raise NotADirectoryError
  | None => Raise FileNotFoundError
  end.

End Sys.
Export Sys.

(* ===================================================================== *)
(** * src/storage.py                                                      *)
(* ===================================================================== *)

Module Storage.

Local Open Scope py_scope.

Record StorageManager : Type := mkStorage {
  base_dir : path;
  jobs_dir : path;
  output_dir : path;
  downloads_dir : path
}.

(** [StorageManager.__init__] *)
Definition init (base : path) : M world StorageManager :=
  let self := mkStorage base (join base "jobs") (join base "output") (join base "downloads") in
  on_fs (mkdir_parents (jobs_dir self)) ;;;
  on_fs (mkdir_parents (output_dir self)) ;;;
  on_fs (mkdir_parents (downloads_dir self)) ;;;
  ret self.

(** [f"{n:02d}"] *)
Definition format_02d (n : Z) : string :=
  let s := Str.of_Z n in
  if (String.length s <? 2)%nat then "0" +:+ s else s.

Section Methods.

(** [str.isalnum] on one character; a character of a Python string is an
    [ascii] here, and nothing depends on which of them are letters. *)
Variable isalnum : ascii -> bool.
Variable E : env.
Variable self : StorageManager.

(** [c if c.isalnum() or c in "_-" else "_"] *)
Definition keeps (c : ascii) : bool :=
  isalnum c || Ascii.eqb c "_" || Ascii.eqb c "-".

Definition sanitize (c : ascii) : ascii := if keeps c then c else "_"%char.

Definition safe_title (title : string) : string :=
  Str.take 50 (Str.strip "_" (Str.map sanitize title)).

(** [generate_job_id]; [strftime_now] and [uuid4_hex] are the values of
    [datetime.now().strftime('%Y%m%d_%H%M%S')] and [uuid.uuid4().hex] at the
    call, read only by the branch without a title. *)
Definition generate_job_id (strftime_now uuid4_hex : string) (title : option string)
  : string :=
  let fresh := strftime_now +:+ "_" +:+ Str.take 8 uuid4_hex in
  match title with
  | Some t => if truthy (VStr t) then safe_title t else fresh
  | None => fresh
  end.

Definition job_dir_path (job_id : string) (stage : option string) : path :=
  let job_root := join (jobs_dir self) job_id in
  match stage with
  | Some s => if truthy (VStr s) then join job_root s else job_root
  | None => job_root
  end.

Definition get_job_dir (job_id : string) (stage : option string) : M world path :=
  let job_dir := job_dir_path job_id stage in
  on_fs (mkdir_parents job_dir) ;;;
  ret job_dir.

Definition safe_subject (subject : string) : string :=
  Str.take 50 (Str.map sanitize subject).

Definition video_filename (shot_number : Z) (subject : string) : string :=
  format_02d shot_number +:+ "_" +:+ safe_subject subject +:+ ".mp4".

Definition save_video (video_path : path) (job_id : string) (shot_number : Z)
    (subject : string) : M world path :=
  job_dir <- get_job_dir job_id (Some "videos") ;;
  let dest_path := join job_dir (video_filename shot_number subject) in
  (if bool_decide (video_path = dest_path) then ret tt
   else copy2 video_path dest_path) ;;;
  ret dest_path.

Definition get_video_path (job_id : string) (shot_number : Z) (subject : string)
  : M world path :=
  job_dir <- get_job_dir job_id (Some "videos") ;;
  ret (join job_dir (video_filename shot_number subject)).

Definition get_audio_path (job_id : string) : M world path :=
  d <- get_job_dir job_id (Some "audio") ;; ret (join d "voiceover.mp3").

Definition get_concat_video_path (job_id : string) : M world path :=
  d <- get_job_dir job_id (Some "videos") ;; ret (join d "concatenated.mp4").

Definition get_final_video_path (job_id : string) : M world path :=
  d <- get_job_dir job_id (Some "final") ;; ret (join d "final.mp4").

Definition get_frame_path (job_id : string) (shot_number : Z) (frame_type : string)
  : M world path :=
  frame_dir <- get_job_dir job_id (Some "frames") ;;
  ret (join frame_dir ("shot_" +:+ format_02d shot_number +:+ "_" +:+ frame_type +:+ ".jpg")).

(** [job_dir.glob("*.mp4")] without the two merged outputs, sorted. *)
Definition list_videos_for_job (job_id : string) : M world (list path) :=
  job_dir <- get_job_dir job_id (Some "videos") ;;
  entries <- gets (fun w => map_to_list (w_fs w)) ;;
  let names :=
    omap (fun e : path * node =>
            let name := List.last (fst e) "" in
            if bool_decide (parent (fst e) = job_dir /\ fst e <> [])
               && Str.endswith name ".mp4"
               && negb (String.eqb name "concatenated.mp4")
               && negb (String.eqb name "final.mp4")
            then Some name else None) entries in
  ret (List.map (join job_dir) (merge_sort Str.le names)).

Definition save_job_metadata (job_id : string) (metadata : list (string * value))
  : M world path :=
  job_dir <- get_job_dir job_id (Some "prompts") ;;
  let metadata_path := join job_dir "metadata.json" in
  on_fs (write_file metadata_path (JsonDoc (VDict metadata))) ;;;
  ret metadata_path.

(** [load_job_metadata]: the decoded file, or [{}] when there is none. *)
Definition load_job_metadata (job_id : string) : M world value :=
  job_dir <- get_job_dir job_id (Some "prompts") ;;
  let metadata_path := join job_dir "metadata.json" in
  present <- path_exists metadata_path ;;
  if negb present then ret (VDict [])
  else
    c <- (fun w => (read_file metadata_path (w_fs w), w)) ;;
    match c with
    | JsonDoc v => ret v
    | _ => raise JSONDecodeError
    end.

(** The three assignments of [update_job_status] on the loaded record. *)
Definition updated_metadata (metadata : list (string * value)) (status now : string)
    (kwargs : list (string * value)) : list (string * value) :=
  dict_update (dict_set (dict_set metadata "status" (VStr status))
                        "updated_at" (VStr now)) kwargs.

Definition update_job_status (job_id : string) (status : string)
    (kwargs : list (string * value)) : M world unit :=
  metadata <- load_job_metadata job_id ;;
  match metadata with
  | VDict d =>
      log EvClock ;;;
      now <- ask (datetime_now_isoformat E) ;;
      save_job_metadata job_id (updated_metadata d status now kwargs) ;;;
      ret tt
  | _ => raise TypeError
  end.

Definition job_exists (job_id : string) : M world bool :=
  d <- get_job_dir job_id (Some "prompts") ;;
  path_exists d.

Definition save_audio (audio_path : path) (job_id : string) : M world path :=
  job_dir <- get_job_dir job_id (Some "audio") ;;
  let dest_path := join job_dir "voiceover.mp3" in
  (if bool_decide (audio_path = dest_path) then ret tt
   else copy2 audio_path dest_path) ;;;
  ret dest_path.

Definition load_prompts_json (filepath : path) : M world value :=
  c <- (fun w => (read_file filepath (w_fs w), w)) ;;
  match c with
  | JsonDoc v => ret v
  | _ => raise JSONDecodeError
  end.

Definition delete_job (job_id : string) : M world bool :=
  let job_root := join (jobs_dir self) job_id in
  present <- path_exists job_root ;;
  if present then on_fs (rmtree job_root) ;;; ret true
  else ret false.

End Methods.

End Storage.

(* ===================================================================== *)
(** * src/services/kie_client.py                                          *)
(* ===================================================================== *)

Module KieClient.

(** [s.split(sep)] for a one-character separator *)
Fixpoint split_on (sep : ascii) (s : string) : list string :=
  match s with
  | EmptyString => [""]
  | String c r =>
      match split_on sep r with
      | h :: t => if Ascii.eqb c sep then "" :: h :: t else String c h :: t
      | [] => [String c ""]
      end
  end.

Fixpoint safe_get_keys (cur : value) (keys : list string) : value :=
  match keys with
  | [] => cur
  | k :: rest =>
      match cur with
      | VDict d =>
          match dict_get d k with
          | Some v => safe_get_keys v rest
          | None => VNone
          end
      | _ => VNone
      end
  end.

Definition _safe_get (d : value) (path : string) : value :=
  safe_get_keys d (split_on "." path).

(** What one HTTP exchange gives the client: an exception of the transport,
    or a response with its status and its body decoded by [response.json()]
    ([None] when the body is not JSON). *)
Inductive http_outcome : Type :=
| HttpTimeout
| HttpTransportFailure
| HttpResponse (status_code : Z) (body : option value).

(** [response.raise_for_status()] lets a 2xx response through. *)
Definition is_success (status_code : Z) : bool :=
  (200 <=? status_code) && (status_code <? 300).

(** [v == 500] *)
Definition eq_500 (v : value) : bool :=
  match v with
  | VInt z => z =? 500
  | VFloat f => PrimFloat.eqb f 500%float
  | _ => false
  end.

(** [isinstance(data, dict) and data.get('code') == 500] *)
Definition kie_error_format (data : value) : bool :=
  match data with
  | VDict d => eq_500 (get_or_none d "code")
  | _ => false
  end.

(** [v == s] for a string literal [s] *)
Definition eq_str (v : value) (s : string) : bool :=
  match v with VStr s' => String.eqb s' s | _ => false end.

Section CreateTask.

(** [str(v)] for a value that is not already a string. *)
Variable repr : value -> string.

Definition py_str (v : value) : string :=
  match v with VStr s => s | _ => repr v end.

Definition create_task (exchange : http_outcome) : result string :=
  match exchange with
  | HttpTimeout => Raise TransportError
  | HttpTransportFailure => Raise TransportError
  | HttpResponse status_code body =>
      if negb (is_success status_code) then Raise (HTTPStatusError status_code)
      else
        match body with
        | None => Raise JSONDecodeError
        | Some data =>
            if kie_error_format data then Raise (RuntimeError "KIE API error")
            else
              let task_id :=
                py_or (py_or (_safe_get data "data.taskId") (_safe_get data "taskId"))
                      (_safe_get data "data.id") in
              if negb (truthy task_id)
              then Raise (RuntimeError "No taskId in API response")
              else Return (py_str task_id)
        end
  end.

End CreateTask.

(** The polling configuration set by [__init__].  Durations are exact
    rationals, in seconds. *)
Record KieClient : Type := mkKieClient {
  initial_delay : Q;
  max_delay : Q;
  timeout : Q
}.

Definition init : KieClient := mkKieClient 2 15 (20 * 60).

(** What [poll_task] meets while it runs: the answer to the [k]-th query, the
    time that query takes on the clock [time.time()] reads, and the [k]-th
    value of [random.uniform(0, 0.5)]. *)
Record poll_env : Type := mkPollEnv {
  poll_get : nat -> http_outcome;
  poll_latency : nat -> Q;
  random_uniform : nat -> Q
}.

(** [min(a, b)] *)
Definition py_min (a b : Q) : Q := if Qle_bool a b then a else b.

Definition next_delay (self : KieClient) (delay : Q) : Q :=
  py_min (max_delay self) (delay * (13 # 10)).

Section PollTask.

Variable self : KieClient.
Variable P : poll_env.

(** The [while True] loop from its [k]-th iteration, at most [fuel]
    iterations of it: the result ([None] when [fuel] iterations did not end
    it) and the arguments of the [asyncio.sleep] calls, in order. *)
Fixpoint poll_loop (fuel k : nat) (start_time now delay : Q)
  : option (result value) * list Q :=
  match fuel with
  | O => (None, [])
  | S fuel' =>
      match poll_get P k with
      | HttpTimeout => (Some (Raise TransportError), [])
      | HttpTransportFailure => (Some (Raise TransportError), [])
      | HttpResponse status_code body =>
          if negb (is_success status_code)
          then (Some (Raise (HTTPStatusError status_code)), [])
          else
            match body with
            | None => (Some (Raise JSONDecodeError), [])
            | Some detail =>
                let state := _safe_get detail "data.state" in
                if eq_str state "success" then (Some (Return detail), [])
                else if eq_str state "fail"
                then (Some (Raise (RuntimeError "Task failed")), [])
                else
                  let now1 := (now + poll_latency P k)%Q in
                  let elapsed := (now1 - start_time)%Q in
                  if Qlt_le_dec (timeout self) elapsed
                  then (Some (Raise TimeoutError), [])
                  else
                    let seconds := (delay + random_uniform P k)%Q in
                    let '(r, slept) :=
                      poll_loop fuel' (S k) start_time (now1 + seconds)%Q
                                (next_delay self delay) in
                    (r, seconds :: slept)
            end
      end
  end.

Definition poll_task (fuel : nat) (start_time : Q) : option (result value) * list Q :=
  poll_loop fuel 0 start_time start_time (initial_delay self).

(** The delay the loop holds at its [k]-th iteration. *)
Fixpoint scheduled (k : nat) : Q :=
  match k with
  | O => initial_delay self
  | S k' => next_delay self (scheduled k')
  end.

(** A provider that answers every query with a 2xx response whose state is
    neither ["success"] nor ["fail"]. *)
Definition never_terminal : Prop :=
  forall k, exists status_code detail,
    poll_get P k = HttpResponse status_code (Some detail)
    /\ is_success status_code = true
    /\ eq_str (_safe_get detail "data.state") "success" = false
    /\ eq_str (_safe_get detail "data.state") "fail" = false.

(** [random.uniform(0, 0.5)] stays in its range. *)
Definition jitter_in_range : Prop :=
  forall k, (0 <= random_uniform P k /\ random_uniform P k < 1 # 2)%Q.

(** Queries take no negative time. *)
Definition latency_nonneg : Prop := forall k, (0 <= poll_latency P k)%Q.

(** A clock that moves only while the client sleeps. *)
Definition only_sleep_takes_time : Prop := forall k, poll_latency P k = 0%Q.

End PollTask.

(** An answer that keeps [poll_task] waiting: a 2xx response with a JSON body
    whose state is neither ["success"] nor ["fail"]. *)
Definition pending (answer : http_outcome) : Prop :=
  exists status_code detail,
    answer = HttpResponse status_code (Some detail)
    /\ is_success status_code = true
    /\ eq_str (_safe_get detail "data.state") "success" = false
    /\ eq_str (_safe_get detail "data.state") "fail" = false.

Fixpoint total (l : list Q) : Q :=
  match l with
  | [] => 0
  | x :: r => x + total r
  end.

(** [urls[0]] *)
Definition subscript_0 (urls : value) : result value :=
  match urls with
  | VList (u :: _) => Return u
  | VList [] => Raise IndexError
  | VStr (String c _) => Return (VStr (String c ""))
  | VStr EmptyString => Raise IndexError
  | VDict _ => Raise KeyError
  | _ => Raise TypeError
  end.

Section ExtractResultUrl.

(** [json.loads] on a [str]; [None] when it raises. *)
Variable json_loads : string -> option value.

Definition extract_result_url (detail : value) : result value :=
  let raw := _safe_get detail "data.resultJson" in
  if negb (truthy raw) then Raise (RuntimeError "Missing data.resultJson")
  else
    match raw with
    | VStr text =>
        match json_loads text with
        | None => Raise JSONDecodeError
        | Some (VDict parsed) =>
            let urls := py_or (get_or_none parsed "resultUrls") (VList []) in
            if negb (truthy urls) then Raise (RuntimeError "Missing resultUrls")
            else subscript_0 urls
        | Some _ => Raise AttributeError
        end
    | _ => Raise TypeError
    end.

End ExtractResultUrl.

End KieClient.

(* ===================================================================== *)
(** * src/services/frame_extractor_service.py                             *)
(* ===================================================================== *)

Module FrameExtractorService.

Local Open Scope py_scope.

Section Methods.

Variable E : env.
Variable storage : Storage.StorageManager.

Definition extract_last_frame (video_path : path) (job_id : string) (shot_number : Z)
  : M world path :=
  present <- path_exists video_path ;;
  if negb present then raise FileNotFoundError
  else
    frame_path_jpg <- Storage.get_frame_path storage job_id shot_number "last" ;;
    let output_path := List.map (Str.replace ".jpg" ".png") frame_path_jpg in
    on_fs (mkdir_parents (parent output_path)) ;;;
    try_except
      (subprocess_run E (ExtractLastFrame video_path output_path))
      (fun e => match e with
                | CalledProcessError => raise (RuntimeError "FFmpeg failed to extract frame")
                | _ => raise e
                end) ;;;
    created <- path_exists output_path ;;
    if negb created
    then raise (RuntimeError "Frame extraction failed - output file not created")
    else ret output_path.

End Methods.

End FrameExtractorService.

(* ===================================================================== *)
(** * src/services/video_service.py                                       *)
(* ===================================================================== *)

Module VideoService.

Local Open Scope py_scope.

(** One entry of the [prompts] list of a prompts file. *)
Record Shot : Type := mkShot {
  shot_number : Z;
  subject : string;
  prompt : string;
  duration : Z
}.

Record VideoGenerationResponse : Type := mkResponse {
  resp_job_id : string;
  resp_shot_number : Z;
  video_path : path;
  resp_status : string
}.

Record VideoService : Type := mkVideoService {
  storage : Storage.StorageManager;
  aspect_ratio : string;       (* config.VIDEO_ASPECT_RATIO *)
  tempdir : path               (* tempfile.gettempdir() *)
}.

Section Methods.

Variable isalnum : ascii -> bool.
Variable E : env.
Variable self : VideoService.

Definition aspect_ratio_value : string :=
  if String.eqb (aspect_ratio self) "9:16" then "portrait" else aspect_ratio self.

Definition text_payload (prompt : string) (duration : Z) : value :=
  VDict [("model", VStr "sora-2-text-to-video");
         ("input", VDict [("aspect_ratio", VStr aspect_ratio_value);
                          ("n_frames", VStr (Str.of_Z duration));
                          ("size", VStr "standard");
                          ("prompt", VStr prompt)])].

Definition image_payload (image_url prompt : string) (duration : Z) : value :=
  VDict [("model", VStr "sora-2-image-to-video");
         ("input", VDict [("image_url", VStr image_url);
                          ("prompt", VStr prompt);
                          ("aspect_ratio", VStr aspect_ratio_value);
                          ("n_frames", VStr (Str.of_Z duration));
                          ("size", VStr "standard")])].

(** [await self.kie.create_task(payload)], in the generator of the shot
    [shot_number] *)
Definition kie_create (shot_number : Z) (payload : value) : M world string :=
  at_fs <- gets w_fs ;;
  log (EvCreateTask shot_number payload at_fs) ;;;
  r <- ask (kie_create_task E) ;;
  lift r.

(** [await self.kie.poll_task(task_id)] *)
Definition kie_poll (task_id : string) : M world value :=
  log (EvPollTask task_id) ;;;
  r <- ask (kie_poll_task E) ;;
  lift r.

(** [await self.kie.download_file(url, path)] *)
Definition kie_download (url : value) (dest : path) : M world unit :=
  on_fs (mkdir_parents (parent dest)) ;;;
  log (EvDownload url dest) ;;;
  r <- ask (kie_download_file E) ;;
  match r with
  | DlDone => on_fs (write_file dest (Whole (FromUrl url)))
  | DlFailed e left_partial =>
      (if left_partial then on_fs (write_file dest (Partial (FromUrl url))) else ret tt) ;;;
      raise e
  end.

(** From the task creation on, the two generators run the same steps:
    poll, extract the URL, download to a temporary file, move it into the
    store, remove the temporary file. *)
Definition collect (task_id job_id : string) (shot_number : Z) (subject : string)
  : M world VideoGenerationResponse :=
  detail <- kie_poll task_id ;;
  video_url <- lift (KieClient.extract_result_url (json_loads E) detail) ;;
  let temp_path := join (tempdir self) ("video_" +:+ task_id +:+ ".mp4") in
  kie_download video_url temp_path ;;;
  final_path <- Storage.save_video isalnum (storage self) temp_path job_id shot_number subject ;;
  still_there <- path_exists temp_path ;;
  (if still_there then remove temp_path else ret tt) ;;;
  ret (mkResponse job_id shot_number final_path "completed").

Definition submit_and_collect (payload : value) (job_id : string) (shot_number : Z)
    (subject : string) : M world VideoGenerationResponse :=
  task_id <- kie_create shot_number payload ;;
  collect task_id job_id shot_number subject.

Definition generate_video_from_text (job_id : string) (shot_number : Z)
    (prompt : string) (duration : Z) (subject : string)
  : M world VideoGenerationResponse :=
  submit_and_collect (text_payload prompt duration) job_id shot_number subject.

Definition generate_video_from_image (job_id : string) (shot_number : Z)
    (prompt : string) (duration : Z) (subject : string) (image_path : path)
  : M world VideoGenerationResponse :=
  log (EvUpload image_path) ;;;
  r <- ask (uploader_upload_image E) ;;
  image_url <- lift r ;;
  submit_and_collect (image_payload image_url prompt duration) job_id shot_number subject.

Definition progress_kwargs (idx total : nat) : list (string * value) :=
  [("message", VStr ("Generated " +:+ Str.of_Z (Z.of_nat idx) +:+ "/"
                     +:+ Str.of_Z (Z.of_nat total) +:+ " videos"));
   ("progress", VDict [("videos_completed", VInt (Z.of_nat idx));
                       ("videos_total", VInt (Z.of_nat total))])].

(** The body of [for idx, shot in enumerate(shots, 1)], from the [idx]-th
    shot on; [previous_video_path] is [None] until a shot has been handled. *)
Fixpoint shots_loop (job_id : string) (total idx : nat) (shots : list Shot)
    (results : list VideoGenerationResponse) (previous_video_path : option path)
  : M world (list VideoGenerationResponse) :=
  match shots with
  | [] => ret results
  | shot :: rest =>
      let expected_filename :=
        Storage.video_filename isalnum (shot_number shot) (subject shot) in
      job_dir <- Storage.get_job_dir (storage self) job_id None ;;
      let expected_path := join job_dir expected_filename in
      present <- path_exists expected_path ;;
      result <-
        (if present
         then ret (mkResponse job_id (shot_number shot) expected_path "completed")
         else
           match previous_video_path with
           | Some previous =>
               if 1 <? shot_number shot
               then
                 init_frame_path <-
                   FrameExtractorService.extract_last_frame E (storage self)
                     previous job_id (shot_number shot - 1) ;;
                 generate_video_from_image job_id (shot_number shot) (prompt shot)
                   (duration shot) (subject shot) init_frame_path
               else
                 generate_video_from_text job_id (shot_number shot) (prompt shot)
                   (duration shot) (subject shot)
           | None =>
               generate_video_from_text job_id (shot_number shot) (prompt shot)
                 (duration shot) (subject shot)
           end) ;;
      Storage.update_job_status E (storage self) job_id "processing"
        (progress_kwargs idx total) ;;;
      shots_loop job_id total (S idx) rest (results ++ [result]) (Some (video_path result))
  end.

(** [generate_videos_from_prompts], given the [prompts] list of the file. *)
Definition generate_videos_from_prompts (job_id : string) (shots : list Shot)
  : M world (list VideoGenerationResponse) :=
  shots_loop job_id (List.length shots) 1 shots [] None.

(** The two places where the video of a handled shot can be: the path the
    skip test looks at, and the path [save_video] writes. *)
Definition artifact_paths (job_id : string) (shot : Shot) : list path :=
  let name := Storage.video_filename isalnum (shot_number shot) (subject shot) in
  [join (Storage.job_dir_path (storage self) job_id None) name;
   join (Storage.job_dir_path (storage self) job_id (Some "videos")) name].

(** What frame chaining asks of the event [e], given what happened [before]
    it: a submission for shot 1 is a text-to-video request; a submission for
    a later shot is an image-to-video request that comes right after the
    extraction of a frame from the video of the shot before, which is on
    disk like the frame, and the upload of that frame, whose URL it
    carries. *)
Definition chained (job_id : string) (shots : list Shot) (before : list event)
    (e : event) : Prop :=
  match e with
  | EvCreateTask n payload at_fs =>
      (n = 1 /\ exists prompt duration, payload = text_payload prompt duration)
      \/ (1 < n
          /\ exists previous prev_video frame url earlier prompt duration,
               In previous shots
               /\ shot_number previous = n - 1
               /\ In prev_video (artifact_paths job_id previous)
               /\ before = EvUpload frame
                           :: EvFfmpeg (ExtractLastFrame prev_video frame) :: earlier
               /\ uploader_upload_image E before = Return url
               /\ payload = image_payload url prompt duration
               /\ exists_ at_fs prev_video = true
               /\ exists_ at_fs frame = true)
  | _ => True
  end.

(** Every event of [added], the latest first, is chained, [old] being what
    had happened before any of them. *)
Fixpoint all_chained (job_id : string) (shots : list Shot) (old added : list event)
  : Prop :=
  match added with
  | [] => True
  | e :: earlier =>
      chained job_id shots (earlier ++ old) e /\ all_chained job_id shots old earlier
  end.

(** Where the loop stands before the shot numbered [n]: at the first shot,
    with no previous video, or after the shot numbered [n - 1], with one of
    the two paths of its video. *)
Definition loop_position (job_id : string) (shots : list Shot) (n : Z)
    (previous_video_path : option path) : Prop :=
  match previous_video_path with
  | None => n = 1
  | Some prev_video =>
      1 < n
      /\ exists previous,
           In previous shots /\ shot_number previous = n - 1
           /\ In prev_video (artifact_paths job_id previous)
  end.

(** Run from a world satisfying [pre], [m] adds chained events only, and a
    value it returns satisfies [post] with the world it ends in. *)
Definition chain_triple {A} (job_id : string) (shots : list Shot)
    (pre : world -> Prop) (m : M world A) (post : A -> world -> Prop) : Prop :=
  forall w, pre w ->
    exists added,
      w_trace (snd (m w)) = added ++ w_trace w
      /\ all_chained job_id shots (w_trace w) added
      /\ forall a, fst (m w) = Return a -> post a (snd (m w)).

End Methods.

(** Shots numbered [n], [n + 1], ... in the order of the list. *)
Fixpoint numbered_from (n : Z) (shots : list Shot) : Prop :=
  match shots with
  | [] => True
  | shot :: rest => shot_number shot = n /\ numbered_from (n + 1) rest
  end.

(** How many times the provider was asked to create a task. *)
Definition provider_contacts (trace : list event) : nat :=
  List.length (List.filter is_create_task trace).

(** The shots a task was submitted for, each with the model asked for, the
    latest first. *)
Definition submitted_models (trace : list event) : list (Z * value) :=
  omap (fun e => match e with
                 | EvCreateTask n (VDict payload) _ => Some (n, get_or_none payload "model")
                 | _ => None
                 end) trace.

End VideoService.

(* ===================================================================== *)
(** * src/services/tts_service.py                                         *)
(* ===================================================================== *)

Module TTSService.

Local Open Scope py_scope.

Record VoiceoverResponse : Type := mkVoiceoverResponse {
  voice_job_id : string;
  audio_path : path;
  voice_status : string
}.

Record TTSService : Type := mkTTSService {
  storage : Storage.StorageManager;
  model : string;              (* config.TTS_MODEL *)
  default_voice : string;      (* config.TTS_VOICE *)
  format : string;             (* config.TTS_FORMAT *)
  tempdir : path               (* tempfile.gettempdir() *)
}.

(** [len(v)] is defined: the progress line of [generate_voiceover] prints
    [len(text)]. *)
Definition has_len (v : value) : bool :=
  match v with
  | VStr _ | VList _ | VDict _ => true
  | _ => false
  end.

(** [v.get(k, {})] and [v.get(k)] on a decoded JSON value *)
Definition get_or_empty (v : value) (k : string) : result value :=
  match v with
  | VDict d => Return (match dict_get d k with Some x => x | None => VDict [] end)
  | _ => Raise AttributeError
  end.

Definition get (v : value) (k : string) : result value :=
  match v with
  | VDict d => Return (get_or_none d k)
  | _ => Raise AttributeError
  end.

Section Methods.

Variable E : env.
Variable self : TTSService.

Definition payload (text voice : value) : value :=
  VDict [("model", VStr (model self));
         ("input", VDict [("text", text);
                          ("voice", voice);
                          ("format", VStr (format self))])].

(** [generate_voiceover]; the submission is recorded as made for shot 0,
    the narration belonging to no shot. *)
Definition generate_voiceover (job_id : string) (text voice : value) (verbose : bool)
  : M world VoiceoverResponse :=
  let voice := py_or voice (VStr (default_voice self)) in
  audio_path <- Storage.get_audio_path (storage self) job_id ;;
  present <- path_exists audio_path ;;
  if present then ret (mkVoiceoverResponse job_id audio_path "completed")
  else
    (if verbose && negb (has_len text) then raise TypeError else ret tt) ;;;
    task_id <- VideoService.kie_create E 0 (payload text voice) ;;
    detail <- VideoService.kie_poll E task_id ;;
    audio_url <- lift (KieClient.extract_result_url (json_loads E) detail) ;;
    let temp_path := join (tempdir self) ("audio_" +:+ task_id +:+ ".mp3") in
    VideoService.kie_download E audio_url temp_path ;;;
    final_path <- Storage.save_audio (storage self) temp_path job_id ;;
    still_there <- path_exists temp_path ;;
    (if still_there then remove temp_path else ret tt) ;;;
    ret (mkVoiceoverResponse job_id final_path "completed").

Definition generate_voiceover_from_prompts (job_id : string) (prompts_file : path)
    (voice : value) (verbose : bool) : M world VoiceoverResponse :=
  data <- Storage.load_prompts_json prompts_file ;;
  metadata <- lift (get_or_empty data "metadata") ;;
  voice_reader_text <- lift (get metadata "voice_reader") ;;
  if negb (truthy voice_reader_text)
  then raise (ValueError "No voice_reader text found in prompts JSON")
  else
    (if verbose && negb (has_len voice_reader_text) then raise TypeError else ret tt) ;;;
    generate_voiceover job_id voice_reader_text voice verbose.

End Methods.

End TTSService.

(* ===================================================================== *)
(** * src/services/merge_service.py                                       *)
(* ===================================================================== *)

Module MergeService.

Local Open Scope py_scope.

Record MergeResponse : Type := mkMergeResponse {
  merge_job_id : string;
  final_video_path : path;
  merge_status : string
}.

(** [str(p)] for an absolute path *)
Definition path_str (p : path) : string :=
  "/" +:+ String.concat "/" p.

Section Methods.

Variable E : env.
Variable storage : Storage.StorageManager.
(** The name [tempfile.NamedTemporaryFile(suffix='.txt', delete=False)]
    hands out. *)
Variable concat_file : path.

Definition concatenate_videos (video_paths : list path) (output_path : path)
  : M world path :=
  on_fs (write_file concat_file (ConcatList video_paths)) ;;;
  try_finally
    (subprocess_run E (ConcatCopy concat_file output_path))
    (present <- path_exists concat_file ;;
     if present then remove concat_file else ret tt) ;;;
  ret output_path.

Definition merge_audio_video (video_path audio_path output_path : path)
  : M world path :=
  subprocess_run E (MuxAudio video_path audio_path output_path) ;;;
  ret output_path.

Definition combine_videos (job_id : string) : M world path :=
  output_path <- Storage.get_concat_video_path storage job_id ;;
  present <- path_exists output_path ;;
  if present then ret output_path
  else
    video_paths <- Storage.list_videos_for_job storage job_id ;;
    match video_paths with
    | [] => raise (ValueError "No videos found for job")
    | _ =>
        concatenate_videos video_paths output_path ;;;
        ret output_path
    end.

Definition merge_final_video (job_id : string) (video_path audio_path : option path)
  : M world MergeResponse :=
  video_path <- match video_path with
                | Some p => ret p
                | None => Storage.get_concat_video_path storage job_id
                end ;;
  audio_path <- match audio_path with
                | Some p => ret p
                | None => Storage.get_audio_path storage job_id
                end ;;
  output_path <- Storage.get_final_video_path storage job_id ;;
  present <- path_exists output_path ;;
  if present then ret (mkMergeResponse job_id output_path "completed")
  else
    has_video <- path_exists video_path ;;
    if negb has_video then raise FileNotFoundError
    else
      has_audio <- path_exists audio_path ;;
      if negb has_audio then raise FileNotFoundError
      else
        merge_audio_video video_path audio_path output_path ;;;
        Storage.update_job_status E storage job_id "completed"
          [("message", VStr "Final video created");
           ("final_video_path", VStr (path_str output_path))] ;;;
        ret (mkMergeResponse job_id output_path "completed").

End Methods.

End MergeService.

(* ===================================================================== *)
(** * api/main.py                                                         *)
(* ===================================================================== *)

Module Api.

Local Open Scope py_scope.

Record JobStatusResponse : Type := mkJobStatus {
  job_id : string;
  status : value;
  message : value;
  result_ : value;
  error : value
}.

(** What one run of the pipeline meets in its stages, as far as the status
    record can tell: whether a stage raised, and the values it wrote. *)
Record run : Type := mkRun {
  (** [prompts_dir.glob("*_prompts.json")] is not empty *)
  prompts_files_found : bool;
  (** [generate_prompts] raised, or reached its status update with these
      [title], [num_shots], [total_duration] and [voice_reader_text] *)
  prompts_outcome : result (value * value * value * value);
  (** [len(shots)] *)
  videos_total : nat;
  (** [Some (k, e)]: [k] shots were handled, then the next one raised [e] *)
  videos_outcome : option (nat * exn);
  combine_outcome : option exn;
  voiceover_outcome : option exn;
  (** [merge_final_video] raised before its status update, or it returned the
      final path, found on disk ([true]) or just muxed ([false]) *)
  merge_outcome : result (bool * string)
}.

Section Endpoints.

Variable isalnum : ascii -> bool.
Variable E : env.
Variable storage : Storage.StorageManager.
(** [str(e)] *)
Variable str_exn : exn -> string.

Definition get_job_status (jobs : list (string * value)) (job_id : string)
  : M world JobStatusResponse :=
  match dict_get jobs job_id with
  | Some (VDict job_data) =>
      match dict_get job_data "status" with
      | Some st =>
          ret (mkJobStatus job_id st (get_or_none job_data "message")
                 (get_or_none job_data "result") (get_or_none job_data "error"))
      | None => raise KeyError
      end
  | Some _ => raise TypeError
  | None =>
      found <- Storage.job_exists storage job_id ;;
      if negb found then raise (HTTPException 404)
      else
        metadata <- Storage.load_job_metadata storage job_id ;;
        match metadata with
        | VDict d =>
            ret (mkJobStatus job_id
                   (match dict_get d "status" with Some st => st | None => VStr "pending" end)
                   (get_or_none d "message") (get_or_none d "result")
                   (get_or_none d "error"))
        | _ => raise AttributeError
        end
  end.

Definition update (job_id status : string) (kwargs : list (string * value))
  : M world unit :=
  Storage.update_job_status E storage job_id status kwargs.

Definition fail_with (o : option exn) : M world unit :=
  match o with Some e => raise e | None => ret tt end.

(** [prompt_service.generate_prompts], seen from the status record: its one
    update is the last thing it does.  The service derives the job id from
    the title again; the request model requires a title of 3 to 100
    characters, for which [generate_job_id] gives the same id both times. *)
Definition prompts_stage (job_id : string) (r : run) : M world unit :=
  match prompts_outcome r with
  | Raise e => raise e
  | Return (title, num_shots, total_duration, voice_reader_text) =>
      update job_id "prompts_generated"
        [("title", title); ("num_shots", num_shots);
         ("total_duration", total_duration);
         ("voice_reader_text", voice_reader_text)]
  end.

(** [video_service.generate_videos_from_prompts], seen from the status
    record: one progress update after each shot, in order. *)
Fixpoint videos_progress (job_id : string) (total idx : nat) (todo : nat)
  : M world unit :=
  match todo with
  | O => ret tt
  | S todo' =>
      update job_id "processing" (VideoService.progress_kwargs idx total) ;;;
      videos_progress job_id total (S idx) todo'
  end.

Definition videos_stage (job_id : string) (r : run) : M world unit :=
  match videos_outcome r with
  | Some (k, e) => videos_progress job_id (videos_total r) 1 k ;;; raise e
  | None => videos_progress job_id (videos_total r) 1 (videos_total r)
  end.

(** [merge_service.merge_final_video], seen from the status record; the
    value is [final_result.model_dump()]. *)
Definition merge_stage (job_id : string) (r : run) : M world value :=
  match merge_outcome r with
  | Raise e => raise e
  | Return (already_there, output_path) =>
      (if already_there then ret tt
       else update job_id "completed"
              [("message", VStr "Final video created");
               ("final_video_path", VStr output_path)]) ;;;
      ret (VDict [("job_id", VStr job_id);
                  ("final_video_path", VStr output_path);
                  ("status", VStr "completed")])
  end.

(** [full_pipeline_task], without its assignments to the in-memory [jobs]
    dictionary. *)
Definition full_pipeline_task (job_id : string) (r : run) : M world unit :=
  try_except
    (Storage.get_job_dir storage job_id (Some "prompts") ;;;
     (if prompts_files_found r then ret tt
      else
        update job_id "processing" [("message", VStr "Generating prompts")] ;;;
        prompts_stage job_id r) ;;;
     update job_id "processing" [("message", VStr "Generating videos")] ;;;
     videos_stage job_id r ;;;
     update job_id "processing" [("message", VStr "Concatenating videos")] ;;;
     fail_with (combine_outcome r) ;;;
     update job_id "processing" [("message", VStr "Generating voiceover")] ;;;
     fail_with (voiceover_outcome r) ;;;
     update job_id "processing" [("message", VStr "Merging final video")] ;;;
     final_result <- merge_stage job_id r ;;
     update job_id "completed" [("result", final_result)])
    (fun e => update job_id "failed" [("error", VStr (str_exn e))]).

(** [generate_full_video]: the status write of the endpoint, then the
    background task. *)
Definition generate_full_video (strftime_now uuid4_hex title : string) (r : run)
  : M world string :=
  let job_id := Storage.generate_job_id isalnum strftime_now uuid4_hex (Some title) in
  update job_id "pending" [] ;;;
  full_pipeline_task job_id r ;;;
  ret job_id.

(** [DELETE /api/jobs/{job_id}] *)
Definition delete_job (job_id : string) : M world string :=
  deleted <- Storage.delete_job storage job_id ;;
  if deleted then ret ("Job " +:+ job_id +:+ " deleted successfully")
  else raise (HTTPException 404).

(** The status record on disk, when there is one. *)
Definition record_path (job_id : string) : path :=
  join (Storage.job_dir_path storage job_id (Some "prompts")) "metadata.json".

Definition persisted_record (job_id : string) (w : world) : option value :=
  match w_fs w !! record_path job_id with
  | Some (File (JsonDoc v)) => Some v
  | _ => None
  end.

(** The record on disk, if it is a dictionary, does not have the key. *)
Definition lacks (key job_id : string) (w : world) : Prop :=
  forall d, persisted_record job_id w = Some (VDict d) -> has_key d key = false.

(** Neither [result] nor [error] is in the record. *)
Definition clean (job_id : string) (w : world) : Prop :=
  lacks "result" job_id w /\ lacks "error" job_id w.

End Endpoints.

End Api.

(* ===================================================================== *)
(** * Concrete inputs used by the examples                                *)
(* ===================================================================== *)

Module Fixtures.

(** [str.isalnum] on the ASCII range; the examples use ASCII text only. *)
Definition ascii_isalnum (c : ascii) : bool :=
  let n := nat_of_ascii c in
  ((48 <=? n) && (n <=? 57) || (65 <=? n) && (n <=? 90)
   || (97 <=? n) && (n <=? 122))%nat.

Definition long_title : string :=
  "City council approves the new harbour bridge plan after a long debate".

(** The double quote, and JSON documents as a provider could send them in
    [data.resultJson]. *)
Definition dq : string := String (ascii_of_nat 34) "".

Definition result_url : string := "https://cdn.example/v.mp4".

Definition json_urls_list : string :=
  "{" +:+ dq +:+ "resultUrls" +:+ dq +:+ ": [" +:+ dq +:+ result_url +:+ dq +:+ "]}".

Definition json_urls_string : string :=
  "{" +:+ dq +:+ "resultUrls" +:+ dq +:+ ": " +:+ dq +:+ result_url +:+ dq +:+ "}".

Definition json_urls_number : string :=
  "{" +:+ dq +:+ "resultUrls" +:+ dq +:+ ": 5}".

(** [json.loads] on the documents above, on ["[]"], and on text that is not
    JSON. *)
Definition json_loads_fixture (text : string) : option value :=
  if String.eqb text json_urls_list
  then Some (VDict [("resultUrls", VList [VStr result_url])])
  else if String.eqb text json_urls_string
  then Some (VDict [("resultUrls", VStr result_url)])
  else if String.eqb text json_urls_number
  then Some (VDict [("resultUrls", VInt 5)])
  else if String.eqb text "[]" then Some (VList [])
  else None.

(** A stub provider that is still generating at every query, on a clock
    that moves only while the client sleeps, with a constant jitter. *)
Definition still_generating : KieClient.poll_env :=
  KieClient.mkPollEnv
    (fun _ => KieClient.HttpResponse 200
                (Some (VDict [("code", VInt 200);
                              ("data", VDict [("state", VStr "generating")])])))
    (fun _ => 0%Q)
    (fun _ => (1 # 4)%Q).

(** A store below [/srv] and collaborators that always succeed. *)
Definition store : Storage.StorageManager :=
  Storage.mkStorage ["srv"] ["srv"; "jobs"] ["srv"; "output"] ["srv"; "downloads"].

Definition all_fine : env :=
  mkEnv (fun _ => Return "task_1")
        (fun _ => Return (VDict [("data", VDict [("state", VStr "success");
                                                 ("resultJson", VStr json_urls_list)])]))
        (fun _ => DlDone)
        (fun _ => Return "https://i.example/frame.png")
        (fun _ => FfDone true)
        (fun _ => "2026-01-11T14:30:22")
        json_loads_fixture.

(** An empty disk but for the temporary directory. *)
Definition fresh_world : world := mkWorld (<[ ["tmp"] := Dir ]> ∅) [].

(** [str(e)], as far as the examples need it. *)
Definition str_exn (e : exn) : string :=
  match e with
  | RuntimeError msg => msg
  | ValueError msg => msg
  | _ => "error"
  end.

(** A run in which the provider fails the first shot, and a run in which
    every stage succeeds. *)
Definition failing_run : Api.run :=
  Api.mkRun false
    (Return (VStr "Test-50", VInt 2, VInt 20, VStr "narration"))
    2 (Some (0%nat, RuntimeError "Task failed")) None None
    (Return (false, "/srv/jobs/Test-50/final/final.mp4")).

Definition successful_retry : Api.run :=
  Api.mkRun true
    (Return (VStr "Test-50", VInt 2, VInt 20, VStr "narration"))
    2 None None None
    (Return (false, "/srv/jobs/Test-50/final/final.mp4")).

(** The video stage on two shots, run on an empty disk and run again. *)
Definition service : VideoService.VideoService :=
  VideoService.mkVideoService store "9:16" ["tmp"].

Definition two_shots : list VideoService.Shot :=
  [VideoService.mkShot 1 "Opening" "A street at dawn" 10;
   VideoService.mkShot 2 "Closing" "The same street at dusk" 10].

Definition first_video_run : result (list VideoService.VideoGenerationResponse) * world :=
  VideoService.generate_videos_from_prompts ascii_isalnum all_fine service
    "Test-50" two_shots fresh_world.

Definition second_video_run : result (list VideoService.VideoGenerationResponse) * world :=
  VideoService.generate_videos_from_prompts ascii_isalnum all_fine service
    "Test-50" two_shots (snd first_video_run).

(** A media tool that fails after it began to write its output. *)
Definition tool_breaks : env :=
  mkEnv (kie_create_task all_fine) (kie_poll_task all_fine) (kie_download_file all_fine)
        (uploader_upload_image all_fine) (fun _ => FfFailed true)
        (datetime_now_isoformat all_fine) (json_loads all_fine).

Definition concat_file : path := ["tmp"; "tmpq2x7.txt"].

Definition concatenated_mp4 : path := ["srv"; "jobs"; "Test-50"; "videos"; "concatenated.mp4"].
Definition voiceover_mp3 : path := ["srv"; "jobs"; "Test-50"; "audio"; "voiceover.mp3"].
Definition final_mp4 : path := ["srv"; "jobs"; "Test-50"; "final"; "final.mp4"].

(** Concatenation with the failing tool, then again with a working one. *)
Definition broken_concat_run : result path * world :=
  MergeService.combine_videos tool_breaks store concat_file "Test-50"
    (snd first_video_run).

Definition concat_retry : result path * world :=
  MergeService.combine_videos all_fine store concat_file "Test-50"
    (snd broken_concat_run).

(** A job with its clips concatenated and its narration in place; the mux
    with the failing tool, then again with a working one. *)
Definition ready_for_mux : world :=
  let w := snd (MergeService.combine_videos all_fine store concat_file "Test-50"
                  (snd first_video_run)) in
  mkWorld (<[voiceover_mp3 := File (Whole (FromUrl (VStr "https://cdn.example/a.mp3")))]>
             (<[parent voiceover_mp3 := Dir]> (w_fs w)))
          (w_trace w).

Definition broken_mux_run : result MergeService.MergeResponse * world :=
  MergeService.merge_final_video tool_breaks store "Test-50" None None ready_for_mux.

Definition mux_retry : result MergeService.MergeResponse * world :=
  MergeService.merge_final_video all_fine store "Test-50" None None
    (snd broken_mux_run).

(** The job "Test-50" submitted once with the failing run, then again. *)
Definition after_failed_run : world :=
  snd (Api.generate_full_video ascii_isalnum all_fine store str_exn
         "20260111_143022" "a3f8d9c2e1b04f67" "Test-50" failing_run fresh_world).

Definition after_retry : world :=
  snd (Api.generate_full_video ascii_isalnum all_fine store str_exn
         "20260111_150000" "0b1c2d3e4f5a6b7c" "Test-50" successful_retry
         after_failed_run).

Definition detail_with (result_json : value) : value :=
  VDict [("code", VInt 200);
         ("data", VDict [("state", VStr "success"); ("resultJson", result_json)])].

(** A stub provider that is generating at the first two queries and done
    at the third. *)
Definition succeeds_at_third : KieClient.poll_env :=
  KieClient.mkPollEnv
    (fun k => if (k <? 2)%nat
              then KieClient.poll_get still_generating k
              else KieClient.HttpResponse 200 (Some (detail_with (VStr json_urls_list))))
    (fun _ => (1 # 10)%Q)
    (fun _ => (1 # 4)%Q).

(** The narration service on the same store. *)
Definition narrator : TTSService.TTSService :=
  TTSService.mkTTSService store "elevenlabs/text-to-speech-multilingual-v2" "Bill" "mp3"
    ["tmp"].

(** A disk with one downloaded clip in the temporary directory. *)
Definition downloaded : world :=
  mkWorld (<[ ["tmp"; "video_task_1.mp4"] := File (Whole (FromUrl (VStr result_url))) ]>
             (w_fs fresh_world)) [].

End Fixtures.

(* ===================================================================== *)
(** * Facts: strings                                                      *)
(* ===================================================================== *)

Section StrFacts.

Implicit Types (s : string) (c : ascii) (p : ascii -> bool).

Lemma all_take p n s : Str.all p s = true -> Str.all p (Str.take n s) = true.
Proof.
  revert n; induction s as [|a r IH]; intros [|n] H; simpl in *; trivial.
  apply andb_true_iff in H as [Ha Hr]. rewrite Ha. now apply IH.
Qed.

Lemma all_lstrip p c s : Str.all p s = true -> Str.all p (Str.lstrip c s) = true.
Proof.
  induction s as [|a r IH]; simpl; trivial. intros H.
  destruct (Ascii.eqb a c); [|exact H].
  apply andb_true_iff in H as [_ Hr]. now apply IH.
Qed.

Lemma all_rstrip p c s : Str.all p s = true -> Str.all p (Str.rstrip c s) = true.
Proof.
  induction s as [|a r IH]; simpl; trivial. intros H.
  apply andb_true_iff in H as [Ha Hr]. specialize (IH Hr).
  destruct (Str.rstrip c r) as [|b t].
  - destruct (Ascii.eqb a c); simpl; trivial. now rewrite Ha.
  - simpl in *. now rewrite Ha.
Qed.

Lemma all_strip p c s : Str.all p s = true -> Str.all p (Str.strip c s) = true.
Proof. intros H. unfold Str.strip. now apply all_rstrip, all_lstrip. Qed.

Lemma length_take n s : (String.length (Str.take n s) <= n)%nat.
Proof.
  revert s; induction n as [|n IH]; intros [|a r]; simpl; try lia.
  specialize (IH r). lia.
Qed.

Lemma take_short n s : (String.length s <= n)%nat -> Str.take n s = s.
Proof.
  revert s; induction n as [|n IH]; intros [|a r]; simpl; intros H; trivial; try lia.
  f_equal. apply IH. lia.
Qed.

Lemma first_lstrip c s : Str.first (Str.lstrip c s) <> Some c.
Proof.
  induction s as [|a r IH]; simpl; [discriminate|].
  destruct (Ascii.eqb a c) eqn:Hac; [exact IH|].
  simpl. intros [= ->]. now rewrite Ascii.eqb_refl in Hac.
Qed.

Lemma first_rstrip c s :
  Str.first (Str.rstrip c s) = None \/ Str.first (Str.rstrip c s) = Str.first s.
Proof.
  destruct s as [|a r]; simpl; [now left|].
  destruct (Str.rstrip c r); [destruct (Ascii.eqb a c)|]; simpl; auto.
Qed.

Lemma first_take n s :
  Str.first (Str.take n s) = None \/ Str.first (Str.take n s) = Str.first s.
Proof. destruct n, s; simpl; auto. Qed.

Lemma last_rstrip c s : Str.last (Str.rstrip c s) <> Some c.
Proof.
  induction s as [|a r IH]; simpl; [discriminate|].
  destruct (Str.rstrip c r) as [|b t] eqn:Hr.
  - destruct (Ascii.eqb a c) eqn:Hac; simpl; [discriminate|].
    intros [= ->]. now rewrite Ascii.eqb_refl in Hac.
  - exact IH.
Qed.

(** A string made of [c] only is stripped to nothing. *)
Lemma lstrip_all c s :
  Str.all (fun a => Ascii.eqb a c) s = true -> Str.lstrip c s = EmptyString.
Proof.
  induction s as [|a r IH]; simpl; trivial. intros H.
  apply andb_true_iff in H as [Ha Hr]. rewrite Ha. now apply IH.
Qed.

End StrFacts.

(* ===================================================================== *)
(** * Facts: job identifiers (src/storage.py, generate_job_id)            *)
(* ===================================================================== *)

Section JobIdFacts.

Variable isalnum : ascii -> bool.

Abbreviation keeps := (Storage.keeps isalnum).
Abbreviation sanitize := (Storage.sanitize isalnum).
Abbreviation safe_title := (Storage.safe_title isalnum).
Abbreviation generate_job_id := (Storage.generate_job_id isalnum).

Lemma keeps_sanitize c : keeps (sanitize c) = true.
Proof.
  unfold Storage.sanitize. destruct (keeps c) eqn:H; [exact H|].
  unfold Storage.keeps. simpl. now rewrite orb_true_r.
Qed.

Lemma all_keeps_map s : Str.all keeps (Str.map sanitize s) = true.
Proof.
  induction s as [|a r IH]; simpl; trivial. now rewrite keeps_sanitize.
Qed.

Lemma map_unkept_underscores s :
  Str.all (fun c => negb (keeps c)) s = true ->
  Str.all (fun a => Ascii.eqb a "_") (Str.map sanitize s) = true.
Proof.
  induction s as [|a r IH]; simpl; trivial. intros H.
  apply andb_true_iff in H as [Ha Hr]. rewrite (IH Hr), andb_true_r.
  unfold Storage.sanitize. apply negb_true_iff in Ha. now rewrite Ha.
Qed.

Lemma generate_job_id_titled stamp uuid title :
  title <> "" -> generate_job_id stamp uuid (Some title) = safe_title title.
Proof.
  intros H. unfold Storage.generate_job_id. simpl.
  destruct title; [congruence|reflexivity].
Qed.

Lemma safe_title_chars title : Str.all keeps (safe_title title) = true.
Proof. apply all_take, all_strip, all_keeps_map. Qed.

Lemma safe_title_no_leading title : Str.first (safe_title title) <> Some "_"%char.
Proof.
  unfold Storage.safe_title, Str.strip. intros H.
  destruct (first_take 50 (Str.rstrip "_" (Str.lstrip "_" (Str.map sanitize title))))
    as [E|E]; rewrite E in H; [discriminate|].
  destruct (first_rstrip "_" (Str.lstrip "_" (Str.map sanitize title)))
    as [E'|E']; rewrite E' in H; [discriminate|].
  now apply first_lstrip in H.
Qed.

Lemma safe_title_no_trailing title :
  (String.length (Str.strip "_" (Str.map sanitize title)) <= 50)%nat ->
  Str.last (safe_title title) <> Some "_"%char.
Proof.
  intros H. unfold Storage.safe_title. rewrite take_short by exact H.
  apply last_rstrip.
Qed.

Lemma safe_title_empty title :
  Str.all (fun c => negb (keeps c)) title = true -> safe_title title = "".
Proof.
  intros H. unfold Storage.safe_title, Str.strip.
  now rewrite (lstrip_all _ _ (map_unkept_underscores _ H)).
Qed.

(** C5, as amended.  For every non-empty title, [generate_job_id] reads
    neither the clock nor the random source: two calls with the same title
    give the same identifier, which is the title with every character that
    is not alphanumeric, underscore or hyphen replaced by an underscore,
    stripped of leading and trailing underscores and cut to 50 characters;
    hence two non-empty titles with the same sanitized form get the same
    job id. *)
Theorem generate_job_id_deterministic (title : string) :
  title <> "" ->
  forall stamp1 uuid1 stamp2 uuid2,
    generate_job_id stamp1 uuid1 (Some title)
    = generate_job_id stamp2 uuid2 (Some title)
    /\ generate_job_id stamp1 uuid1 (Some title)
       = Str.take 50
           (Str.strip "_"
              (Str.map (fun c => if isalnum c || Ascii.eqb c "_" || Ascii.eqb c "-"
                                 then c else "_"%char) title))
    /\ forall title',
         title' <> "" -> safe_title title' = safe_title title ->
         generate_job_id stamp2 uuid2 (Some title')
         = generate_job_id stamp1 uuid1 (Some title).
Proof.
  intros Hne stamp1 uuid1 stamp2 uuid2.
  rewrite !generate_job_id_titled by exact Hne.
  repeat split.
  intros title' Hne' Heq. now rewrite generate_job_id_titled.
Qed.

(** C10, as amended.  For every non-empty title the identifier consists of
    alphanumeric characters, underscores and hyphens only, has at most 50
    characters and does not start with an underscore; it does not end with
    one either when the stripped form has at most 50 characters.  A
    non-empty title without any alphanumeric character, underscore or hyphen
    gets the empty identifier, whose job directory is the jobs root. *)
Theorem generate_job_id_shape (title : string) :
  title <> "" ->
  forall stamp uuid,
    let id := generate_job_id stamp uuid (Some title) in
    Str.all (fun c => isalnum c || Ascii.eqb c "_" || Ascii.eqb c "-") id = true
    /\ (String.length id <= 50)%nat
    /\ Str.first id <> Some "_"%char
    /\ ((String.length (Str.strip "_" (Str.map sanitize title)) <= 50)%nat ->
        Str.last id <> Some "_"%char)
    /\ (Str.all (fun c => negb (keeps c)) title = true ->
        id = ""
        /\ forall self, Storage.job_dir_path self id None = Storage.jobs_dir self).
Proof.
  intros Hne stamp uuid id. subst id.
  rewrite generate_job_id_titled by exact Hne.
  split; [apply safe_title_chars|].
  split; [apply length_take|].
  split; [apply safe_title_no_leading|].
  split; [apply safe_title_no_trailing|].
  intros H. rewrite (safe_title_empty _ H). split; [reflexivity|].
  intros self. reflexivity.
Qed.

End JobIdFacts.

(** C5: the witness, at the title of the API's own example. *)
Lemma generate_job_id_deterministic_witness :
  Storage.generate_job_id Fixtures.ascii_isalnum "20260111_143022" "a3f8d9c2e1b04f67"
    (Some "Iran Protests Update")
  = "Iran_Protests_Update"
  /\ Storage.generate_job_id Fixtures.ascii_isalnum "20260112_080000" "0b1c2d3e4f5a6b7c"
       (Some "Iran Protests Update!")
     = Storage.generate_job_id Fixtures.ascii_isalnum "20260111_143022" "a3f8d9c2e1b04f67"
         (Some "Iran Protests Update").
Proof.
  assert (Hne : "Iran Protests Update" <> "") by discriminate.
  pose proof (generate_job_id_deterministic Fixtures.ascii_isalnum
                "Iran Protests Update" Hne
                "20260111_143022" "a3f8d9c2e1b04f67"
                "20260112_080000" "0b1c2d3e4f5a6b7c") as (_ & Hform & Hcollide).
  split.
  - rewrite Hform. vm_compute. reflexivity.
  - apply Hcollide; [discriminate|vm_compute; reflexivity].
Defined.

(** C5 as stated fails at the empty title: the identifier comes from the
    clock and the random source, so two calls differ, and neither gives the
    sanitized title (the empty string). *)
Lemma generate_job_id_empty_title_counterexample :
  Storage.generate_job_id Fixtures.ascii_isalnum "20260111_143022" "a3f8d9c2e1b04f67"
    (Some "")
  = "20260111_143022_a3f8d9c2"
  /\ Storage.generate_job_id Fixtures.ascii_isalnum "20260111_143023" "0b1c2d3e4f5a6b7c"
       (Some "")
     = "20260111_143023_0b1c2d3e"
  /\ Storage.safe_title Fixtures.ascii_isalnum "" = "".
Proof. vm_compute. repeat split. Qed.

(** C10: the witness, at a title of punctuation only. *)
Lemma generate_job_id_shape_witness :
  Storage.generate_job_id Fixtures.ascii_isalnum "20260111_143022" "a3f8d9c2e1b04f67"
    (Some "!!!") = ""
  /\ Storage.job_dir_path (Storage.mkStorage ["srv"] ["srv"; "jobs"] ["srv"; "output"]
                             ["srv"; "downloads"]) "" None
     = ["srv"; "jobs"].
Proof.
  assert (Hne : "!!!" <> "") by discriminate.
  pose proof (generate_job_id_shape Fixtures.ascii_isalnum "!!!" Hne
                "20260111_143022" "a3f8d9c2e1b04f67") as H.
  cbv zeta in H. destruct H as (_ & _ & _ & _ & H).
  destruct (H ltac:(vm_compute; reflexivity)) as [Hid Hdir].
  split; [exact Hid|]. reflexivity.
Defined.

(** C10 as stated fails on a long title: the cut to 50 characters comes
    after the stripping and can end on an underscore. *)
Lemma generate_job_id_trailing_underscore_counterexample :
  Storage.generate_job_id Fixtures.ascii_isalnum "20260111_143022" "a3f8d9c2e1b04f67"
    (Some Fixtures.long_title)
  = "City_council_approves_the_new_harbour_bridge_plan_"
  /\ Str.last (Storage.generate_job_id Fixtures.ascii_isalnum "20260111_143022"
                 "a3f8d9c2e1b04f67" (Some Fixtures.long_title))
     = Some "_"%char.
Proof. vm_compute. split; reflexivity. Qed.

(* ===================================================================== *)
(** * Facts: task submission and result extraction (kie_client.py)        *)
(* ===================================================================== *)

Section CreateTaskFacts.

Variable repr : value -> string.

Abbreviation create_task := (KieClient.create_task repr).

(** A response in which none of the three places holds a usable task id is
    an error as well, whatever its [code]. *)
Lemma create_task_no_task_id status_code data :
  truthy (KieClient._safe_get data "data.taskId") = false ->
  truthy (KieClient._safe_get data "taskId") = false ->
  truthy (KieClient._safe_get data "data.id") = false ->
  exists e, create_task (KieClient.HttpResponse status_code (Some data)) = Raise e.
Proof.
  intros H1 H2 H3. unfold KieClient.create_task.
  destruct (negb (KieClient.is_success status_code)); [eauto|].
  destruct (KieClient.kie_error_format data); [eauto|].
  unfold py_or. rewrite H1. cbv iota. rewrite H2. cbv iota. rewrite H3.
  cbn [negb]. eauto.
Qed.


End CreateTaskFacts.


Section ExtractFacts.

Variable json_loads : string -> option value.

Abbreviation extract_result_url := (KieClient.extract_result_url json_loads).

Lemma truthy_or_empty v : truthy (py_or v (VList [])) = truthy v.
Proof. unfold py_or. destruct (truthy v) eqn:H; [exact H|reflexivity]. Qed.

Lemma subscript_0_cases v r :
  KieClient.subscript_0 v = Return r ->
  (exists rest, v = VList (r :: rest))
  \/ (exists c rest, v = VStr (String c rest) /\ r = VStr (String c "")).
Proof.
  destruct v as [| | | |[|c t]|[|u t]|]; simpl; intros [= <-]; eauto.
Qed.

Lemma subscript_0_not_runtime v msg :
  KieClient.subscript_0 v <> Raise (RuntimeError msg).
Proof. destruct v as [| | | |[|c t]|[|u t]|]; simpl; discriminate. Qed.

(** C8, as amended.  [extract_result_url] raises its [RuntimeError] exactly
    when [data.resultJson] is absent or falsy, or is a string that decodes to
    an object whose [resultUrls] is absent or falsy.  When [resultJson]
    decodes to an object whose [resultUrls] is a non-empty list, the first
    element is returned.  Nothing else is returned except the first
    character of a [resultUrls] that is a non-empty string; every other
    input ends in an exception of another kind. *)
Theorem extract_result_url_spec (detail : value) :
  let raw := KieClient._safe_get detail "data.resultJson" in
  ((exists msg, extract_result_url detail = Raise (RuntimeError msg)) <->
   (truthy raw = false
    \/ exists text parsed,
         raw = VStr text /\ json_loads text = Some (VDict parsed)
         /\ truthy (get_or_none parsed "resultUrls") = false))
  /\ (forall text parsed u rest,
        raw = VStr text -> text <> "" ->
        json_loads text = Some (VDict parsed) ->
        dict_get parsed "resultUrls" = Some (VList (u :: rest)) ->
        extract_result_url detail = Return u)
  /\ (forall r,
        extract_result_url detail = Return r ->
        exists text parsed,
          raw = VStr text /\ json_loads text = Some (VDict parsed)
          /\ ((exists rest, get_or_none parsed "resultUrls" = VList (r :: rest))
              \/ (exists c rest, get_or_none parsed "resultUrls" = VStr (String c rest)
                                 /\ r = VStr (String c "")))).
Proof.
  intros raw. unfold KieClient.extract_result_url. fold raw. clearbody raw.
  destruct (truthy raw) eqn:Hraw; cbn [negb].
  2:{ split; [split; eauto|]. split; [|discriminate].
      intros text parsed u rest -> Hne. destruct text; [congruence|discriminate]. }
  split; [split|split].
  - intros [msg H]. right.
    destruct raw as [| | | |text| |]; try discriminate.
    destruct (json_loads text) as [[| | | | | |parsed]|] eqn:Hl; try discriminate.
    exists text, parsed. split; [reflexivity|split; [exact Hl|]].
    rewrite truthy_or_empty in H.
    destruct (truthy (get_or_none parsed "resultUrls")) eqn:Hu; [|reflexivity].
    cbn [negb] in H. exfalso. revert H. apply subscript_0_not_runtime.
  - intros [H|(text & parsed & -> & Hl & Hu)]; [congruence|].
    rewrite Hl, truthy_or_empty, Hu. eauto.
  - intros text parsed u rest -> _ Hl Hu.
    rewrite Hl. unfold get_or_none, py_or. rewrite Hu. reflexivity.
  - intros r H.
    destruct raw as [| | | |text| |]; try discriminate.
    destruct (json_loads text) as [[| | | | | |parsed]|] eqn:Hl; try discriminate.
    exists text, parsed. split; [reflexivity|split; [exact Hl|]].
    rewrite truthy_or_empty in H.
    destruct (truthy (get_or_none parsed "resultUrls")) eqn:Hu; [|discriminate].
    cbn [negb] in H. unfold py_or in H. rewrite Hu in H.
    apply subscript_0_cases in H. exact H.
Qed.

End ExtractFacts.

(** The well-formed case, on a concrete document. *)
Example extract_result_url_first_of_list :
  KieClient.extract_result_url Fixtures.json_loads_fixture
    (Fixtures.detail_with (VStr Fixtures.json_urls_list))
  = Return (VStr Fixtures.result_url).
Proof. vm_compute. reflexivity. Qed.

(** C8 as stated fails where [resultJson] is present and not empty but is
    not the expected document: a [resultUrls] that is a string gives back its
    first character instead of a URL, and a number, a document that is not
    an object, or text that is not JSON end in exceptions other than the
    function's own [RuntimeError]. *)
Lemma extract_result_url_counterexample :
  KieClient.extract_result_url Fixtures.json_loads_fixture
    (Fixtures.detail_with (VStr Fixtures.json_urls_string))
  = Return (VStr "h")
  /\ KieClient.extract_result_url Fixtures.json_loads_fixture
       (Fixtures.detail_with (VStr Fixtures.json_urls_number))
     = Raise TypeError
  /\ KieClient.extract_result_url Fixtures.json_loads_fixture
       (Fixtures.detail_with (VStr "[]"))
     = Raise AttributeError
  /\ KieClient.extract_result_url Fixtures.json_loads_fixture
       (Fixtures.detail_with (VStr "not json"))
     = Raise JSONDecodeError.
Proof. vm_compute. repeat split. Qed.

(* ===================================================================== *)
(** * Facts: directories and job lookup (storage.py, api/main.py)         *)
(* ===================================================================== *)

Section MkdirFacts.

Implicit Types (f : fs) (p q done : path) (todo : list string).

(** [mkdir] never touches what is already there. *)
Lemma mkdir_from_preserves done todo f f' q n :
  mkdir_from done todo f = Return f' -> f !! q = Some n -> f' !! q = Some n.
Proof.
  revert done f. induction todo as [|c rest IH]; intros done f; simpl.
  - now intros [= <-].
  - destruct (f !! (done ++ [c])) as [[|content]|] eqn:Hp; intros H Hq;
      [eauto|discriminate|].
    eapply IH; [exact H|].
    rewrite lookup_insert_ne; [exact Hq|]. intros <-. congruence.
Qed.

(** It only adds directories. *)
Lemma mkdir_from_adds_dirs done todo f f' q n :
  mkdir_from done todo f = Return f' -> f' !! q = Some n -> f !! q = None -> n = Dir.
Proof.
  revert done f. induction todo as [|c rest IH]; intros done f; simpl.
  - intros [= <-] H1 H2. congruence.
  - destruct (f !! (done ++ [c])) as [[|content]|] eqn:Hp; intros H Hq Hnone;
      [eauto|discriminate|].
    destruct (decide (q = done ++ [c])) as [->|Hne].
    + pose proof (mkdir_from_preserves _ _ _ _ (done ++ [c]) Dir H) as Hd.
      rewrite lookup_insert_eq in Hd. specialize (Hd eq_refl). congruence.
    + eapply IH; [exact H|exact Hq|]. now rewrite lookup_insert_ne.
Qed.

Lemma mkdir_from_is_dir done todo f f' :
  mkdir_from done todo f = Return f' -> todo <> [] ->
  f' !! (done ++ todo) = Some Dir.
Proof.
  revert done f. induction todo as [|c rest IH]; intros done f H Hne; [congruence|].
  simpl in H.
  assert (Hstep : exists f1, mkdir_from (done ++ [c]) rest f1 = Return f'
                             /\ f1 !! (done ++ [c]) = Some Dir).
  { destruct (f !! (done ++ [c])) as [[|content]|] eqn:Hp; [eauto|discriminate|].
    eexists; split; [exact H|]. apply lookup_insert_eq. }
  destruct Hstep as (f1 & H1 & Hd).
  destruct rest as [|c2 rest].
  - simpl in H1. injection H1 as <-. exact Hd.
  - replace (done ++ c :: c2 :: rest) with ((done ++ [c]) ++ c2 :: rest)
      by now rewrite <- app_assoc.
    eapply IH; [exact H1|discriminate].
Qed.

(** The directory can be made when no regular file lies on the way. *)
Lemma mkdir_from_succeeds done todo f :
  (forall k content, f !! (done ++ take k todo) <> Some (File content)) ->
  exists f', mkdir_from done todo f = Return f'.
Proof.
  revert done f. induction todo as [|c rest IH]; intros done f Hfree; simpl; [eauto|].
  assert (Hrest : forall f1, (forall q, q <> done ++ [c] -> f1 !! q = f !! q) ->
                             (forall content, f1 !! (done ++ [c]) <> Some (File content)) ->
                             exists f', mkdir_from (done ++ [c]) rest f1 = Return f').
  { intros f1 Hsame Hhere. apply IH. intros k content.
    destruct k as [|k]; simpl.
    - rewrite app_nil_r. apply Hhere.
    - destruct (decide ((done ++ [c]) ++ take (S k) rest = done ++ [c])) as [->|Hne];
        [apply Hhere|].
      rewrite Hsame by exact Hne. rewrite <- app_assoc. apply (Hfree (S (S k))). }
  destruct (f !! (done ++ [c])) as [[|content]|] eqn:Hp.
  - apply Hrest; [reflexivity|]. intros content. congruence.
  - exfalso. apply (Hfree 1%nat content). exact Hp.
  - apply Hrest.
    + intros q Hq. now rewrite lookup_insert_ne.
    + intros content. rewrite lookup_insert_eq. discriminate.
Qed.

Lemma mkdir_parents_raises p f e :
  mkdir_parents p f = Raise e -> e = NotADirectoryError.
Proof.
  unfold mkdir_parents. generalize (@nil string) as done. revert f.
  induction p as [|c rest IH]; intros f done; simpl; [discriminate|].
  destruct (f !! (done ++ [c])) as [[|content]|]; eauto. now intros [= <-].
Qed.

Lemma mkdir_parents_is_dir p f f' :
  mkdir_parents p f = Return f' -> p <> [] -> exists_ f' p = true.
Proof.
  intros H Hne. unfold exists_.
  pose proof (mkdir_from_is_dir [] p f f' H Hne) as Hd. simpl in Hd.
  now rewrite Hd.
Qed.

End MkdirFacts.

Section JobLookupFacts.

Variable self : Storage.StorageManager.

Lemma stage_dir_not_root job_id stage :
  stage <> "" -> Storage.job_dir_path self job_id (Some stage) <> [].
Proof.
  intros Hs. unfold Storage.job_dir_path, join. simpl.
  destruct (String.eqb_spec stage ""); [congruence|]. simpl.
  destruct (String.eqb_spec stage ""); [congruence|].
  now destruct (if String.eqb job_id "" then _ else _).
Qed.

Lemma get_job_dir_run job_id stage w :
  Storage.get_job_dir self job_id stage w
  = match mkdir_parents (Storage.job_dir_path self job_id stage) (w_fs w) with
    | Return f' => (Return (Storage.job_dir_path self job_id stage),
                    mkWorld f' (w_trace w))
    | Raise e => (Raise e, w)
    end.
Proof.
  unfold Storage.get_job_dir, bind, on_fs, ret.
  now destruct (mkdir_parents _ _).
Qed.

Lemma job_exists_run job_id w :
  Storage.job_exists self job_id w
  = match mkdir_parents (Storage.job_dir_path self job_id (Some "prompts")) (w_fs w) with
    | Return f' => (Return true, mkWorld f' (w_trace w))
    | Raise e => (Raise e, w)
    end.
Proof.
  unfold Storage.job_exists, bind. rewrite get_job_dir_run.
  destruct (mkdir_parents _ _) as [f'|e] eqn:Hm; [|reflexivity].
  unfold path_exists, gets. cbn [w_fs].
  rewrite (mkdir_parents_is_dir _ _ _ Hm); [reflexivity|].
  now apply stage_dir_not_root.
Qed.

(** C9.  [job_exists] cannot answer [False]: it makes the directory it then
    looks for.  It answers [True] whenever the directory can be made, which
    is the case when no regular file lies on the way to it; and the status
    query never reaches its 404 for a job that is absent from the in-memory
    dictionary. *)
Theorem job_exists_always_true (job_id : string) (w : world) :
  (forall b w', Storage.job_exists self job_id w = (Return b, w') -> b = true)
  /\ ((forall k content,
         w_fs w !! take k (Storage.job_dir_path self job_id (Some "prompts"))
         <> Some (File content)) ->
      fst (Storage.job_exists self job_id w) = Return true)
  /\ (forall jobs w',
        Api.get_job_status self jobs job_id w <> (Raise (HTTPException 404), w')).
Proof.
  split; [|split].
  - intros b w'. rewrite job_exists_run.
    destruct (mkdir_parents _ _); [now intros [= <- _]|discriminate].
  - intros Hfree. rewrite job_exists_run.
    destruct (mkdir_from_succeeds [] _ (w_fs w) Hfree) as [f' Hf'].
    unfold mkdir_parents. now rewrite Hf'.
  - intros jobs w'. unfold Api.get_job_status.
    destruct (dict_get jobs job_id) as [[| | | | | |job_data]|];
      try (unfold raise; congruence).
    { destruct (dict_get job_data "status"); unfold raise, ret; congruence. }
    unfold bind. rewrite job_exists_run.
    destruct (mkdir_parents _ _) as [f1|e] eqn:Hm.
    2:{ intros [= -> _]. now apply mkdir_parents_raises in Hm. }
    cbn [negb]. unfold Storage.load_job_metadata, bind.
    rewrite get_job_dir_run. cbn [w_fs w_trace].
    destruct (mkdir_parents _ f1) as [f2|e] eqn:Hm2.
    2:{ intros [= -> _]. now apply mkdir_parents_raises in Hm2. }
    unfold path_exists, gets, ret, raise, read_file. cbn [w_fs w_trace].
    match goal with |- context [exists_ f2 ?p] => destruct (exists_ f2 p) end;
      cbn [negb w_fs]; [|congruence].
    match goal with |- context [f2 !! ?p] => destruct (f2 !! p) as [[|[o|o|v|l]]|] end;
      try congruence.
    destruct v; congruence.
Qed.

End JobLookupFacts.

(* ===================================================================== *)
(** * Facts: polling (kie_client.py, poll_task)                           *)
(* ===================================================================== *)

Section PollFacts.

Local Open Scope Q_scope.

Variable P : KieClient.poll_env.

Abbreviation client := KieClient.init.
Abbreviation scheduled := (KieClient.scheduled KieClient.init).
Abbreviation poll_loop := (KieClient.poll_loop KieClient.init P).
Abbreviation poll_task := (KieClient.poll_task KieClient.init P).

Lemma py_min_le_l a b : KieClient.py_min a b <= a.
Proof.
  unfold KieClient.py_min. destruct (Qle_bool a b) eqn:H; [lra|].
  assert (~ a <= b) by (rewrite <- Qle_bool_iff; congruence). lra.
Qed.

Lemma py_min_glb a b c : c <= a -> c <= b -> c <= KieClient.py_min a b.
Proof. unfold KieClient.py_min. now destruct (Qle_bool a b). Qed.

Lemma next_delay_bounds d :
  2 <= d -> d <= 15 ->
  2 <= KieClient.next_delay client d
  /\ d <= KieClient.next_delay client d
  /\ KieClient.next_delay client d <= 15.
Proof.
  intros Hlo Hhi. unfold KieClient.next_delay. cbn [KieClient.max_delay KieClient.init].
  repeat split; [apply py_min_glb; lra|apply py_min_glb; lra|apply py_min_le_l].
Qed.

Lemma scheduled_range k : 2 <= scheduled k /\ scheduled k <= 15.
Proof.
  induction k as [|k [Hlo Hhi]]; simpl; [split; lra|].
  destruct (next_delay_bounds _ Hlo Hhi) as (H1 & _ & H3). now split.
Qed.

Lemma scheduled_monotone k : scheduled k <= scheduled (S k).
Proof.
  destruct (scheduled_range k) as [Hlo Hhi]. simpl.
  now destruct (next_delay_bounds _ Hlo Hhi) as (_ & H2 & _).
Qed.

(** One turn of the loop for a provider that is not done. *)
Lemma poll_loop_pending fuel k start now delay status_code detail :
  KieClient.poll_get P k = KieClient.HttpResponse status_code (Some detail) ->
  KieClient.is_success status_code = true ->
  KieClient.eq_str (KieClient._safe_get detail "data.state") "success" = false ->
  KieClient.eq_str (KieClient._safe_get detail "data.state") "fail" = false ->
  poll_loop (S fuel) k start now delay
  = if Qlt_le_dec (KieClient.timeout client)
         (now + KieClient.poll_latency P k - start)
    then (Some (Raise TimeoutError), [])
    else
      let seconds := delay + KieClient.random_uniform P k in
      (fst (poll_loop fuel (S k) start (now + KieClient.poll_latency P k + seconds)
              (KieClient.next_delay client delay)),
       seconds :: snd (poll_loop fuel (S k) start
                         (now + KieClient.poll_latency P k + seconds)
                         (KieClient.next_delay client delay))).
Proof.
  intros Hget Hok Hs Hf. cbn [KieClient.poll_loop].
  rewrite Hget, Hok. cbn [negb]. rewrite Hs, Hf.
  destruct (Qlt_le_dec _ _); [reflexivity|].
  cbv zeta. now destruct (KieClient.poll_loop _ _ _ _ _ _ _).
Qed.

(** Every sleep the loop asks for is its scheduled delay plus the jitter. *)
Lemma poll_loop_sleeps fuel :
  KieClient.jitter_in_range P ->
  forall k start now i seconds,
    nth_error (snd (poll_loop fuel k start now (scheduled k))) i = Some seconds ->
    scheduled (k + i) <= seconds /\ seconds < scheduled (k + i) + (1 # 2).
Proof.
  intros Hj. induction fuel as [|fuel IH]; intros k start now i seconds.
  { destruct i; discriminate. }
  cbn [KieClient.poll_loop].
  destruct (KieClient.poll_get P k) as [| |status_code [detail|]];
    try (destruct i; discriminate).
  2:{ destruct (negb _); destruct i; discriminate. }
  destruct (negb _); [destruct i; discriminate|].
  destruct (KieClient.eq_str _ "success"); [destruct i; discriminate|].
  destruct (KieClient.eq_str _ "fail"); [destruct i; discriminate|].
  destruct (Qlt_le_dec _ _); [destruct i; discriminate|].
  cbv zeta.
  destruct (KieClient.poll_loop _ _ _ _ _ _ _) as [r slept] eqn:Hrec.
  cbn [snd]. destruct i as [|i]; cbn [nth_error].
  - intros [= <-]. rewrite Nat.add_0_r. destruct (Hj k). lra.
  - intros Hnth. rewrite Nat.add_succ_r, <- Nat.add_succ_l.
    apply (IH (S k) start
              (now + KieClient.poll_latency P k
               + (scheduled k + KieClient.random_uniform P k))).
    cbn [KieClient.scheduled]. fold scheduled.
    change (KieClient.next_delay client (scheduled k))
      with (KieClient.next_delay KieClient.init (KieClient.scheduled KieClient.init k)) in Hrec.
    rewrite Hrec. exact Hnth.
Qed.

Lemma inject_succ (n : nat) :
  inject_Z (Z.of_nat (S n)) == inject_Z (Z.of_nat n) + 1.
Proof. rewrite Nat2Z.inj_succ, <- Z.add_1_r, inject_Z_plus. reflexivity. Qed.

(** With enough turns left for the time that remains, the loop ends in the
    timeout. *)
Lemma poll_loop_times_out fuel :
  KieClient.never_terminal P -> KieClient.jitter_in_range P ->
  KieClient.latency_nonneg P ->
  forall k start now delay,
    2 <= delay -> delay <= 15 ->
    1200 - (now - start) < 2 * inject_Z (Z.of_nat fuel) ->
    fst (poll_loop (S fuel) k start now delay) = Some (Raise TimeoutError).
Proof.
  intros Hnt Hj Hl. induction fuel as [|fuel IH]; intros k start now delay Hlo Hhi Hrem;
    destruct (Hnt k) as (sc & detail & Hget & Hok & Hs & Hf);
    rewrite (poll_loop_pending _ _ _ _ _ _ _ Hget Hok Hs Hf);
    cbn [KieClient.timeout KieClient.init];
    destruct (Qlt_le_dec _ _) as [Hover|Hunder]; try reflexivity.
  - exfalso. specialize (Hl k).
    change (inject_Z (Z.of_nat 0)) with 0 in Hrem. lra.
  - cbv zeta. cbn [fst].
    destruct (next_delay_bounds _ Hlo Hhi) as (H1 & _ & H3).
    apply IH; [exact H1|exact H3|].
    rewrite inject_succ in Hrem. specialize (Hl k). destruct (Hj k). lra.
Qed.

(** On a clock that moves only while the client sleeps, the timeout is raised
    at the first query made more than 1200 seconds after the start. *)
Lemma poll_loop_timeout_point fuel :
  KieClient.only_sleep_takes_time P ->
  forall k start now delay slept,
    poll_loop fuel k start now delay = (Some (Raise TimeoutError), slept) ->
    1200 < now - start + KieClient.total slept
    /\ (slept <> [] -> now - start + KieClient.total (removelast slept) <= 1200).
Proof.
  intros Hz. induction fuel as [|fuel IH]; intros k start now delay slept; [discriminate|].
  cbn [KieClient.poll_loop].
  destruct (KieClient.poll_get P k) as [| |status_code [detail|]]; try discriminate.
  2:{ destruct (negb _); discriminate. }
  destruct (negb _); [discriminate|].
  destruct (KieClient.eq_str _ "success"); [discriminate|].
  destruct (KieClient.eq_str _ "fail"); [discriminate|].
  rewrite (Hz k). cbn [KieClient.timeout KieClient.init].
  destruct (Qlt_le_dec _ _) as [Hover|Hunder].
  - intros [= <-]. cbn. split; [lra|congruence].
  - cbv zeta. destruct (KieClient.poll_loop _ _ _ _ _ _ _) as [r rest] eqn:Hrec.
    intros [= -> <-]. apply IH in Hrec as [Hsum Hlast]. cbn [KieClient.total].
    split; [lra|]. intros _.
    destruct rest as [|x rest].
    + cbn. lra.
    + specialize (Hlast ltac:(discriminate)).
      change (removelast (?a :: x :: rest)) with (a :: removelast (x :: rest)).
      cbn [KieClient.total]. lra.
Qed.


End PollFacts.

(* ===================================================================== *)
(** * Facts: the effect monad                                             *)
(* ===================================================================== *)

Section TripleRules.

Context {W : Type}.
Implicit Types (pre : W -> Prop) (post_raise : exn -> W -> Prop).

Lemma triple_ret {A} pre (a : A) (post_return : A -> W -> Prop) post_raise :
  (forall w, pre w -> post_return a w) ->
  triple pre (ret a) post_return post_raise.
Proof. intros H w Hw. now apply H. Qed.

Lemma triple_raise {A} pre e (post_return : A -> W -> Prop) post_raise :
  (forall w, pre w -> post_raise e w) ->
  triple pre (raise e) post_return post_raise.
Proof. intros H w Hw. now apply H. Qed.

Lemma triple_bind {A B} pre (m : M W A) (k : A -> M W B)
    (mid : A -> W -> Prop) (post_return : B -> W -> Prop) post_raise :
  triple pre m mid post_raise ->
  (forall a, triple (mid a) (k a) post_return post_raise) ->
  triple pre (bind m k) post_return post_raise.
Proof.
  intros Hm Hk w Hw. unfold bind. specialize (Hm w Hw).
  destruct (m w) as [[a|e] w']; [now apply Hk|exact Hm].
Qed.

Lemma triple_weaken {A} pre pre' (m : M W A)
    (post_return post_return' : A -> W -> Prop) post_raise post_raise' :
  triple pre' m post_return' post_raise' ->
  (forall w, pre w -> pre' w) ->
  (forall a w, post_return' a w -> post_return a w) ->
  (forall e w, post_raise' e w -> post_raise e w) ->
  triple pre m post_return post_raise.
Proof.
  intros Hm Hpre Hret Hexn w Hw. specialize (Hm w (Hpre w Hw)).
  destruct (m w) as [[a|e] w']; auto.
Qed.

Lemma triple_try_except {A} pre (m : M W A) (h : exn -> M W A)
    (caught : exn -> W -> Prop) (post_return : A -> W -> Prop) post_raise :
  triple pre m post_return caught ->
  (forall e, triple (caught e) (h e) post_return post_raise) ->
  triple pre (try_except m h) post_return post_raise.
Proof.
  intros Hm Hh w Hw. unfold try_except. specialize (Hm w Hw).
  destruct (m w) as [[a|e] w']; [exact Hm|now apply Hh].
Qed.

End TripleRules.

(* ===================================================================== *)
(** * Facts: the status record (storage.py, update_job_status)            *)
(* ===================================================================== *)

Section DictFacts.

Implicit Types (d kwargs : list (string * value)) (k : string) (v : value).

Lemma dict_get_set d k v k' :
  dict_get (dict_set d k v) k' = if String.eqb k k' then Some v else dict_get d k'.
Proof.
  induction d as [|[k0 v0] rest IH]; simpl.
  - now destruct (String.eqb k k').
  - destruct (String.eqb_spec k0 k) as [->|Hne]; simpl.
    + now destruct (String.eqb k k').
    + rewrite IH. destruct (String.eqb_spec k0 k') as [->|Hne'];
        [|reflexivity].
      destruct (String.eqb_spec k k'); [congruence|reflexivity].
Qed.

Lemma has_key_set d k v k' :
  has_key (dict_set d k v) k' = String.eqb k k' || has_key d k'.
Proof. unfold has_key. rewrite dict_get_set. now destruct (String.eqb k k'). Qed.

Lemma has_key_update kwargs d k' :
  has_key (dict_update d kwargs) k'
  = has_key d k' || existsb (fun kv => String.eqb (fst kv) k') kwargs.
Proof.
  unfold dict_update. revert d.
  induction kwargs as [|[k v] rest IH]; intros d; simpl.
  - now rewrite orb_false_r.
  - rewrite IH, has_key_set.
    destruct (String.eqb k k'), (has_key d k'); reflexivity.
Qed.

Lemma has_key_updated_metadata d status now kwargs k' :
  has_key (Storage.updated_metadata d status now kwargs) k'
  = has_key d k' || String.eqb "status" k' || String.eqb "updated_at" k'
    || existsb (fun kv => String.eqb (fst kv) k') kwargs.
Proof.
  unfold Storage.updated_metadata. rewrite has_key_update, !has_key_set.
  destruct (has_key d k'), (String.eqb "status" k'), (String.eqb "updated_at" k');
    reflexivity.
Qed.

(** No assignment of [update_job_status] removes a key. *)
Lemma updated_metadata_keeps_keys d status now kwargs k' :
  has_key d k' = true ->
  has_key (Storage.updated_metadata d status now kwargs) k' = true.
Proof. intros H. now rewrite has_key_updated_metadata, H. Qed.

End DictFacts.

Section StatusRecordFacts.

Variable E : env.
Variable storage : Storage.StorageManager.

Abbreviation update_job_status := (Storage.update_job_status E storage).

Lemma mkdir_from_beyond (done : path) (todo : list string) (f f' : fs) (q : path) :
  mkdir_from done todo f = Return f' ->
  (length done + length todo < length q)%nat ->
  f' !! q = f !! q.
Proof.
  revert done f. induction todo as [|c rest IH]; intros done f; simpl.
  - now intros [= <-].
  - intros H Hlen.
    assert (Hgo : forall f1, mkdir_from (done ++ [c]) rest f1 = Return f' ->
                             f' !! q = f1 !! q).
    { intros f1 H1. apply (IH _ _ H1). rewrite length_app. simpl. lia. }
    destruct (f !! (done ++ [c])) as [[|content]|] eqn:Hp; [auto|discriminate|].
    rewrite (Hgo _ H). apply lookup_insert_ne.
    intros <-. rewrite length_app in Hlen. simpl in Hlen. lia.
Qed.

Lemma mkdir_parents_below (p : path) (f f' : fs) c :
  mkdir_parents p f = Return f' -> f' !! (p ++ [c]) = f !! (p ++ [c]).
Proof.
  intros H. apply (mkdir_from_beyond _ _ _ _ _ H).
  rewrite length_app. simpl. lia.
Qed.

Lemma parent_snoc (p : path) c : parent (p ++ [c]) = p.
Proof. unfold parent. apply removelast_last. Qed.

Lemma load_job_metadata_run job_id w :
  Storage.load_job_metadata storage job_id w
  = match mkdir_parents (Storage.job_dir_path storage job_id (Some "prompts")) (w_fs w) with
    | Raise e => (Raise e, w)
    | Return f1 =>
        let w1 := mkWorld f1 (w_trace w) in
        match f1 !! Api.record_path storage job_id with
        | None => (Return (VDict []), w1)
        | Some Dir => (Raise IsADirectoryError, w1)
        | Some (File (JsonDoc v)) => (Return v, w1)
        | Some (File _) => (Raise JSONDecodeError, w1)
        end
    end.
Proof.
  unfold Storage.load_job_metadata, bind. rewrite get_job_dir_run.
  destruct (mkdir_parents _ _) as [f1|e]; [|reflexivity].
  unfold path_exists, gets, exists_, read_file, Api.record_path. cbn [w_fs w_trace].
  set (P := join _ "metadata.json").
  destruct (f1 !! P) as [[|[o|o|v|l]]|] eqn:Hn; cbn [negb]; unfold ret, raise;
    cbn [w_fs]; rewrite ?Hn; reflexivity.
Qed.

Lemma save_job_metadata_run job_id metadata w :
  Storage.save_job_metadata storage job_id metadata w
  = match mkdir_parents (Storage.job_dir_path storage job_id (Some "prompts")) (w_fs w) with
    | Raise e => (Raise e, w)
    | Return f1 =>
        match f1 !! Api.record_path storage job_id with
        | Some Dir => (Raise IsADirectoryError, mkWorld f1 (w_trace w))
        | _ => (Return (Api.record_path storage job_id),
                mkWorld (<[Api.record_path storage job_id := File (JsonDoc (VDict metadata))]> f1)
                        (w_trace w))
        end
    end.
Proof.
  unfold Storage.save_job_metadata, bind. rewrite get_job_dir_run.
  destruct (mkdir_parents _ _) as [f1|e] eqn:Hm; [|reflexivity].
  unfold on_fs, write_file, ret, Api.record_path. cbn [w_fs w_trace].
  assert (Hd : is_dir f1 (parent (join (Storage.job_dir_path storage job_id (Some "prompts"))
                                       "metadata.json")) = true).
  { change (join ?d "metadata.json") with (d ++ ["metadata.json"]).
    rewrite parent_snoc. unfold is_dir.
    pose proof (mkdir_from_is_dir [] _ _ _ Hm) as Hd. rewrite app_nil_l in Hd.
    rewrite Hd; [reflexivity|]. now apply stage_dir_not_root. }
  rewrite Hd.
  destruct (f1 !! _) as [[|c]|]; reflexivity.
Qed.

Lemma update_tail_effect job_id status kwargs d f1 trace :
  f1 !! Api.record_path storage job_id = None /\ d = []
  \/ f1 !! Api.record_path storage job_id = Some (File (JsonDoc (VDict d))) ->
  match
    bind (log EvClock)
      (fun _ => bind (ask (datetime_now_isoformat E))
         (fun now => bind (Storage.save_job_metadata storage job_id
                             (Storage.updated_metadata d status now kwargs))
                          (fun _ => ret tt)))
      (mkWorld f1 trace)
  with
  | (Return _, w') =>
      exists now,
        w_fs w' !! Api.record_path storage job_id
        = Some (File (JsonDoc (VDict (Storage.updated_metadata d status now kwargs))))
  | (Raise _, w') =>
      w_fs w' !! Api.record_path storage job_id = f1 !! Api.record_path storage job_id
  end.
Proof.
  intros Hd. unfold bind, log, modify, ask, gets. cbn [w_fs w_trace].
  rewrite save_job_metadata_run. cbn [w_fs w_trace].
  set (dir := Storage.job_dir_path storage job_id (Some "prompts")).
  set (P := Api.record_path storage job_id) in *.
  destruct (mkdir_parents dir f1) as [f2|e] eqn:Hm2; [|reflexivity].
  assert (H2 : f2 !! P = f1 !! P) by apply (mkdir_parents_below _ _ _ _ Hm2).
  rewrite H2.
  destruct Hd as [[Hn ->]|Hn]; rewrite Hn; unfold ret; cbn [w_fs];
    rewrite lookup_insert_eq; eexists; reflexivity.
Qed.

(** What [update_job_status] does to the record file: nothing when it
    raises; otherwise the file holds the old record, or [{}] when there was
    no file, with the three assignments applied. *)
Lemma update_job_status_effect job_id status kwargs w :
  match update_job_status job_id status kwargs w with
  | (Raise _, w') =>
      w_fs w' !! Api.record_path storage job_id = w_fs w !! Api.record_path storage job_id
  | (Return _, w') =>
      exists d now,
        (w_fs w !! Api.record_path storage job_id = None /\ d = []
         \/ w_fs w !! Api.record_path storage job_id = Some (File (JsonDoc (VDict d))))
        /\ w_fs w' !! Api.record_path storage job_id
           = Some (File (JsonDoc (VDict (Storage.updated_metadata d status now kwargs))))
  end.
Proof.
  unfold Storage.update_job_status.
  unfold bind at 1. rewrite load_job_metadata_run.
  set (dir := Storage.job_dir_path storage job_id (Some "prompts")).
  set (P := Api.record_path storage job_id).
  destruct (mkdir_parents dir (w_fs w)) as [f1|e] eqn:Hm1; [|reflexivity].
  assert (H1 : f1 !! P = w_fs w !! P) by apply (mkdir_parents_below _ _ _ _ Hm1).
  cbv zeta. rewrite <- H1.
  destruct (f1 !! P) as [[|[o|o|v|l]]|] eqn:Hnode; try exact Hnode.
  - destruct v as [| | | | | |d]; try exact Hnode.
    pose proof (update_tail_effect job_id status kwargs d f1 (w_trace w)
                  (or_intror Hnode)) as Ht.
    fold P in Ht.
    destruct (bind _ _ _) as [[u|e] w'].
    + destruct Ht as [now Ht]. exists d, now. split; [now right|exact Ht].
    + now rewrite Ht.
  - pose proof (update_tail_effect job_id status kwargs [] f1 (w_trace w)
                  (or_introl (conj Hnode eq_refl))) as Ht.
    fold P in Ht.
    destruct (bind _ _ _) as [[u|e] w'].
    + destruct Ht as [now Ht]. exists [], now. split; [now left|exact Ht].
    + now rewrite Ht.
Qed.

End StatusRecordFacts.

(* ===================================================================== *)
(** * Facts: result and error in the status record (api/main.py)          *)
(* ===================================================================== *)

Section PipelineFacts.

Variable E : env.
Variable storage : Storage.StorageManager.
Variable str_exn : exn -> string.
Variable job_id : string.

Abbreviation lacks := (fun key => Api.lacks storage key job_id).
Abbreviation update := (Api.update E storage job_id).

Abbreviation clean := (Api.clean storage job_id).

Lemma lacks_unchanged key w w' :
  w_fs w' !! Api.record_path storage job_id = w_fs w !! Api.record_path storage job_id ->
  lacks key w -> lacks key w'.
Proof.
  intros Hsame H d. unfold Api.persisted_record. rewrite Hsame. apply H.
Qed.

(** A failed update leaves the record as it was. *)
Lemma update_raise_keeps key status kwargs :
  triple (lacks key) (update status kwargs) (fun _ _ => True) (fun _ => lacks key).
Proof.
  intros w Hw. unfold Api.update.
  pose proof (update_job_status_effect E storage job_id status kwargs w) as He.
  destruct (Storage.update_job_status _ _ _ _ _ _) as [[u|e] w']; [exact I|].
  now apply (lacks_unchanged key w).
Qed.

(** An update that does not pass [key] does not add it. *)
Lemma update_keeps_lacking key status kwargs :
  String.eqb "status" key = false -> String.eqb "updated_at" key = false ->
  existsb (fun kv => String.eqb (fst kv) key) kwargs = false ->
  triple (lacks key) (update status kwargs) (fun _ => lacks key) (fun _ => lacks key).
Proof.
  intros Hs Hu Hk w Hw. unfold Api.update.
  pose proof (update_job_status_effect E storage job_id status kwargs w) as He.
  destruct (Storage.update_job_status _ _ _ _ _ _) as [[u|e] w'];
    [|now apply (lacks_unchanged key w)].
  destruct He as (d & now & Hbefore & Hafter).
  intros d'. unfold Api.persisted_record. rewrite Hafter. intros [= <-].
  rewrite has_key_updated_metadata, Hs, Hu, Hk, !orb_false_r.
  destruct Hbefore as [[_ ->]|Hb]; [reflexivity|].
  apply Hw. unfold Api.persisted_record. now rewrite Hb.
Qed.

Lemma update_keeps_clean status kwargs :
  existsb (fun kv => String.eqb (fst kv) "result") kwargs = false ->
  existsb (fun kv => String.eqb (fst kv) "error") kwargs = false ->
  triple clean (update status kwargs) (fun _ => clean) (fun _ => clean).
Proof.
  intros Hr He w [Hw1 Hw2].
  pose proof (update_keeps_lacking "result" status kwargs eq_refl eq_refl Hr w Hw1) as H1.
  pose proof (update_keeps_lacking "error" status kwargs eq_refl eq_refl He w Hw2) as H2.
  destruct (update status kwargs w) as [[u|e] w']; now split.
Qed.

Lemma fail_with_keeps_clean o :
  triple clean (Api.fail_with o) (fun _ => clean) (fun _ => clean).
Proof. destruct o; [now apply triple_raise|now apply triple_ret]. Qed.

Lemma prompts_stage_keeps_clean r :
  triple clean (Api.prompts_stage E storage job_id r) (fun _ => clean) (fun _ => clean).
Proof.
  unfold Api.prompts_stage.
  destruct (Api.prompts_outcome r) as [[[[title num_shots] total_duration] text]|e];
    [|now apply triple_raise].
  now apply update_keeps_clean.
Qed.

Lemma videos_progress_keeps_clean total todo :
  forall idx, triple clean (Api.videos_progress E storage job_id total idx todo)
                (fun _ => clean) (fun _ => clean).
Proof.
  induction todo as [|todo IH]; intros idx; simpl; [now apply triple_ret|].
  eapply triple_bind; [now apply update_keeps_clean|]. intros ?. apply IH.
Qed.

Lemma videos_stage_keeps_clean r :
  triple clean (Api.videos_stage E storage job_id r) (fun _ => clean) (fun _ => clean).
Proof.
  unfold Api.videos_stage. destruct (Api.videos_outcome r) as [[k e]|].
  - eapply triple_bind; [apply videos_progress_keeps_clean|].
    intros ?. now apply triple_raise.
  - apply videos_progress_keeps_clean.
Qed.

Lemma merge_stage_keeps_clean r :
  triple clean (Api.merge_stage E storage job_id r) (fun _ => clean) (fun _ => clean).
Proof.
  unfold Api.merge_stage.
  destruct (Api.merge_outcome r) as [[already_there output_path]|e];
    [|now apply triple_raise].
  eapply triple_bind with (mid := fun _ => clean);
    [|intros ?; now apply triple_ret].
  destruct already_there; [now apply triple_ret|now apply update_keeps_clean].
Qed.

(** Making the [prompts] directory does not touch the record in it. *)
Lemma get_job_dir_keeps_clean :
  triple clean (Storage.get_job_dir storage job_id (Some "prompts"))
    (fun _ => clean) (fun _ => clean).
Proof.
  intros w [H1 H2]. rewrite get_job_dir_run.
  destruct (mkdir_parents _ _) as [f1|e] eqn:Hm; [|now split].
  assert (Hsame : f1 !! Api.record_path storage job_id
                  = w_fs w !! Api.record_path storage job_id)
    by apply (mkdir_parents_below _ _ _ _ Hm).
  split; now apply (lacks_unchanged _ w).
Qed.

(** The body of the [try]: it ends without [error], and raises from a
    record with neither key. *)
Lemma pipeline_body r :
  triple clean
    (bind (Storage.get_job_dir storage job_id (Some "prompts"))
       (fun _ => bind
          (if Api.prompts_files_found r then ret tt
           else bind (update "processing" [("message", VStr "Generating prompts")])
                  (fun _ => Api.prompts_stage E storage job_id r))
       (fun _ => bind (update "processing" [("message", VStr "Generating videos")])
       (fun _ => bind (Api.videos_stage E storage job_id r)
       (fun _ => bind (update "processing" [("message", VStr "Concatenating videos")])
       (fun _ => bind (Api.fail_with (Api.combine_outcome r))
       (fun _ => bind (update "processing" [("message", VStr "Generating voiceover")])
       (fun _ => bind (Api.fail_with (Api.voiceover_outcome r))
       (fun _ => bind (update "processing" [("message", VStr "Merging final video")])
       (fun _ => bind (Api.merge_stage E storage job_id r)
       (fun final_result => update "completed" [("result", final_result)])))))))))))
    (fun _ => lacks "error") (fun _ => clean).
Proof.
  eapply triple_bind; [apply get_job_dir_keeps_clean|].
  intros ?. eapply triple_bind with (mid := fun _ => clean).
  { destruct (Api.prompts_files_found r); [now apply triple_ret|].
    eapply triple_bind; [now apply update_keeps_clean|].
    intros ?. apply prompts_stage_keeps_clean. }
  intros ?. eapply triple_bind; [now apply update_keeps_clean|].
  intros ?. eapply triple_bind; [apply videos_stage_keeps_clean|].
  intros ?. eapply triple_bind; [now apply update_keeps_clean|].
  intros ?. eapply triple_bind; [apply fail_with_keeps_clean|].
  intros ?. eapply triple_bind; [now apply update_keeps_clean|].
  intros ?. eapply triple_bind; [apply fail_with_keeps_clean|].
  intros ?. eapply triple_bind; [now apply update_keeps_clean|].
  intros ?. eapply triple_bind; [apply merge_stage_keeps_clean|].
  intros final_result w [Hw1 Hw2].
  pose proof (update_raise_keeps "result" "completed" [("result", final_result)] w Hw1) as H1.
  pose proof (update_keeps_lacking "error" "completed" [("result", final_result)]
                eq_refl eq_refl eq_refl w Hw2) as H2.
  destruct (update "completed" _ w) as [[u|e] w']; [exact H2|now split].
Qed.

(** C6, as amended.  [update_job_status] adds or overwrites keys of the
    persisted record and removes none.  One run of the pipeline on a record
    that has neither [result] nor [error] leaves a record that does not have
    both. *)
Theorem pipeline_result_error_exclusive (r : Api.run) (w : world) :
  Api.lacks storage "result" job_id w ->
  Api.lacks storage "error" job_id w ->
  (forall d,
     Api.persisted_record storage job_id
       (snd (Api.full_pipeline_task E storage str_exn job_id r w)) = Some (VDict d) ->
     ~ (has_key d "result" = true /\ has_key d "error" = true))
  /\ (forall d status now kwargs key,
        has_key d key = true ->
        has_key (Storage.updated_metadata d status now kwargs) key = true).
Proof.
  intros Hr He. split; [|intros; now apply updated_metadata_keeps_keys].
  assert (Hrun : triple clean (Api.full_pipeline_task E storage str_exn job_id r)
                   (fun _ w' => lacks "error" w' \/ lacks "result" w')
                   (fun _ w' => lacks "error" w' \/ lacks "result" w')).
  { unfold Api.full_pipeline_task.
    eapply triple_try_except with (caught := fun _ => clean).
    - eapply triple_weaken; [apply pipeline_body|auto..].
    - intros e w0 [Hw1 Hw2].
      pose proof (update_keeps_lacking "result" "failed" [("error", VStr (str_exn e))]
                    eq_refl eq_refl eq_refl w0 Hw1) as H1.
      destruct (update "failed" _ w0) as [[u|e'] w']; now right. }
  specialize (Hrun w (conj Hr He)).
  destruct (Api.full_pipeline_task _ _ _ _ _ _) as [[u|e] w']; cbn [snd];
    intros d Hd [H1 H2]; destruct Hrun as [H|H];
    specialize (H d Hd); congruence.
Qed.

End PipelineFacts.

(** C6: the witness, a first run on an empty disk in which every stage
    succeeds. *)
Lemma pipeline_result_error_exclusive_witness :
  exists d,
    Api.persisted_record Fixtures.store "Test-50"
      (snd (Api.full_pipeline_task Fixtures.all_fine Fixtures.store Fixtures.str_exn
              "Test-50" Fixtures.successful_retry Fixtures.fresh_world))
    = Some (VDict d)
    /\ has_key d "result" = true
    /\ ~ (has_key d "result" = true /\ has_key d "error" = true).
Proof.
  eexists. split; [vm_compute; reflexivity|]. split; [reflexivity|].
  refine (proj1 (pipeline_result_error_exclusive Fixtures.all_fine Fixtures.store
                   Fixtures.str_exn "Test-50" Fixtures.successful_retry
                   Fixtures.fresh_world _ _) _ _);
    [intros d; vm_compute; discriminate
    |intros d; vm_compute; discriminate
    |vm_compute; reflexivity].
Defined.

(** C6 as stated fails across a retry: the failed run writes [error], the
    resubmission and the successful run never remove it, and the final
    update adds [result]. *)
Lemma retry_after_failure_counterexample :
  Api.persisted_record Fixtures.store "Test-50" Fixtures.after_failed_run
  = Some (VDict [("status", VStr "failed");
                 ("updated_at", VStr "2026-01-11T14:30:22");
                 ("message", VStr "Generating videos");
                 ("title", VStr "Test-50"); ("num_shots", VInt 2);
                 ("total_duration", VInt 20);
                 ("voice_reader_text", VStr "narration");
                 ("error", VStr "Task failed")])
  /\ exists d,
       Api.persisted_record Fixtures.store "Test-50" Fixtures.after_retry = Some (VDict d)
       /\ dict_get d "status" = Some (VStr "completed")
       /\ has_key d "result" = true
       /\ dict_get d "error" = Some (VStr "Task failed").
Proof.
  split; [vm_compute; reflexivity|].
  eexists. split; [vm_compute; reflexivity|]. repeat split.
Qed.

(* ===================================================================== *)
(** * Facts: polling, the witness                                         *)
(* ===================================================================== *)


(* ===================================================================== *)
(** * Facts: concatenation and mux (merge_service.py)                     *)
(* ===================================================================== *)

Section MergeFacts.

Variable E : env.

(** One tool run, spelled out. *)
Lemma subprocess_run_run cmd w :
  subprocess_run E cmd w
  = let trace := EvFfmpeg cmd :: w_trace w in
    let can_write := is_dir (w_fs w) (parent (output_of cmd))
                     && negb (is_dir (w_fs w) (output_of cmd)) in
    match ffmpeg_run E trace with
    | FfDone wrote =>
        if can_write
        then (Return tt,
              mkWorld (if wrote
                       then <[output_of cmd := File (Whole (FromFfmpeg cmd))]> (w_fs w)
                       else w_fs w) trace)
        else (Raise CalledProcessError, mkWorld (w_fs w) trace)
    | FfFailed left_partial =>
        (Raise CalledProcessError,
         mkWorld (if can_write && left_partial
                  then <[output_of cmd := File (Partial (FromFfmpeg cmd))]> (w_fs w)
                  else w_fs w) trace)
    end.
Proof.
  unfold subprocess_run, bind, log, modify, ask, gets, ret, raise. cbn [w_fs w_trace].
  destruct (ffmpeg_run E _) as [[|]|[|]];
    destruct (is_dir (w_fs w) (parent (output_of cmd))),
             (is_dir (w_fs w) (output_of cmd)); reflexivity.
Qed.

(** C7, as amended.  [merge_audio_video] and [concatenate_videos] give the
    tool the output path they were called with, and no other; there is no
    temporary output and no renaming.  Where that path can be written, a
    run that exits with status 0 leaves the whole output there and the
    function returns the path; a run that fails after it began to write
    leaves the unfinished output at that very path and the function raises;
    and [combine_videos] returns a canonical path that exists as the
    finished result without running the tool. *)
Theorem media_outputs_written_in_place (storage : Storage.StorageManager)
    (concat_file : path) :
  (forall video audio out w,
     is_dir (w_fs w) (parent out) = true -> is_dir (w_fs w) out = false ->
     let cmd := MuxAudio video audio out in
     let run := MergeService.merge_audio_video E video audio out w in
     w_trace (snd run) = EvFfmpeg cmd :: w_trace w
     /\ (ffmpeg_run E (EvFfmpeg cmd :: w_trace w) = FfDone true ->
         fst run = Return out
         /\ w_fs (snd run) !! out = Some (File (Whole (FromFfmpeg cmd))))
     /\ (ffmpeg_run E (EvFfmpeg cmd :: w_trace w) = FfFailed true ->
         fst run = Raise CalledProcessError
         /\ w_fs (snd run) !! out = Some (File (Partial (FromFfmpeg cmd)))))
  /\ (forall inputs out w,
        is_dir (w_fs w) (parent concat_file) = true ->
        is_dir (w_fs w) concat_file = false ->
        is_dir (w_fs w) (parent out) = true -> is_dir (w_fs w) out = false ->
        concat_file <> out -> concat_file <> parent out ->
        let cmd := ConcatCopy concat_file out in
        let run := MergeService.concatenate_videos E concat_file inputs out w in
        w_trace (snd run) = EvFfmpeg cmd :: w_trace w
        /\ (ffmpeg_run E (EvFfmpeg cmd :: w_trace w) = FfDone true ->
            fst run = Return out
            /\ w_fs (snd run) !! out = Some (File (Whole (FromFfmpeg cmd))))
        /\ (ffmpeg_run E (EvFfmpeg cmd :: w_trace w) = FfFailed true ->
            fst run = Raise CalledProcessError
            /\ w_fs (snd run) !! out = Some (File (Partial (FromFfmpeg cmd)))))
  /\ (forall job_id w f1,
        mkdir_parents (Storage.job_dir_path storage job_id (Some "videos")) (w_fs w)
        = Return f1 ->
        exists_ f1 (join (Storage.job_dir_path storage job_id (Some "videos"))
                      "concatenated.mp4") = true ->
        MergeService.combine_videos E storage concat_file job_id w
        = (Return (join (Storage.job_dir_path storage job_id (Some "videos"))
                     "concatenated.mp4"),
           mkWorld f1 (w_trace w))).
Proof.
  split; [|split].
  - intros video audio out w Hp Ho cmd run. subst run.
    unfold MergeService.merge_audio_video, bind. rewrite subprocess_run_run.
    fold cmd. cbn [output_of cmd]. cbv zeta. rewrite Hp, Ho. cbn [andb negb].
    destruct (ffmpeg_run E _) as [[|]|[|]]; cbn [fst snd w_trace w_fs ret];
      (split; [reflexivity|]); split; intros [=]; split;
      try reflexivity; apply lookup_insert_eq.
  - intros inputs out w Hcp Hc Hp Ho Hne Hnp cmd run. subst run.
    unfold MergeService.concatenate_videos, bind, try_finally, on_fs, write_file.
    assert (Hcf : w_fs w !! concat_file <> Some Dir).
    { unfold is_dir in Hc. destruct (w_fs w !! concat_file) as [[|c]|]; congruence. }
    destruct (w_fs w !! concat_file) as [[|c]|] eqn:Hnode; [congruence| |];
      rewrite Hcp; cbn [w_fs w_trace]; rewrite subprocess_run_run;
      fold cmd; cbn [output_of cmd w_fs w_trace]; cbv zeta;
      (assert (Hp' : is_dir (<[concat_file := File (ConcatList inputs)]> (w_fs w))
                       (parent out) = true)
         by (unfold is_dir in *; now rewrite lookup_insert_ne));
      (assert (Ho' : is_dir (<[concat_file := File (ConcatList inputs)]> (w_fs w)) out
                     = false)
         by (unfold is_dir in *; now rewrite lookup_insert_ne));
      rewrite Hp', Ho'; cbn [andb negb];
      destruct (ffmpeg_run E _) as [[|]|[|]];
      unfold path_exists, gets, exists_, remove, modify, ret;
      cbn [fst snd w_trace w_fs];
      repeat match goal with
             | |- context [match ?m !! concat_file with _ => _ end] =>
                 destruct (m !! concat_file)
             end;
      cbn [fst snd w_trace w_fs];
      (split; [reflexivity|]); split; intros [=]; split; try reflexivity;
      rewrite ?lookup_delete_ne by congruence; apply lookup_insert_eq.
  - intros job_id w f1 Hm Hex.
    unfold MergeService.combine_videos, Storage.get_concat_video_path, bind.
    rewrite get_job_dir_run, Hm. unfold ret, path_exists, gets. cbn [w_fs].
    now rewrite Hex.
Qed.

End MergeFacts.

(** C7 as stated fails: the concatenation of "Test-50" with a tool that
    breaks off leaves its unfinished output at [videos/concatenated.mp4],
    and the next call returns that path as the finished result without
    running the tool; likewise for [final/final.mp4]. *)
Lemma partial_output_at_canonical_path_counterexample :
  fst Fixtures.broken_concat_run = Raise CalledProcessError
  /\ w_fs (snd Fixtures.broken_concat_run) !! Fixtures.concatenated_mp4
     = Some (File (Partial (FromFfmpeg
                              (ConcatCopy Fixtures.concat_file Fixtures.concatenated_mp4))))
  /\ fst Fixtures.concat_retry = Return Fixtures.concatenated_mp4
  /\ w_trace (snd Fixtures.concat_retry) = w_trace (snd Fixtures.broken_concat_run)
  /\ w_fs (snd Fixtures.concat_retry) !! Fixtures.concatenated_mp4
     = Some (File (Partial (FromFfmpeg
                              (ConcatCopy Fixtures.concat_file Fixtures.concatenated_mp4))))
  /\ fst Fixtures.broken_mux_run = Raise CalledProcessError
  /\ w_fs (snd Fixtures.broken_mux_run) !! Fixtures.final_mp4
     = Some (File (Partial (FromFfmpeg
                              (MuxAudio Fixtures.concatenated_mp4 Fixtures.voiceover_mp3
                                 Fixtures.final_mp4))))
  /\ fst Fixtures.mux_retry
     = Return (MergeService.mkMergeResponse "Test-50" Fixtures.final_mp4 "completed").
Proof. vm_compute. repeat split. Qed.

(* ===================================================================== *)
(** * Facts: the skip test of the video stage (video_service.py)          *)
(* ===================================================================== *)

Section SkipFacts.

Variable isalnum : ascii -> bool.

(** The skip test looks in the job's root directory, [save_video] writes
    into its [videos] directory: never the same path. *)
Lemma skip_path_is_not_saved_path (storage : Storage.StorageManager)
    (job_id : string) (shot_number : Z) (subject : string) :
  join (Storage.job_dir_path storage job_id None)
       (Storage.video_filename isalnum shot_number subject)
  <> join (Storage.job_dir_path storage job_id (Some "videos"))
          (Storage.video_filename isalnum shot_number subject).
Proof.
  change (Storage.job_dir_path storage job_id (Some "videos"))
    with (Storage.job_dir_path storage job_id None ++ ["videos"]).
  intros H. apply (f_equal (@List.length string)) in H. revert H.
  unfold join.
  destruct (String.eqb (Storage.video_filename isalnum shot_number subject) "");
    rewrite ?length_app; simpl; lia.
Qed.

End SkipFacts.

(** C1, on the code: with a provider and tools that always succeed, the
    video stage of "Test-50" on an empty disk produces both clips, at the
    paths [save_video] returns, with two submissions; run again at once, it
    finds neither clip where it looks and submits both shots again. *)
Lemma rerun_contacts_provider_again :
  fst Fixtures.first_video_run
  = Return [VideoService.mkResponse "Test-50" 1
              ["srv"; "jobs"; "Test-50"; "videos"; "01_Opening.mp4"] "completed";
            VideoService.mkResponse "Test-50" 2
              ["srv"; "jobs"; "Test-50"; "videos"; "02_Closing.mp4"] "completed"]
  /\ exists_ (w_fs (snd Fixtures.first_video_run))
       ["srv"; "jobs"; "Test-50"; "videos"; "01_Opening.mp4"] = true
  /\ exists_ (w_fs (snd Fixtures.first_video_run))
       ["srv"; "jobs"; "Test-50"; "videos"; "02_Closing.mp4"] = true
  /\ VideoService.provider_contacts (w_trace (snd Fixtures.first_video_run)) = 2%nat
  /\ fst Fixtures.second_video_run = fst Fixtures.first_video_run
  /\ VideoService.provider_contacts (w_trace (snd Fixtures.second_video_run)) = 4%nat.
Proof. vm_compute. repeat split. Qed.

(* ===================================================================== *)
(** * Facts: code that submits no task                                    *)
(* ===================================================================== *)

Section QuietFacts.

Lemma quiet_ret {A} (a : A) : quiet (ret a).
Proof. intros w. now exists []. Qed.

Lemma quiet_raise {A} e : quiet (@raise world A e).
Proof. intros w. now exists []. Qed.

Lemma quiet_lift {A} (r : result A) : quiet (lift r).
Proof. intros w. now exists []. Qed.

Lemma quiet_gets {A} (f : world -> A) : quiet (gets f).
Proof. intros w. now exists []. Qed.

Lemma quiet_ask {A} (oracle : list event -> A) : quiet (ask oracle).
Proof. apply quiet_gets. Qed.

Lemma quiet_on_fs op : quiet (on_fs op).
Proof. intros w. exists []. unfold on_fs. now destruct (op (w_fs w)). Qed.

Lemma quiet_log e : is_create_task e = false -> quiet (log e).
Proof. intros H w. exists [e]. split; [reflexivity|]. now constructor. Qed.

Lemma quiet_bind {A B} (m : M world A) (k : A -> M world B) :
  quiet m -> (forall a, quiet (k a)) -> quiet (bind m k).
Proof.
  intros Hm Hk w. unfold bind. destruct (Hm w) as (a1 & H1 & F1).
  destruct (m w) as [[a|e] w1]; cbn [snd] in *; [|now exists a1].
  destruct (Hk a w1) as (a2 & H2 & F2).
  exists (a2 ++ a1). split; [now rewrite H2, H1, app_assoc|].
  now apply Forall_app.
Qed.

Lemma quiet_try_except {A} (m : M world A) h :
  quiet m -> (forall e, quiet (h e)) -> quiet (try_except m h).
Proof.
  intros Hm Hh w. unfold try_except. destruct (Hm w) as (a1 & H1 & F1).
  destruct (m w) as [[a|e] w1]; cbn [snd] in *; [now exists a1|].
  destruct (Hh e w1) as (a2 & H2 & F2).
  exists (a2 ++ a1). split; [now rewrite H2, H1, app_assoc|].
  now apply Forall_app.
Qed.

Lemma quiet_if {A} (b : bool) (m1 m2 : M world A) :
  quiet m1 -> quiet m2 -> quiet (if b then m1 else m2).
Proof. now destruct b. Qed.

Lemma quiet_path_exists p : quiet (path_exists p).
Proof. apply quiet_gets. Qed.

Lemma quiet_remove p : quiet (remove p).
Proof. intros w. now exists []. Qed.

Lemma quiet_copy2 src dst : quiet (copy2 src dst).
Proof.
  intros w. unfold copy2. destruct (read_file src (w_fs w)); [|now exists []].
  apply quiet_on_fs.
Qed.

Lemma quiet_subprocess_run E cmd : quiet (subprocess_run E cmd).
Proof.
  intros w. rewrite subprocess_run_run. exists [EvFfmpeg cmd]. cbv zeta.
  split; [|now constructor].
  destruct (ffmpeg_run E _) as [wrote|lp]; [|reflexivity].
  now destruct (_ && _).
Qed.

Lemma quiet_get_job_dir storage job_id stage :
  quiet (Storage.get_job_dir storage job_id stage).
Proof. apply quiet_bind; [apply quiet_on_fs|intros ?; apply quiet_ret]. Qed.

Lemma quiet_save_video isalnum storage video_path job_id shot_number subject :
  quiet (Storage.save_video isalnum storage video_path job_id shot_number subject).
Proof.
  apply quiet_bind; [apply quiet_get_job_dir|intros job_dir].
  apply quiet_bind; [|intros ?; apply quiet_ret].
  apply quiet_if; [apply quiet_ret|apply quiet_copy2].
Qed.

Lemma quiet_update_job_status E storage job_id status kwargs :
  quiet (Storage.update_job_status E storage job_id status kwargs).
Proof.
  apply quiet_bind.
  - apply quiet_bind; [apply quiet_get_job_dir|intros job_dir].
    apply quiet_bind; [apply quiet_path_exists|intros present].
    apply quiet_if; [apply quiet_ret|].
    apply quiet_bind; [intros w; now exists []|intros c].
    destruct c; first [apply quiet_ret|apply quiet_raise].
  - intros metadata. destruct metadata; try apply quiet_raise.
    apply quiet_bind; [now apply quiet_log|intros ?].
    apply quiet_bind; [apply quiet_ask|intros now].
    apply quiet_bind; [|intros ?; apply quiet_ret].
    apply quiet_bind; [apply quiet_get_job_dir|intros job_dir].
    apply quiet_bind; [apply quiet_on_fs|intros ?; apply quiet_ret].
Qed.

Lemma quiet_extract_last_frame E storage video_path job_id shot_number :
  quiet (FrameExtractorService.extract_last_frame E storage video_path job_id shot_number).
Proof.
  apply quiet_bind; [apply quiet_path_exists|intros present].
  apply quiet_if; [apply quiet_raise|].
  apply quiet_bind.
  { apply quiet_bind; [apply quiet_get_job_dir|intros ?; apply quiet_ret]. }
  intros frame_path_jpg.
  apply quiet_bind; [apply quiet_on_fs|intros ?].
  apply quiet_bind.
  { apply quiet_try_except; [apply quiet_subprocess_run|].
    intros e. destruct e; apply quiet_raise. }
  intros ?. apply quiet_bind; [apply quiet_path_exists|intros created].
  apply quiet_if; [apply quiet_raise|apply quiet_ret].
Qed.

Lemma quiet_collect isalnum E self task_id job_id shot_number subject :
  quiet (VideoService.collect isalnum E self task_id job_id shot_number subject).
Proof.
  apply quiet_bind.
  { apply quiet_bind; [now apply quiet_log|intros ?].
    apply quiet_bind; [apply quiet_ask|intros r; apply quiet_lift]. }
  intros detail. apply quiet_bind; [apply quiet_lift|intros video_url].
  apply quiet_bind.
  { apply quiet_bind; [apply quiet_on_fs|intros ?].
    apply quiet_bind; [now apply quiet_log|intros ?].
    apply quiet_bind; [apply quiet_ask|intros r].
    destruct r as [|e left_partial]; [apply quiet_on_fs|].
    apply quiet_bind; [|intros ?; apply quiet_raise].
    apply quiet_if; [apply quiet_on_fs|apply quiet_ret]. }
  intros ?. apply quiet_bind; [apply quiet_save_video|intros final_path].
  apply quiet_bind; [apply quiet_path_exists|intros still_there].
  apply quiet_bind; [|intros ?; apply quiet_ret].
  apply quiet_if; [apply quiet_remove|apply quiet_ret].
Qed.

End QuietFacts.

(* ===================================================================== *)
(** * Facts: what the steps of the video stage return                     *)
(* ===================================================================== *)

Section ReturnFacts.

Lemma bind_returns {W A B} (m : M W A) (k : A -> M W B) w b w' :
  bind m k w = (Return b, w') ->
  exists a w1, m w = (Return a, w1) /\ k a w1 = (Return b, w').
Proof.
  unfold bind. destruct (m w) as [[a|e] w1]; [eauto|discriminate].
Qed.

Lemma on_fs_returns op w u w' :
  on_fs op w = (Return u, w') ->
  exists f', op (w_fs w) = Return f' /\ w' = mkWorld f' (w_trace w).
Proof.
  unfold on_fs. destruct (op (w_fs w)) as [f'|e]; [|discriminate].
  intros [= _ <-]. eauto.
Qed.

Lemma exists_mkdir_parents (p : path) (f f' : fs) (q : path) :
  mkdir_parents p f = Return f' -> exists_ f q = true -> exists_ f' q = true.
Proof.
  intros H. unfold exists_. destruct (f !! q) as [n|] eqn:Hq; [|discriminate].
  now rewrite (mkdir_from_preserves _ _ _ _ _ _ H Hq).
Qed.

Lemma exists_insert (f : fs) (p q : path) n :
  exists_ f q = true -> exists_ (<[p := n]> f) q = true.
Proof.
  unfold exists_. destruct (decide (p = q)) as [->|Hne].
  - now rewrite lookup_insert_eq.
  - now rewrite lookup_insert_ne.
Qed.

Lemma get_job_dir_returns storage job_id stage w a w' :
  Storage.get_job_dir storage job_id stage w = (Return a, w') ->
  a = Storage.job_dir_path storage job_id stage
  /\ w_trace w' = w_trace w
  /\ forall q, exists_ (w_fs w) q = true -> exists_ (w_fs w') q = true.
Proof.
  rewrite get_job_dir_run.
  destruct (mkdir_parents _ _) as [f'|e] eqn:Hm; [|discriminate].
  intros [= <- <-]. repeat split. intros q. apply (exists_mkdir_parents _ _ _ _ Hm).
Qed.

Lemma save_video_returns isalnum storage video_path job_id shot_number subject w p w' :
  Storage.save_video isalnum storage video_path job_id shot_number subject w
  = (Return p, w') ->
  p = join (Storage.job_dir_path storage job_id (Some "videos"))
        (Storage.video_filename isalnum shot_number subject).
Proof.
  intros H. apply bind_returns in H as (job_dir & w1 & Hd & H).
  apply get_job_dir_returns in Hd as (-> & _).
  apply bind_returns in H as (u & w2 & _ & H).
  now injection H as <- _.
Qed.

Lemma collect_returns isalnum E self task_id job_id shot_number subject w r w' :
  VideoService.collect isalnum E self task_id job_id shot_number subject w
  = (Return r, w') ->
  VideoService.video_path r
  = join (Storage.job_dir_path (VideoService.storage self) job_id (Some "videos"))
      (Storage.video_filename isalnum shot_number subject).
Proof.
  intros H. apply bind_returns in H as (detail & w1 & _ & H).
  apply bind_returns in H as (video_url & w2 & _ & H).
  apply bind_returns in H as (u & w3 & _ & H).
  apply bind_returns in H as (final_path & w4 & Hs & H).
  apply save_video_returns in Hs as ->.
  apply bind_returns in H as (still_there & w5 & _ & H).
  apply bind_returns in H as (u' & w6 & _ & H).
  now injection H as <- _.
Qed.

(** A frame that [extract_last_frame] returns was just written by the tool
    from the video it was given, and both files are on disk. *)
Lemma extract_last_frame_returns E storage video_path job_id shot_number w frame w' :
  FrameExtractorService.extract_last_frame E storage video_path job_id shot_number w
  = (Return frame, w') ->
  w_trace w' = EvFfmpeg (ExtractLastFrame video_path frame) :: w_trace w
  /\ exists_ (w_fs w') video_path = true
  /\ exists_ (w_fs w') frame = true.
Proof.
  intros H. apply bind_returns in H as (present & w1 & Hp & H).
  injection Hp as <- <-.
  destruct (exists_ (w_fs w) video_path) eqn:Hvideo; [|discriminate].
  cbn [negb] in H.
  apply bind_returns in H as (jpg & w2 & Hj & H).
  apply bind_returns in Hj as (frame_dir & w2' & Hd & Hj).
  apply get_job_dir_returns in Hd as (_ & Ht2 & He2).
  injection Hj as _ <-.
  apply bind_returns in H as (u & w3 & Hm & H).
  apply on_fs_returns in Hm as (f3 & Hm & ->).
  apply bind_returns in H as (u' & w4 & Hrun & H).
  apply bind_returns in H as (created & w5 & Hc & H).
  injection Hc as <- <-.
  destruct (exists_ (w_fs w4) _) eqn:Hframe; [|discriminate].
  injection H as <- <-.
  unfold try_except in Hrun. rewrite subprocess_run_run in Hrun.
  cbv zeta in Hrun. cbn [w_fs w_trace output_of] in Hrun.
  destruct (ffmpeg_run E _) as [wrote|lp]; [|discriminate].
  destruct (_ && _); [|discriminate].
  injection Hrun as Hw4. subst w4. cbn [w_fs w_trace] in *.
  split; [now rewrite Ht2|]. split; [|exact Hframe].
  assert (Hv3 : exists_ f3 video_path = true).
  { apply (exists_mkdir_parents _ _ _ _ Hm). now apply He2. }
  destruct wrote; [now apply exists_insert|exact Hv3].
Qed.

End ReturnFacts.

(* ===================================================================== *)
(** * Facts: what the skip test of the video stage does honour            *)
(* ===================================================================== *)

Section CachedFacts.

Lemma keeps_ret {A} (a : A) : keeps_files (ret a).
Proof. now intros w q. Qed.

Lemma keeps_raise {A} e : keeps_files (@raise world A e).
Proof. now intros w q. Qed.

Lemma keeps_gets {A} (f : world -> A) : keeps_files (gets f).
Proof. now intros w q. Qed.

Lemma keeps_log e : keeps_files (log e).
Proof. now intros w q. Qed.

Lemma keeps_bind {A B} (m : M world A) (k : A -> M world B) :
  keeps_files m -> (forall a, keeps_files (k a)) -> keeps_files (bind m k).
Proof.
  intros Hm Hk w q Hq. unfold bind. specialize (Hm w q Hq).
  destruct (m w) as [[a|e] w1]; cbn [snd] in *; [now apply Hk|exact Hm].
Qed.

Lemma keeps_get_job_dir storage job_id stage :
  keeps_files (Storage.get_job_dir storage job_id stage).
Proof.
  intros w q Hq. rewrite get_job_dir_run.
  destruct (mkdir_parents _ _) as [f'|e] eqn:Hm; [|exact Hq].
  exact (exists_mkdir_parents _ _ _ _ Hm Hq).
Qed.

Lemma keeps_write_file p c : keeps_files (on_fs (write_file p c)).
Proof.
  intros w q Hq. unfold on_fs, write_file.
  destruct (w_fs w !! p) as [[|c0]|]; [exact Hq| |];
    (destruct (is_dir _ _); [now apply exists_insert|exact Hq]).
Qed.

Lemma keeps_update_job_status E storage job_id status kwargs :
  keeps_files (Storage.update_job_status E storage job_id status kwargs).
Proof.
  apply keeps_bind.
  - apply keeps_bind; [apply keeps_get_job_dir|intros job_dir].
    apply keeps_bind; [apply keeps_gets|intros present].
    destruct present; [|apply keeps_ret].
    apply keeps_bind; [now intros w q|intros c].
    destruct c; first [apply keeps_ret|apply keeps_raise].
  - intros metadata. destruct metadata; try apply keeps_raise.
    apply keeps_bind; [apply keeps_log|intros ?].
    apply keeps_bind; [apply keeps_gets|intros now].
    apply keeps_bind; [|intros ?; apply keeps_ret].
    apply keeps_bind; [apply keeps_get_job_dir|intros job_dir].
    apply keeps_bind; [apply keeps_write_file|intros ?; apply keeps_ret].
Qed.

Lemma provider_contacts_quiet (added old : list event) :
  Forall (fun e => is_create_task e = false) added ->
  VideoService.provider_contacts (added ++ old) = VideoService.provider_contacts old.
Proof.
  unfold VideoService.provider_contacts. induction 1 as [|e added He _ IH]; [reflexivity|].
  cbn [app List.filter]. now rewrite He.
Qed.

(** The part of the retry logic that works: when every shot of the list has
    a file at the path the skip test looks at, the loop submits nothing. *)
Lemma existing_clips_are_not_resubmitted isalnum E (self : VideoService.VideoService)
    job_id shots :
  forall total idx results previous_video_path w,
    (forall shot, In shot shots ->
       exists_ (w_fs w)
         (join (Storage.job_dir_path (VideoService.storage self) job_id None)
            (Storage.video_filename isalnum (VideoService.shot_number shot)
               (VideoService.subject shot))) = true) ->
    VideoService.provider_contacts
      (w_trace (snd (VideoService.shots_loop isalnum E self job_id total idx shots
                       results previous_video_path w)))
    = VideoService.provider_contacts (w_trace w).
Proof.
  induction shots as [|shot rest IH]; intros total idx results prev w Hall; [reflexivity|].
  cbn [VideoService.shots_loop]. unfold bind at 1. rewrite get_job_dir_run.
  destruct (mkdir_parents _ _) as [f1|e] eqn:Hm; [|reflexivity].
  assert (Hkeep : forall q, exists_ (w_fs w) q = true -> exists_ f1 q = true).
  { intros q. exact (exists_mkdir_parents _ _ _ _ Hm). }
  unfold bind at 1. unfold path_exists at 1, gets at 1. cbn [w_fs].
  rewrite (Hkeep _ (Hall shot (or_introl eq_refl))).
  unfold bind at 1, ret at 1. unfold bind at 1.
  pose proof (quiet_update_job_status E (VideoService.storage self) job_id "processing"
                (VideoService.progress_kwargs idx total) (mkWorld f1 (w_trace w)))
    as (added & Ht & Hq).
  pose proof (keeps_update_job_status E (VideoService.storage self) job_id "processing"
                (VideoService.progress_kwargs idx total) (mkWorld f1 (w_trace w))) as Hk.
  destruct (Storage.update_job_status _ _ _ _ _ _) as [[u|e] w2]; cbn [snd w_fs w_trace] in *.
  - rewrite IH.
    + rewrite Ht. now apply provider_contacts_quiet.
    + intros s Hs. apply Hk, Hkeep, Hall. now right.
  - rewrite Ht. now apply provider_contacts_quiet.
Qed.

End CachedFacts.

(* ===================================================================== *)
(** * Facts: frame chaining (video_service.py)                            *)
(* ===================================================================== *)

Section ChainFacts.

Variable isalnum : ascii -> bool.
Variable E : env.
Variable self : VideoService.VideoService.
Variable job_id : string.
Variable shots : list VideoService.Shot.

Abbreviation chained := (VideoService.chained isalnum E self job_id shots).
Abbreviation all_chained := (VideoService.all_chained isalnum E self job_id shots).
Abbreviation chain_triple := (VideoService.chain_triple isalnum E self job_id shots).
Abbreviation loop_position := (VideoService.loop_position isalnum self job_id shots).
Abbreviation saved_path := (fun (shot_number : Z) (subject : string) =>
  join (Storage.job_dir_path (VideoService.storage self) job_id (Some "videos"))
    (Storage.video_filename isalnum shot_number subject)).

Lemma chained_other before e : is_create_task e = false -> chained before e.
Proof. destruct e; simpl; [discriminate|trivial..]. Qed.

Lemma all_chained_quiet old added :
  Forall (fun e => is_create_task e = false) added -> all_chained old added.
Proof.
  induction 1 as [|e earlier He _ IH]; simpl; [trivial|].
  split; [now apply chained_other|exact IH].
Qed.

Lemma all_chained_app old first_part later :
  all_chained old first_part -> all_chained (first_part ++ old) later ->
  all_chained old (later ++ first_part).
Proof.
  intros H1. induction later as [|e earlier IH]; simpl; [trivial|].
  intros [He Hrest]. split; [now rewrite <- app_assoc|now apply IH].
Qed.

Lemma ct_quiet {A} (pre : world -> Prop) (m : M world A) (post : A -> world -> Prop) :
  quiet m ->
  (forall w a w', pre w -> m w = (Return a, w') -> post a w') ->
  chain_triple pre m post.
Proof.
  intros Hq Hp w Hw. destruct (Hq w) as (added & Ht & Hf).
  exists added. split; [exact Ht|]. split; [now apply all_chained_quiet|].
  intros a Ha. apply (Hp w a (snd (m w)) Hw).
  destruct (m w) as [r w']. simpl in *. now subst.
Qed.

Lemma ct_ret {A} (pre : world -> Prop) (a : A) (post : A -> world -> Prop) :
  (forall w, pre w -> post a w) -> chain_triple pre (ret a) post.
Proof.
  intros H. apply ct_quiet; [apply quiet_ret|].
  intros w a' w' Hw [= <- <-]. now apply H.
Qed.

Lemma ct_bind {A B} (pre : world -> Prop) (m : M world A) (k : A -> M world B)
    (mid : A -> world -> Prop) (post : B -> world -> Prop) :
  chain_triple pre m mid ->
  (forall a, chain_triple (mid a) (k a) post) ->
  chain_triple pre (bind m k) post.
Proof.
  intros Hm Hk w Hw. destruct (Hm w Hw) as (a1 & H1 & C1 & P1).
  unfold bind. destruct (m w) as [[a|e] w1]; cbn [fst snd] in *.
  - destruct (Hk a w1 (P1 a eq_refl)) as (a2 & H2 & C2 & P2).
    exists (a2 ++ a1). split; [now rewrite H2, H1, app_assoc|].
    split; [|exact P2]. apply all_chained_app; [exact C1|now rewrite <- H1].
  - exists a1. split; [exact H1|]. split; [exact C1|]. intros a [=].
Qed.

Lemma ct_weaken {A} (pre pre' : world -> Prop) (m : M world A)
    (post post' : A -> world -> Prop) :
  chain_triple pre' m post' ->
  (forall w, pre w -> pre' w) ->
  (forall a w, post' a w -> post a w) ->
  chain_triple pre m post.
Proof.
  intros Hm Hpre Hpost w Hw. destruct (Hm w (Hpre w Hw)) as (added & H1 & C1 & P1).
  exists added. repeat split; auto.
Qed.

(** A fact that does not depend on the world can be taken out of the
    precondition. *)
Lemma ct_pure {A} (fact : Prop) (m : M world A) (post : A -> world -> Prop) :
  (fact -> chain_triple (fun _ => True) m post) ->
  chain_triple (fun _ => fact) m post.
Proof. intros H w Hw. now apply H. Qed.

Lemma kie_create_run n payload w :
  VideoService.kie_create E n payload w
  = (kie_create_task E (EvCreateTask n payload (w_fs w) :: w_trace w),
     mkWorld (w_fs w) (EvCreateTask n payload (w_fs w) :: w_trace w)).
Proof. reflexivity. Qed.

(** A submission that is chained when it goes out, followed by the quiet
    steps that collect its result. *)
Lemma ct_submit_and_collect (pre : world -> Prop) n payload subject :
  (forall w, pre w -> chained (w_trace w) (EvCreateTask n payload (w_fs w))) ->
  chain_triple pre
    (VideoService.submit_and_collect isalnum E self payload job_id n subject)
    (fun r _ => VideoService.video_path r = saved_path n subject).
Proof.
  intros Hc w Hw. specialize (Hc w Hw).
  unfold VideoService.submit_and_collect, bind. rewrite kie_create_run.
  set (e := EvCreateTask n payload (w_fs w)) in *.
  set (w1 := mkWorld (w_fs w) (e :: w_trace w)).
  destruct (kie_create_task E (e :: w_trace w)) as [task_id|err].
  - destruct (quiet_collect isalnum E self task_id job_id n subject w1)
      as (added & Ht & Hf).
    exists (added ++ [e]). split; [now rewrite Ht, <- app_assoc|].
    split.
    + apply all_chained_app; [simpl; now split|now apply all_chained_quiet].
    + intros r Hr. apply (collect_returns isalnum E self task_id job_id n subject w1 r
                            (snd (VideoService.collect isalnum E self task_id job_id n subject w1))).
      destruct (VideoService.collect _ _ _ _ _ _ _ _) as [r' w']. simpl in *. now subst.
  - exists [e]. split; [reflexivity|]. split; [simpl; now split|].
    intros r [=].
Qed.

Lemma ct_generate_video_from_text prompt duration subject :
  chain_triple (fun _ => True)
    (VideoService.generate_video_from_text isalnum E self job_id 1 prompt duration subject)
    (fun r _ => VideoService.video_path r = saved_path 1 subject).
Proof.
  apply ct_submit_and_collect. intros w _. left. split; [reflexivity|]. eauto.
Qed.

Lemma generate_video_from_image_run n prompt duration subject frame w :
  VideoService.generate_video_from_image isalnum E self job_id n prompt duration
    subject frame w
  = match uploader_upload_image E (EvUpload frame :: w_trace w) with
    | Return url =>
        VideoService.submit_and_collect isalnum E self
          (VideoService.image_payload self url prompt duration) job_id n subject
          (mkWorld (w_fs w) (EvUpload frame :: w_trace w))
    | Raise e => (Raise e, mkWorld (w_fs w) (EvUpload frame :: w_trace w))
    end.
Proof.
  unfold VideoService.generate_video_from_image, bind, log, modify, ask, gets, lift.
  cbn [w_fs w_trace]. now destruct (uploader_upload_image E _).
Qed.

Lemma ct_generate_video_from_image n prompt duration subject frame previous prev_video :
  1 < n -> In previous shots -> VideoService.shot_number previous = n - 1 ->
  In prev_video (VideoService.artifact_paths isalnum self job_id previous) ->
  chain_triple
    (fun w => (exists earlier,
                 w_trace w = EvFfmpeg (ExtractLastFrame prev_video frame) :: earlier)
              /\ exists_ (w_fs w) prev_video = true
              /\ exists_ (w_fs w) frame = true)
    (VideoService.generate_video_from_image isalnum E self job_id n prompt duration
       subject frame)
    (fun r _ => VideoService.video_path r = saved_path n subject).
Proof.
  intros Hn Hin Hnum Hpath w ((earlier & Htrace) & Hvideo & Hframe).
  rewrite generate_video_from_image_run.
  set (w1 := mkWorld (w_fs w) (EvUpload frame :: w_trace w)).
  destruct (uploader_upload_image E (EvUpload frame :: w_trace w)) as [url|err] eqn:Hup.
  - destruct (ct_submit_and_collect (fun w' => w' = w1) n
                (VideoService.image_payload self url prompt duration) subject)
      with (w := w1) as (added & Ht & Hch & Hpost); [|reflexivity|].
    { intros w' ->. right. split; [exact Hn|].
      exists previous, prev_video, frame, url, earlier, prompt, duration.
      cbn [w_trace w_fs w1]. rewrite Htrace in *. repeat split; auto. }
    exists (added ++ [EvUpload frame]).
    split; [now rewrite Ht, <- app_assoc|]. split; [|exact Hpost].
    apply all_chained_app; [simpl; now split|exact Hch].
  - exists [EvUpload frame]. split; [reflexivity|]. split; [simpl; now split|].
    intros r [=].
Qed.

Lemma ct_extract_last_frame video_path shot_number :
  chain_triple (fun _ => True)
    (FrameExtractorService.extract_last_frame E (VideoService.storage self)
       video_path job_id shot_number)
    (fun frame w' =>
       (exists earlier,
          w_trace w' = EvFfmpeg (ExtractLastFrame video_path frame) :: earlier)
       /\ exists_ (w_fs w') video_path = true
       /\ exists_ (w_fs w') frame = true).
Proof.
  apply ct_quiet; [apply quiet_extract_last_frame|].
  intros w frame w' _ H. apply extract_last_frame_returns in H as (Ht & Hv & Hf).
  eauto.
Qed.

Lemma shots_loop_chained rest :
  forall n total idx results previous_video_path,
    VideoService.numbered_from n rest ->
    (forall shot, In shot rest -> In shot shots) ->
    loop_position n previous_video_path ->
    chain_triple (fun _ => True)
      (VideoService.shots_loop isalnum E self job_id total idx rest results
         previous_video_path)
      (fun _ _ => True).
Proof.
  induction rest as [|shot rest IH];
    intros n total idx results previous_video_path Hnum Hsub Hpos; simpl.
  { now apply ct_ret. }
  destruct Hnum as [Hn Hnum].
  assert (Hshot : In shot shots) by (apply Hsub; now left).
  assert (Hge : 1 <= n) by (destruct previous_video_path; simpl in Hpos; lia).
  eapply ct_bind with
    (mid := fun job_dir _ =>
              job_dir = Storage.job_dir_path (VideoService.storage self) job_id None).
  { apply ct_quiet; [apply quiet_get_job_dir|].
    intros w a w' _ H. now apply get_job_dir_returns in H. }
  intros job_dir. apply ct_pure. intros ->.
  eapply ct_bind with (mid := fun _ _ => True).
  { apply ct_quiet; [apply quiet_path_exists|trivial]. }
  intros present.
  eapply ct_bind with
    (mid := fun r _ => In (VideoService.video_path r)
                         (VideoService.artifact_paths isalnum self job_id shot)).
  { destruct present.
    - apply ct_ret. intros w _. now left.
    - assert (Hsaved : forall r (w : world),
                VideoService.video_path r
                = saved_path (VideoService.shot_number shot) (VideoService.subject shot) ->
                In (VideoService.video_path r)
                   (VideoService.artifact_paths isalnum self job_id shot)).
      { intros r _ ->. right. now left. }
      destruct previous_video_path as [prev_video|]; simpl in Hpos.
      + destruct Hpos as (Hlt & previous & Hin & Hprev & Hpath).
        assert (Hb : (1 <? VideoService.shot_number shot) = true)
          by (apply Z.ltb_lt; lia).
        rewrite Hb.
        eapply ct_bind; [apply ct_extract_last_frame|].
        intros frame. eapply ct_weaken.
        * apply (ct_generate_video_from_image (VideoService.shot_number shot)
                   (VideoService.prompt shot) (VideoService.duration shot)
                   (VideoService.subject shot) frame previous prev_video);
            [lia|exact Hin|lia|exact Hpath].
        * trivial.
        * exact Hsaved.
      + subst n. eapply ct_weaken.
        * rewrite Hpos. apply ct_generate_video_from_text.
        * trivial.
        * intros r w Hr. apply (Hsaved r w). rewrite Hpos. exact Hr.
  }
  intros result. eapply ct_bind with
    (mid := fun _ _ => In (VideoService.video_path result)
                         (VideoService.artifact_paths isalnum self job_id shot)).
  { apply ct_quiet; [apply quiet_update_job_status|]. intros w a w' Hin _. exact Hin. }
  intros ?. apply ct_pure. intros Hin.
  apply (IH (n + 1)); [exact Hnum|intros s Hs; apply Hsub; now right|].
  simpl. split; [lia|]. exists shot. repeat split; [exact Hshot|lia|exact Hin].
Qed.


End ChainFacts.


(** What the run of the witness submitted: shot 1 as text-to-video, then
    shot 2 as image-to-video. *)
Example first_run_submissions :
  VideoService.submitted_models (w_trace (snd Fixtures.first_video_run))
  = [(2, VStr "sora-2-image-to-video"); (1, VStr "sora-2-text-to-video")].
Proof. vm_compute. reflexivity. Qed.

(* ===================================================================== *)
(** * More facts: the provider client (kie_client.py)                     *)
(* ===================================================================== *)

Section SafeGetFacts.

Lemma split_on_nonempty sep s : KieClient.split_on sep s <> [].
Proof.
  destruct s as [|c r]; simpl; [discriminate|].
  destruct (KieClient.split_on sep r); [discriminate|].
  now destruct (Ascii.eqb c sep).
Qed.

Lemma split_on_app sep a b :
  KieClient.split_on sep (a +:+ String sep b)
  = KieClient.split_on sep a ++ KieClient.split_on sep b.
Proof.
  induction a as [|c a IH]; simpl.
  - rewrite Ascii.eqb_refl.
    destruct (KieClient.split_on sep b) eqn:Hb; [|reflexivity].
    now apply split_on_nonempty in Hb.
  - rewrite IH.
    destruct (KieClient.split_on sep a) as [|h t] eqn:Ha.
    { now apply split_on_nonempty in Ha. }
    simpl. now destruct (Ascii.eqb c sep).
Qed.

Lemma safe_get_keys_none keys : keys <> [] -> KieClient.safe_get_keys VNone keys = VNone.
Proof. now destruct keys. Qed.

Lemma safe_get_keys_app d keys1 keys2 :
  keys2 <> [] ->
  KieClient.safe_get_keys d (keys1 ++ keys2)
  = KieClient.safe_get_keys (KieClient.safe_get_keys d keys1) keys2.
Proof.
  intros Hne. revert d. induction keys1 as [|k rest IH]; intros d; [reflexivity|].
  simpl. destruct d as [| | | | | |o]; try (now rewrite safe_get_keys_none).
  destruct (dict_get o k); [apply IH|now rewrite safe_get_keys_none].
Qed.

Lemma split_on_absent sep s :
  Str.all (fun c => negb (Ascii.eqb c sep)) s = true -> KieClient.split_on sep s = [s].
Proof.
  induction s as [|c r IH]; simpl; [reflexivity|].
  intros H. apply andb_true_iff in H as [Hc Hr]. rewrite (IH Hr).
  apply negb_true_iff in Hc. now rewrite Hc.
Qed.

(** X1.  Dotted paths compose: looking up [a.b] is looking up [b] in what
    [a] gives, whatever the two paths are.  A path without a dot is a plain
    [get], and in a value that is not an object every path gives [None],
    like a missing key. *)
Theorem safe_get_composes (d : value) :
  (forall a b,
     KieClient._safe_get d (a +:+ "." +:+ b)
     = KieClient._safe_get (KieClient._safe_get d a) b)
  /\ (forall o key,
        d = VDict o -> Str.all (fun c => negb (Ascii.eqb c ".")) key = true ->
        KieClient._safe_get d key = get_or_none o key)
  /\ (forall path, (forall o, d <> VDict o) -> KieClient._safe_get d path = VNone).
Proof.
  split; [|split].
  - intros a b. unfold KieClient._safe_get.
    change ("." +:+ b) with (String "." b).
    rewrite split_on_app. apply safe_get_keys_app, split_on_nonempty.
  - intros o key -> Hkey. unfold KieClient._safe_get.
    rewrite (split_on_absent _ _ Hkey). unfold get_or_none. simpl.
    now destruct (dict_get o key).
  - intros path Hd. unfold KieClient._safe_get.
    destruct (KieClient.split_on "." path) as [|k rest] eqn:Hs.
    { now apply split_on_nonempty in Hs. }
    simpl. destruct d as [| | | | | |o]; try reflexivity. now destruct (Hd o).
Qed.

End SafeGetFacts.

Section CreateTaskMoreFacts.

Variable repr : value -> string.

(** X2.  [create_task] returns a task id only for a 2xx response with a JSON
    body that is not in the error format, and the id is the string of the
    first truthy value among [data.taskId], [taskId] and [data.id], in that
    order; a candidate that is [None], 0, empty or absent is passed over. *)
Theorem create_task_returns_first_id (exchange : KieClient.http_outcome) (task_id : string) :
  KieClient.create_task repr exchange = Return task_id
  <-> exists status_code data,
        exchange = KieClient.HttpResponse status_code (Some data)
        /\ KieClient.is_success status_code = true
        /\ KieClient.kie_error_format data = false
        /\ exists found,
             task_id = KieClient.py_str repr found /\ truthy found = true
             /\ (found = KieClient._safe_get data "data.taskId"
                 \/ (truthy (KieClient._safe_get data "data.taskId") = false
                     /\ (found = KieClient._safe_get data "taskId"
                         \/ (truthy (KieClient._safe_get data "taskId") = false
                             /\ found = KieClient._safe_get data "data.id")))).
Proof.
  split.
  - unfold KieClient.create_task.
    destruct exchange as [| |status_code [data|]]; try discriminate.
    2:{ destruct (negb _); discriminate. }
    destruct (KieClient.is_success status_code) eqn:Hs; [|discriminate]. cbn [negb].
    destruct (KieClient.kie_error_format data) eqn:Hf; [discriminate|].
    remember (KieClient._safe_get data "data.taskId") as a eqn:Ea.
    remember (KieClient._safe_get data "taskId") as b eqn:Eb.
    remember (KieClient._safe_get data "data.id") as c eqn:Ec.
    unfold py_or.
    destruct (truthy a) eqn:Ha; cbv iota; rewrite ?Ha; cbn [negb].
    { intros [= <-]. exists status_code, data.
      split; [reflexivity|]. split; [exact Hs|]. split; [exact Hf|].
      exists a. rewrite <- Ea. auto. }
    destruct (truthy b) eqn:Hb; cbv iota; rewrite ?Hb; cbn [negb].
    { intros [= <-]. exists status_code, data.
      split; [reflexivity|]. split; [exact Hs|]. split; [exact Hf|].
      exists b. rewrite <- Ea, <- Eb. auto 6. }
    destruct (truthy c) eqn:Hc; cbn [negb]; [|discriminate].
    intros [= <-]. exists status_code, data.
    split; [reflexivity|]. split; [exact Hs|]. split; [exact Hf|].
    exists c. rewrite <- Ea, <- Eb, <- Ec. auto 8.
  - intros (status_code & data & -> & Hs & Hf & found & -> & Ht & Hwhich).
    unfold KieClient.create_task. rewrite Hs, Hf. cbn [negb]. unfold py_or.
    destruct Hwhich as [->|[Ha [->|[Hb ->]]]].
    + repeat (rewrite Ht; cbv iota). reflexivity.
    + rewrite Ha. cbv iota. repeat (rewrite Ht; cbv iota). reflexivity.
    + rewrite Ha. cbv iota. rewrite Hb. cbv iota. repeat (rewrite Ht; cbv iota).
      reflexivity.
Qed.

End CreateTaskMoreFacts.

Section PollMoreFacts.

Local Open Scope Q_scope.

Variable P : KieClient.poll_env.

Abbreviation poll_loop := (KieClient.poll_loop KieClient.init P).
Abbreviation poll_task := (KieClient.poll_task KieClient.init P).

Ltac verdict_base :=
  intros [= <- <-]; cbn [List.length]; rewrite Nat.add_0_r;
  split; [intros i Hi; inversion Hi|]; split; [|split; [|split]].

Lemma poll_loop_verdict fuel :
  forall k start now delay r slept,
    poll_loop fuel k start now delay = (Some r, slept) ->
    let last := (k + List.length slept)%nat in
    (forall i, (i < List.length slept)%nat -> KieClient.pending (KieClient.poll_get P (k + i)))
    /\ (forall detail,
          r = Return detail ->
          exists status_code,
            KieClient.poll_get P last = KieClient.HttpResponse status_code (Some detail)
            /\ KieClient.is_success status_code = true
            /\ KieClient.eq_str (KieClient._safe_get detail "data.state") "success" = true)
    /\ (forall msg,
          r = Raise (RuntimeError msg) ->
          exists status_code detail,
            KieClient.poll_get P last = KieClient.HttpResponse status_code (Some detail)
            /\ KieClient.is_success status_code = true
            /\ KieClient.eq_str (KieClient._safe_get detail "data.state") "fail" = true)
    /\ (forall status_code,
          r = Raise (HTTPStatusError status_code) ->
          exists body,
            KieClient.poll_get P last = KieClient.HttpResponse status_code body
            /\ KieClient.is_success status_code = false)
    /\ (r = Raise TimeoutError -> KieClient.pending (KieClient.poll_get P last)).
Proof.
  induction fuel as [|fuel IH]; intros k start now delay r slept; [discriminate|].
  cbn [KieClient.poll_loop].
  destruct (KieClient.poll_get P k) as [| |status_code [detail|]] eqn:Hget.
  1,2: verdict_base; intros; congruence.
  2:{ destruct (KieClient.is_success status_code) eqn:Hok; cbn [negb];
        verdict_base; try (intros; congruence).
      intros sc [= <-]. eauto. }
  destruct (KieClient.is_success status_code) eqn:Hok; cbn [negb].
  2:{ verdict_base; try (intros; congruence). intros sc [= <-]. eauto. }
  destruct (KieClient.eq_str _ "success") eqn:Hs.
  { verdict_base; try (intros; congruence). intros d [= <-]. eauto. }
  destruct (KieClient.eq_str _ "fail") eqn:Hf.
  { verdict_base; try (intros; congruence). intros msg _. eauto. }
  assert (Hpending : KieClient.pending (KieClient.poll_get P k)).
  { rewrite Hget. exists status_code, detail. auto. }
  destruct (Qlt_le_dec _ _).
  { verdict_base; intros; congruence. }
  cbv zeta.
  destruct (KieClient.poll_loop _ _ fuel (S k) _ _ _) as [r' slept'] eqn:Hrec.
  intros [= -> <-].
  specialize (IH _ _ _ _ _ _ Hrec). cbv zeta in IH.
  cbn [List.length]. rewrite Nat.add_succ_r. cbn [Nat.add] in IH.
  destruct IH as (Hbefore & IH).
  split; [|exact IH].
  intros [|i] Hi; [now rewrite Nat.add_0_r|].
  rewrite Nat.add_succ_r. apply Hbefore. lia.
Qed.

(** X3.  The first answer that is not pending decides [poll_task]: it has
    slept once for each pending answer before it; a detail it returns is the
    body of that answer and says ["success"]; its [RuntimeError] means that
    answer said ["fail"]; and one answer outside 2xx ends the polling with
    that status, without another try. *)
Theorem poll_task_first_verdict (fuel : nat) (start : Q) (r : result value)
    (slept : list Q) :
  poll_task fuel start = (Some r, slept) ->
  let last := List.length slept in
  (forall i, (i < last)%nat -> KieClient.pending (KieClient.poll_get P i))
  /\ (forall detail,
        r = Return detail ->
        exists status_code,
          KieClient.poll_get P last = KieClient.HttpResponse status_code (Some detail)
          /\ KieClient.is_success status_code = true
          /\ KieClient.eq_str (KieClient._safe_get detail "data.state") "success" = true)
  /\ (forall msg,
        r = Raise (RuntimeError msg) ->
        exists status_code detail,
          KieClient.poll_get P last = KieClient.HttpResponse status_code (Some detail)
          /\ KieClient.is_success status_code = true
          /\ KieClient.eq_str (KieClient._safe_get detail "data.state") "fail" = true)
  /\ (forall status_code,
        r = Raise (HTTPStatusError status_code) ->
        exists body,
          KieClient.poll_get P last = KieClient.HttpResponse status_code body
          /\ KieClient.is_success status_code = false)
  /\ (r = Raise TimeoutError -> KieClient.pending (KieClient.poll_get P last)).
Proof.
  intros H. exact (poll_loop_verdict fuel 0 start start _ r slept H).
Qed.

Lemma total_bounds (lo hi : Q) (l : list Q) :
  Forall (fun x => lo <= x /\ x < hi) l ->
  lo * inject_Z (Z.of_nat (List.length l)) <= KieClient.total l
  /\ KieClient.total l <= hi * inject_Z (Z.of_nat (List.length l)).
Proof.
  induction 1 as [|x l [Hlo Hhi] _ [IH1 IH2]].
  - cbn [List.length KieClient.total]. change (inject_Z (Z.of_nat 0)) with 0. lra.
  - cbn [List.length KieClient.total]. rewrite inject_succ. split; nra.
Qed.

Lemma total_snoc (l : list Q) (x : Q) :
  KieClient.total (l ++ [x]) == KieClient.total l + x.
Proof. induction l as [|y l IH]; cbn; [lra|]. cbn in IH. rewrite IH. lra. Qed.

Lemma nat_le_of_Q (a : nat) (b : Z) :
  inject_Z (Z.of_nat a) <= inject_Z b -> (Z.of_nat a <= b)%Z.
Proof. now rewrite <- Zle_Qle. Qed.


End PollMoreFacts.

(* ===================================================================== *)
(** * More facts: the store (storage.py)                                  *)
(* ===================================================================== *)

Section StoreMoreFacts.

Variable storage : Storage.StorageManager.

Implicit Types (f : fs) (p q done : path) (todo : list string).

Lemma mkdir_from_idempotent done todo f f' :
  mkdir_from done todo f = Return f' -> mkdir_from done todo f' = Return f'.
Proof.
  revert done f. induction todo as [|c rest IH]; intros done f; simpl; [reflexivity|].
  intros H.
  assert (Hstep : exists f1, mkdir_from (done ++ [c]) rest f1 = Return f'
                             /\ f1 !! (done ++ [c]) = Some Dir).
  { destruct (f !! (done ++ [c])) as [[|content]|] eqn:Hp; [eauto|discriminate|].
    eexists; split; [exact H|]. apply lookup_insert_eq. }
  destruct Hstep as (f1 & H1 & Hd).
  rewrite (mkdir_from_preserves _ _ _ _ _ _ H1 Hd). eapply IH, H1.
Qed.

Lemma mkdir_from_trace_free done todo f f' q n :
  mkdir_from done todo f = Return f' -> f' !! q = Some n ->
  f !! q = Some n \/ (f !! q = None /\ n = Dir).
Proof.
  intros H Hq. destruct (f !! q) as [m|] eqn:Hf.
  - left. rewrite (mkdir_from_preserves _ _ _ _ _ _ H Hf) in Hq. congruence.
  - right. split; [reflexivity|]. exact (mkdir_from_adds_dirs _ _ _ _ _ _ H Hq Hf).
Qed.


Lemma mkdir_from_stable done todo f f2 :
  mkdir_from done todo f = Return f ->
  (forall q, f !! q = Some Dir -> f2 !! q = Some Dir) ->
  mkdir_from done todo f2 = Return f2.
Proof.
  revert done. induction todo as [|c rest IH]; intros done; simpl; [reflexivity|].
  intros H Hdirs.
  destruct (f !! (done ++ [c])) as [[|content]|] eqn:Hp; [|discriminate|].
  - rewrite (Hdirs _ Hp). now apply IH.
  - exfalso.
    pose proof (mkdir_from_preserves _ _ _ _ (done ++ [c]) Dir H) as Hd.
    rewrite lookup_insert_eq in Hd. specialize (Hd eq_refl). congruence.
Qed.

(** A directory that was made is still made after changes that keep the
    directories. *)
Lemma mkdir_parents_again p f f1 f2 :
  mkdir_parents p f = Return f1 ->
  (forall q, f1 !! q = Some Dir -> f2 !! q = Some Dir) ->
  mkdir_parents p f2 = Return f2.
Proof.
  intros H Hdirs. unfold mkdir_parents in *.
  eapply mkdir_from_stable; [exact (mkdir_from_idempotent _ _ _ _ H)|exact Hdirs].
Qed.

Lemma insert_file_keeps_dirs f p c :
  f !! p <> Some Dir ->
  forall q, f !! q = Some Dir -> <[p := File c]> f !! q = Some Dir.
Proof.
  intros Hp q Hq. rewrite lookup_insert_ne; [exact Hq|]. intros ->. congruence.
Qed.

Abbreviation record_path := (Api.record_path storage).


Lemma dict_get_app (d1 d2 : list (string * value)) k :
  dict_get (d1 ++ d2) k
  = match dict_get d1 k with Some v => Some v | None => dict_get d2 k end.
Proof.
  induction d1 as [|[k0 v0] rest IH]; simpl; [reflexivity|].
  now destruct (String.eqb k0 k).
Qed.

(** After [d.update(kwargs)], a key has the last value [kwargs] gives it, or
    else the value it had. *)
Lemma dict_get_update (kwargs d : list (string * value)) k :
  dict_get (dict_update d kwargs) k
  = match dict_get (rev kwargs) k with Some v => Some v | None => dict_get d k end.
Proof.
  unfold dict_update. revert d.
  induction kwargs as [|[k0 v0] rest IH]; intros d; simpl; [reflexivity|].
  rewrite IH, dict_get_app. destruct (dict_get (rev rest) k); [reflexivity|].
  simpl. rewrite dict_get_set. now destruct (String.eqb k0 k).
Qed.

Variable E : env.


End StoreMoreFacts.

(* ===================================================================== *)
(** * More facts: clip file names (storage.py)                            *)
(* ===================================================================== *)

Section FileNameFacts.

Variable isalnum : ascii -> bool.

Implicit Types (s t : string) (n m : Z).

Lemma string_length_append s t : String.length (s +:+ t) = (String.length s + String.length t)%nat.
Proof. induction s as [|c s IH]; simpl; [reflexivity|now rewrite IH]. Qed.

Lemma string_app_inv_tail s t u : s +:+ u = t +:+ u -> s = t.
Proof.
  revert t. induction s as [|c s IH]; intros [|d t] H; simpl in H.
  - reflexivity.
  - apply (f_equal String.length) in H. rewrite ?string_length_append in H. simpl in H.
    rewrite ?string_length_append in H. lia.
  - apply (f_equal String.length) in H. rewrite ?string_length_append in H. simpl in H.
    rewrite ?string_length_append in H. lia.
  - injection H as -> H. f_equal. now apply IH.
Qed.

Lemma all_append p s t : Str.all p (s +:+ t) = Str.all p s && Str.all p t.
Proof. induction s as [|c s IH]; simpl; [reflexivity|]. now rewrite IH, andb_assoc. Qed.

Lemma uint_chars (u : Decimal.uint) :
  Str.all Str.sign_or_digit (NilEmpty.string_of_uint u) = true.
Proof. induction u; simpl; try rewrite IHu; reflexivity. Qed.

Lemma of_Z_chars n : Str.all Str.sign_or_digit (Str.of_Z n) = true.
Proof.
  unfold Str.of_Z, NilZero.string_of_int, NilZero.string_of_uint.
  destruct (Z.to_int n) as [u|u]; destruct u; try reflexivity;
    try (apply (uint_chars (_ u))); simpl; now rewrite uint_chars.
Qed.

Lemma of_Z_nonempty n : Str.of_Z n <> "".
Proof.
  unfold Str.of_Z, NilZero.string_of_int, NilZero.string_of_uint.
  destruct (Z.to_int n) as [u|u]; destruct u; discriminate.
Qed.

Lemma format_02d_chars n : Str.all Str.sign_or_digit (Storage.format_02d n) = true.
Proof.
  unfold Storage.format_02d. destruct (_ <? _)%nat; [|apply of_Z_chars].
  simpl. apply of_Z_chars.
Qed.

Lemma format_02d_nonempty n : Storage.format_02d n <> "".
Proof.
  unfold Storage.format_02d. destruct (_ <? _)%nat; [discriminate|apply of_Z_nonempty].
Qed.

Lemma to_int_proper n :
  Z.to_int n <> Decimal.Pos Decimal.Nil /\ Z.to_int n <> Decimal.Neg Decimal.Nil.
Proof.
  destruct n as [|p|p]; simpl; split; try discriminate;
    intros [= H]; now apply DecimalPos.Unsigned.to_uint_nonnil in H.
Qed.

(** Reading the number back from its two-digit form. *)
Lemma format_02d_parse n :
  option_map Z.of_int (NilZero.int_of_string (Storage.format_02d n)) = Some n.
Proof.
  destruct (to_int_proper n) as [Hp Hn].
  unfold Storage.format_02d, Str.of_Z.
  destruct (_ <? _)%nat eqn:Hshort.
  2:{ rewrite NilZero.isi by assumption. simpl. now rewrite DecimalZ.of_to. }
  destruct (Z.to_int n) as [u|u] eqn:Hu.
  - assert (Hnil : u <> Decimal.Nil) by congruence.
    change ("0" +:+ ?x) with (String "0" x).
    unfold NilZero.int_of_string. cbn [Ascii.eqb Bool.eqb andb].
    unfold NilZero.uint_of_string. cbn [NilEmpty.uint_of_string].
    replace (NilZero.string_of_int (Decimal.Pos u)) with (NilEmpty.string_of_uint u)
      by now destruct u.
    rewrite NilEmpty.usu. simpl.
    f_equal. rewrite <- (DecimalZ.of_to n), Hu. reflexivity.
  - exfalso. apply Nat.ltb_lt in Hshort. simpl in Hshort.
    destruct u; simpl in Hshort; lia.
Qed.

Lemma format_02d_injective n m :
  Storage.format_02d n = Storage.format_02d m -> n = m.
Proof.
  intros H. pose proof (format_02d_parse n) as Hn. rewrite H, format_02d_parse in Hn.
  congruence.
Qed.

Lemma sign_or_digit_not_underscore c : Str.sign_or_digit c = true -> Ascii.eqb c "_" = false.
Proof.
  intros H. destruct (Ascii.eqb_spec c "_") as [->|]; [discriminate|reflexivity].
Qed.

(** A name is cut at its first underscore. *)
Lemma split_at_underscore a b x y :
  Str.all Str.sign_or_digit a = true -> Str.all Str.sign_or_digit b = true ->
  a +:+ String "_" x = b +:+ String "_" y -> a = b /\ x = y.
Proof.
  revert b. induction a as [|c a IH]; intros [|d b] Ha Hb H; simpl in *.
  - now injection H.
  - injection H as <- _. apply andb_true_iff in Hb as [Hd _]. discriminate.
  - injection H as -> _. apply andb_true_iff in Ha as [Hc _]. discriminate.
  - injection H as -> H.
    apply andb_true_iff in Ha as [_ Ha]. apply andb_true_iff in Hb as [_ Hb].
    destruct (IH b Ha Hb H) as [-> ->]. now split.
Qed.

(** X8.  Clip file names tell shots apart: two names are equal exactly when
    the shot numbers are equal and the subjects have the same sanitized
    form, so clips of different shots never overwrite each other. *)
Theorem video_filename_injective (n m : Z) (s t : string) :
  Storage.video_filename isalnum n s = Storage.video_filename isalnum m t
  <-> n = m /\ Storage.safe_subject isalnum s = Storage.safe_subject isalnum t.
Proof.
  split.
  - unfold Storage.video_filename. change ("_" +:+ ?x) with (String "_" x).
    intros H.
    apply split_at_underscore in H as [Hf Hs]; try apply format_02d_chars.
    split; [now apply format_02d_injective|]. now apply string_app_inv_tail in Hs.
  - intros [-> Hs]. unfold Storage.video_filename. now rewrite Hs.
Qed.

Lemma compare_app_lt a b x y :
  String.length a = String.length b -> String.compare a b = Lt ->
  String.compare (a +:+ x) (b +:+ y) = Lt.
Proof.
  revert b. induction a as [|c a IH]; intros [|d b] Hlen H; simpl in *;
    try discriminate.
  destruct (Ascii.compare c d); try discriminate; [|reflexivity].
  apply IH; [lia|exact H].
Qed.

Lemma format_02d_table :
  forallb (fun i =>
    forallb (fun j =>
      implb (i <? j)%nat
        (match String.compare (Storage.format_02d (Z.of_nat i))
                 (Storage.format_02d (Z.of_nat j)) with
         | Lt => true
         | _ => false
         end
         && (String.length (Storage.format_02d (Z.of_nat i))
             =? String.length (Storage.format_02d (Z.of_nat j)))%nat))
      (seq 0 100)) (seq 0 100) = true.
Proof. vm_compute. reflexivity. Qed.

(** X9.  For shot numbers from 0 to 99 the order of the clip file names is
    the order of the shot numbers, whatever the subjects: the name of the
    lower shot comes strictly first in the order on strings that [sorted]
    uses in [list_videos_for_job]. *)
Theorem video_filename_order (n m : Z) (s t : string) :
  0 <= n -> n < m -> m <= 99 ->
  String.compare (Storage.video_filename isalnum n s)
    (Storage.video_filename isalnum m t) = Lt.
Proof.
  intros Hn Hnm Hm.
  pose proof format_02d_table as Htab.
  rewrite forallb_forall in Htab.
  assert (Hi : In (Z.to_nat n) (seq 0 100)) by (apply in_seq; lia).
  assert (Hj : In (Z.to_nat m) (seq 0 100)) by (apply in_seq; lia).
  specialize (Htab _ Hi). rewrite forallb_forall in Htab. specialize (Htab _ Hj).
  rewrite !Z2Nat.id in Htab by lia.
  assert (Hlt : (Z.to_nat n <? Z.to_nat m)%nat = true) by (apply Nat.ltb_lt; lia).
  rewrite Hlt in Htab. cbn [implb] in Htab.
  apply andb_true_iff in Htab as [Hcmp Hlen]. apply Nat.eqb_eq in Hlen.
  unfold Storage.video_filename. apply compare_app_lt; [exact Hlen|].
  now destruct (String.compare _ _).
Qed.

End FileNameFacts.

(** X9: the witness, the two shots of "Test-50". *)
Lemma video_filename_order_witness :
  String.compare (Storage.video_filename Fixtures.ascii_isalnum 1 "Opening")
    (Storage.video_filename Fixtures.ascii_isalnum 2 "Closing") = Lt.
Proof.
  apply (video_filename_order Fixtures.ascii_isalnum 1 2 "Opening" "Closing"); lia.
Defined.

(** Beyond 99 the two orders part: the clip of shot 100 sorts before the
    clip of shot 11. *)
Example video_filename_order_beyond_99 :
  String.compare (Storage.video_filename Fixtures.ascii_isalnum 100 "Late")
    (Storage.video_filename Fixtures.ascii_isalnum 11 "Early") = Lt.
Proof. vm_compute. reflexivity. Qed.

(* ===================================================================== *)
(** * More facts: clips in the store (storage.py)                         *)
(* ===================================================================== *)

Section ClipFacts.

Variable isalnum : ascii -> bool.
Variable storage : Storage.StorageManager.

Abbreviation videos_dir := (fun job_id => Storage.job_dir_path storage job_id (Some "videos")).
Abbreviation video_filename := (Storage.video_filename isalnum).

Lemma join_snoc (p : path) c : c <> "" -> join p c = p ++ [c].
Proof. intros H. unfold join. now destruct (String.eqb_spec c ""). Qed.

Lemma video_filename_first n s :
  exists c rest, video_filename n s = String c rest /\ Str.sign_or_digit c = true.
Proof.
  unfold Storage.video_filename.
  pose proof (format_02d_chars n) as Hc. pose proof (format_02d_nonempty n) as Hne.
  destruct (Storage.format_02d n) as [|c r]; [congruence|].
  simpl in *. apply andb_true_iff in Hc as [Hc _]. eauto.
Qed.

Lemma video_filename_nonempty n s : video_filename n s <> "".
Proof. destruct (video_filename_first n s) as (c & rest & -> & _). discriminate. Qed.

Lemma video_filename_not_merged n s :
  video_filename n s <> "concatenated.mp4" /\ video_filename n s <> "final.mp4".
Proof.
  destruct (video_filename_first n s) as (c & rest & -> & Hc).
  split; intros [= -> _]; discriminate.
Qed.

Lemma videos_dir_is_dir job_id f f1 :
  mkdir_parents (videos_dir job_id) f = Return f1 -> f1 !! videos_dir job_id = Some Dir.
Proof.
  intros Hm. pose proof (mkdir_from_is_dir [] _ _ _ Hm) as Hd. rewrite app_nil_l in Hd.
  apply Hd. now apply stage_dir_not_root.
Qed.


#[local] Instance str_le_total : Total Str.le.
Proof. intros a b. apply String.leb_total. Qed.

(** The names [list_videos_for_job] keeps of a directory listing. *)
Lemma listed_name (d : path) (entry : path * node) (name : string) :
  (let name := List.last (fst entry) "" in
   if bool_decide (parent (fst entry) = d /\ fst entry <> [])
      && Str.endswith name ".mp4"
      && negb (String.eqb name "concatenated.mp4")
      && negb (String.eqb name "final.mp4")
   then Some name else None) = Some name
  <-> fst entry = d ++ [name]
      /\ Str.endswith name ".mp4" = true
      /\ name <> "concatenated.mp4" /\ name <> "final.mp4".
Proof.
  cbv zeta. split.
  - destruct (bool_decide _) eqn:Hd; [|discriminate]. cbn [andb].
    apply bool_decide_eq_true in Hd as [Hparent Hne].
    destruct (Str.endswith _ _) eqn:He; [|discriminate]. cbn [andb].
    destruct (String.eqb_spec (List.last entry.1 "") "concatenated.mp4"); [discriminate|].
    destruct (String.eqb_spec (List.last entry.1 "") "final.mp4"); [discriminate|].
    cbn [negb andb]. intros [= <-]. split; [|auto].
    rewrite <- Hparent. unfold parent. now apply app_removelast_last.
  - intros (Hp & He & Hc & Hf). rewrite Hp, last_last.
    rewrite bool_decide_eq_true_2.
    2:{ split; [apply parent_snoc|]. now destruct d. }
    rewrite He. cbn [andb].
    destruct (String.eqb_spec name "concatenated.mp4"); [congruence|].
    destruct (String.eqb_spec name "final.mp4"); [congruence|reflexivity].
Qed.

Lemma NoDup_omap_keys {A B} (g : path * A -> option B) (key : B -> path)
    (l : list (path * A)) :
  (forall e b, g e = Some b -> fst e = key b) ->
  NoDup (fst <$> l) -> NoDup (omap g l).
Proof.
  intros Hkey. induction l as [|e l IH]; simpl; [constructor|].
  intros Hnd. apply NoDup_cons in Hnd as [Hnotin Hnd].
  destruct (g e) as [b|] eqn:Hg; [|now apply IH].
  apply NoDup_cons. split; [|now apply IH].
  intros Hin. apply list_elem_of_omap in Hin as (e' & He' & Hg').
  apply Hnotin. apply list_elem_of_fmap. exists e'. split; [|exact He'].
  rewrite (Hkey _ _ Hg), (Hkey _ _ Hg'). reflexivity.
Qed.

Abbreviation names_in := (fun (d : path) (f : fs) =>
  omap (fun e : path * node =>
          let name := List.last (fst e) "" in
          if bool_decide (parent (fst e) = d /\ fst e <> [])
             && Str.endswith name ".mp4"
             && negb (String.eqb name "concatenated.mp4")
             && negb (String.eqb name "final.mp4")
          then Some name else None) (map_to_list f)).

Lemma list_videos_for_job_run (job_id : string) (w : world) :
  Storage.list_videos_for_job storage job_id w
  = match mkdir_parents (videos_dir job_id) (w_fs w) with
    | Return f1 =>
        (Return (List.map (join (videos_dir job_id))
                   (merge_sort Str.le (names_in (videos_dir job_id) f1))),
         mkWorld f1 (w_trace w))
    | Raise e => (Raise e, w)
    end.
Proof.
  unfold Storage.list_videos_for_job. unfold bind at 1. rewrite get_job_dir_run.
  now destruct (mkdir_parents _ _).
Qed.

Lemma names_in_spec (d : path) (f : fs) (name : string) :
  In name (merge_sort Str.le (names_in d f))
  <-> (exists node, f !! (d ++ [name]) = Some node)
      /\ Str.endswith name ".mp4" = true
      /\ name <> "concatenated.mp4" /\ name <> "final.mp4".
Proof.
  rewrite <- list_elem_of_In, (merge_sort_Permutation Str.le).
  rewrite list_elem_of_omap. split.
  - intros ([p node] & Hin & Hname). apply elem_of_map_to_list in Hin.
    apply listed_name in Hname as (Hp & Hrest). cbn [fst] in Hp. subst p. eauto.
  - intros ([node Hnode] & Hrest). exists (d ++ [name], node).
    split; [now apply elem_of_map_to_list|]. apply listed_name. auto.
Qed.

Lemma names_in_NoDup (d : path) (f : fs) : NoDup (merge_sort Str.le (names_in d f)).
Proof.
  rewrite (merge_sort_Permutation Str.le).
  apply (NoDup_omap_keys _ (fun name => d ++ [name])).
  - intros entry name Hname. now apply listed_name in Hname.
  - apply NoDup_fst_map_to_list.
Qed.


Lemma string_app_assoc (a b c : string) : (a +:+ b) +:+ c = a +:+ (b +:+ c).
Proof.
  induction a as [|x a IH]; [reflexivity|].
  change (String x ((a +:+ b) +:+ c) = String x (a +:+ (b +:+ c))). now rewrite IH.
Qed.

Lemma substring_all (s : string) : String.substring 0 (String.length s) s = s.
Proof. induction s as [|c s IH]; simpl; [reflexivity|now rewrite IH]. Qed.

Lemma endswith_append (a suffix : string) : Str.endswith (a +:+ suffix) suffix = true.
Proof.
  unfold Str.endswith. rewrite string_length_append.
  replace (String.length a + String.length suffix - String.length suffix)%nat
    with (String.length a) by lia.
  apply andb_true_iff. split; [apply Nat.leb_le; lia|].
  apply String.eqb_eq.
  induction a as [|c a IH]; simpl; [apply substring_all|exact IH].
Qed.

Lemma video_filename_mp4 n s : Str.endswith (video_filename n s) ".mp4" = true.
Proof.
  unfold Storage.video_filename.
  rewrite <- !string_app_assoc. apply endswith_append.
Qed.

Lemma save_video_returns_copy (video_path : path) (job_id : string) (shot_number : Z)
    (subject : string) (w : world) (p : path) (w1 : world) :
  Storage.save_video isalnum storage video_path job_id shot_number subject w
  = (Return p, w1) ->
  video_path <> p ->
  exists f1 c,
    mkdir_parents (videos_dir job_id) (w_fs w) = Return f1
    /\ p = videos_dir job_id ++ [video_filename shot_number subject]
    /\ f1 !! video_path = Some (File c)
    /\ f1 !! p <> Some Dir
    /\ w1 = mkWorld (<[p := File c]> f1) (w_trace w).
Proof.
  unfold Storage.save_video. unfold bind at 1. rewrite get_job_dir_run.
  destruct (mkdir_parents _ _) as [f1|e] eqn:Hm; [|discriminate].
  rewrite (join_snoc _ _ (video_filename_nonempty shot_number subject)).
  set (dest := videos_dir job_id ++ [video_filename shot_number subject]).
  unfold bind. destruct (bool_decide (video_path = dest)) eqn:Hdec.
  { apply bool_decide_eq_true in Hdec. unfold ret. intros [= <- <-]. congruence. }
  unfold copy2, read_file. cbn [w_fs w_trace].
  destruct (f1 !! video_path) as [[|c]|] eqn:Hsrc; try discriminate.
  unfold on_fs, write_file. cbn [w_fs w_trace].
  destruct (f1 !! dest) as [[|c0]|] eqn:Hdest; try discriminate;
    (destruct (is_dir f1 (parent dest)); [|discriminate]);
    unfold ret; intros [= <- <-] _; exists f1, c; repeat split; congruence.
Qed.

(** X12.  A clip that [save_video] has just stored from another path is
    among the clips [list_videos_for_job] then lists, and the listing
    leaves the store as the save left it. *)
Theorem saved_video_is_listed (video_path : path) (job_id : string) (shot_number : Z)
    (subject : string) (w : world) (p : path) (w1 : world) :
  Storage.save_video isalnum storage video_path job_id shot_number subject w
  = (Return p, w1) ->
  video_path <> p ->
  exists listed,
    Storage.list_videos_for_job storage job_id w1 = (Return listed, w1)
    /\ In p listed.
Proof.
  intros Hsave Hne.
  destruct (save_video_returns_copy _ _ _ _ _ _ _ Hsave Hne)
    as (f1 & c & Hm & -> & Hsrc & Hnd & ->).
  rewrite list_videos_for_job_run. cbn [w_fs w_trace].
  rewrite (mkdir_parents_again _ _ _ _ Hm (insert_file_keeps_dirs _ _ _ Hnd)).
  eexists. split; [reflexivity|].
  apply in_map_iff. exists (video_filename shot_number subject).
  split; [apply join_snoc, video_filename_nonempty|].
  apply names_in_spec. split; [rewrite lookup_insert_eq; eauto|].
  split; [apply video_filename_mp4|apply video_filename_not_merged].
Qed.

End ClipFacts.

(* ===================================================================== *)
(** * More facts: jobs and their status (storage.py, api/main.py)         *)
(* ===================================================================== *)

Section JobFacts.

Variable E : env.
Variable storage : Storage.StorageManager.

Abbreviation job_root := (fun job_id => join (Storage.jobs_dir storage) job_id).
Abbreviation prompts_dir := (fun job_id => Storage.job_dir_path storage job_id (Some "prompts")).
Abbreviation record_path := (Api.record_path storage).

Lemma delete_job_run (job_id : string) (w : world) :
  Storage.delete_job storage job_id w
  = match w_fs w !! job_root job_id with
    | Some Dir =>
        (Return true,
         mkWorld (filter (fun entry => ~ job_root job_id `prefix_of` entry.1) (w_fs w))
                 (w_trace w))
    | Some (File _) => (Raise NotADirectoryError, w)
    | None => (Return false, w)
    end.
Proof.
  unfold Storage.delete_job, bind, path_exists, gets, exists_, on_fs, rmtree, ret.
  cbn [w_fs w_trace].
  destruct (w_fs w !! job_root job_id) as [[|c]|] eqn:Hroot; cbn [w_fs];
    rewrite ?Hroot; reflexivity.
Qed.

Lemma record_below_root (job_id : string) : job_root job_id `prefix_of` record_path job_id.
Proof.
  unfold Api.record_path, Storage.job_dir_path. cbn [truthy String.eqb negb].
  exists ["prompts"; "metadata.json"]. unfold join at 1 2. cbn [String.eqb].
  now rewrite <- app_assoc.
Qed.


(** What a successful [update_job_status] leaves. *)
Lemma update_job_status_returns (job_id status : string) (kwargs : list (string * value))
    (w : world) :
  fst (Storage.update_job_status E storage job_id status kwargs w) = Return tt ->
  exists f1 before,
    mkdir_parents (prompts_dir job_id) (w_fs w) = Return f1
    /\ (f1 !! record_path job_id = None /\ before = []
        \/ f1 !! record_path job_id = Some (File (JsonDoc (VDict before))))
    /\ snd (Storage.update_job_status E storage job_id status kwargs w)
       = mkWorld
           (<[record_path job_id :=
                File (JsonDoc (VDict (Storage.updated_metadata before status
                                        (datetime_now_isoformat E (EvClock :: w_trace w))
                                        kwargs)))]> f1)
           (EvClock :: w_trace w).
Proof.
  intros Hret.
  destruct (Storage.update_job_status E storage job_id status kwargs w) as [r w1] eqn:Hrun.
  cbn [fst snd] in *. subst r.
  unfold Storage.update_job_status in Hrun. unfold bind at 1 in Hrun.
  rewrite load_job_metadata_run in Hrun.
  destruct (mkdir_parents _ _) as [f1|e] eqn:Hm; [|discriminate].
  cbv zeta in Hrun.
  assert (Htail : forall before,
            f1 !! record_path job_id <> Some Dir ->
            bind (log EvClock)
              (fun _ => bind (ask (datetime_now_isoformat E))
                 (fun now => bind (Storage.save_job_metadata storage job_id
                                     (Storage.updated_metadata before status now kwargs))
                                  (fun _ => ret tt)))
              (mkWorld f1 (w_trace w))
            = (Return tt,
               mkWorld
                 (<[record_path job_id :=
                      File (JsonDoc (VDict (Storage.updated_metadata before status
                                              (datetime_now_isoformat E (EvClock :: w_trace w))
                                              kwargs)))]> f1)
                 (EvClock :: w_trace w))).
  { intros before Hnd. unfold bind, log, modify, ask, gets. cbn [w_fs w_trace].
    rewrite save_job_metadata_run. cbn [w_fs w_trace].
    unfold mkdir_parents in *. rewrite (mkdir_from_idempotent _ _ _ _ Hm).
    destruct (f1 !! record_path job_id) as [[|c]|]; [congruence|reflexivity|reflexivity]. }
  exists f1.
  destruct (f1 !! record_path job_id) as [[|[o|o|v|l]]|] eqn:Hrec; try discriminate.
  - destruct v as [| | | | | |before]; try discriminate.
    rewrite (Htail before) in Hrun by discriminate. injection Hrun as <-.
    exists before. split; [reflexivity|]. split; [now right|reflexivity].
  - rewrite (Htail []) in Hrun by discriminate. injection Hrun as <-.
    exists []. split; [reflexivity|]. split; [now left|reflexivity].
Qed.

Lemma get_job_status_on_disk (jobs : list (string * value)) (job_id : string)
    (f : fs) (trace : list event) :
  dict_get jobs job_id = None ->
  mkdir_parents (prompts_dir job_id) f = Return f ->
  Api.get_job_status storage jobs job_id (mkWorld f trace)
  = match f !! record_path job_id with
    | None =>
        (Return (Api.mkJobStatus job_id (VStr "pending") VNone VNone VNone),
         mkWorld f trace)
    | Some Dir => (Raise IsADirectoryError, mkWorld f trace)
    | Some (File (JsonDoc (VDict d))) =>
        (Return (Api.mkJobStatus job_id
                   (match dict_get d "status" with Some st => st | None => VStr "pending" end)
                   (get_or_none d "message") (get_or_none d "result")
                   (get_or_none d "error")),
         mkWorld f trace)
    | Some (File (JsonDoc _)) => (Raise AttributeError, mkWorld f trace)
    | Some (File _) => (Raise JSONDecodeError, mkWorld f trace)
    end.
Proof.
  intros Hmem Hdirs. unfold Api.get_job_status. rewrite Hmem.
  unfold bind. rewrite job_exists_run. cbn [w_fs w_trace]. rewrite Hdirs.
  cbn [negb]. rewrite load_job_metadata_run. cbn [w_fs w_trace]. rewrite Hdirs.
  cbv zeta.
  destruct (f !! record_path job_id) as [[|[o|o|v|l]]|]; try reflexivity.
  now destruct v.
Qed.

Lemma mkdir_from_prefix_dirs (done a b : path) (f f' : fs) :
  mkdir_from done (a ++ b) f = Return f' -> a <> [] -> f' !! (done ++ a) = Some Dir.
Proof.
  revert done f. induction a as [|c a IH]; intros done f H Hne; [congruence|].
  simpl in H.
  assert (Hstep : exists f1, mkdir_from (done ++ [c]) (a ++ b) f1 = Return f'
                             /\ f1 !! (done ++ [c]) = Some Dir).
  { destruct (f !! (done ++ [c])) as [[|content]|] eqn:Hp; [eauto|discriminate|].
    eexists; split; [exact H|]. apply lookup_insert_eq. }
  destruct Hstep as (f1 & H1 & Hd).
  destruct a as [|c2 a].
  - exact (mkdir_from_preserves _ _ _ _ _ _ H1 Hd).
  - replace (done ++ c :: c2 :: a) with ((done ++ [c]) ++ c2 :: a)
      by now rewrite <- app_assoc.
    eapply IH; [exact H1|discriminate].
Qed.

Lemma prompts_dir_below_root (job_id : string) :
  prompts_dir job_id = job_root job_id ++ ["prompts"].
Proof. reflexivity. Qed.

Lemma job_root_made (job_id : string) (f f1 : fs) :
  mkdir_parents (prompts_dir job_id) f = Return f1 ->
  job_root job_id <> [] -> f1 !! job_root job_id = Some Dir.
Proof.
  intros Hm Hne.
  change (mkdir_from [] (job_root job_id ++ ["prompts"]) f = Return f1) in Hm.
  exact (mkdir_from_prefix_dirs [] _ _ _ _ Hm Hne).
Qed.




End JobFacts.

(* ===================================================================== *)
(** * More facts: what a generation leaves on disk                        *)
(* ===================================================================== *)

Section TransferFacts.

Variable E : env.

Lemma kie_create_returns shot_number payload w task_id w1 :
  VideoService.kie_create E shot_number payload w = (Return task_id, w1) ->
  w_fs w1 = w_fs w
  /\ w_trace w1 = EvCreateTask shot_number payload (w_fs w) :: w_trace w.
Proof.
  rewrite kie_create_run. cbv zeta.
  destruct (kie_create_task E _); [|discriminate]. now intros [= _ <-].
Qed.

Lemma kie_poll_returns task_id w detail w1 :
  VideoService.kie_poll E task_id w = (Return detail, w1) ->
  w_fs w1 = w_fs w /\ w_trace w1 = EvPollTask task_id :: w_trace w.
Proof.
  unfold VideoService.kie_poll, bind, log, modify, ask, gets, lift. cbn [w_fs w_trace].
  destruct (kie_poll_task E _); [|discriminate]. now intros [= _ <-].
Qed.

(** A download that returns has written the whole file. *)
Lemma kie_download_returns url dest w u w1 :
  VideoService.kie_download E url dest w = (Return u, w1) ->
  exists f1,
    mkdir_parents (parent dest) (w_fs w) = Return f1
    /\ f1 !! dest <> Some Dir
    /\ w_fs w1 = <[dest := File (Whole (FromUrl url))]> f1.
Proof.
  unfold VideoService.kie_download. intros H.
  apply bind_returns in H as (u1 & w2 & Hmk & H).
  apply on_fs_returns in Hmk as (f1 & Hm & ->).
  apply bind_returns in H as (u2 & w3 & Hlog & H). injection Hlog as _ <-.
  apply bind_returns in H as (outcome & w4 & Hask & H). injection Hask as <- <-.
  exists f1. split; [exact Hm|].
  destruct (kie_download_file E _) as [|e left_partial].
  - apply on_fs_returns in H as (f2 & Hw & ->). cbn [w_fs] in *.
    unfold write_file in Hw.
    destruct (f1 !! dest) as [[|c]|]; try discriminate;
      (destruct (is_dir f1 (parent dest)); [|discriminate]);
      injection Hw as <-; now split.
  - apply bind_returns in H as (u3 & w5 & _ & H). discriminate.
Qed.

End TransferFacts.

Section VoiceoverFacts.

Variable self : TTSService.TTSService.

Abbreviation audio_dir job_id :=
  (Storage.job_dir_path (TTSService.storage self) job_id (Some "audio")).
Abbreviation voiceover_path job_id := (audio_dir job_id ++ ["voiceover.mp3"]).

Lemma get_audio_path_run job_id w :
  Storage.get_audio_path (TTSService.storage self) job_id w
  = match mkdir_parents (audio_dir job_id) (w_fs w) with
    | Return f1 => (Return (voiceover_path job_id), mkWorld f1 (w_trace w))
    | Raise e => (Raise e, w)
    end.
Proof.
  unfold Storage.get_audio_path, bind. rewrite get_job_dir_run.
  now destruct (mkdir_parents _ _).
Qed.

Lemma get_audio_path_returns job_id w p w1 :
  Storage.get_audio_path (TTSService.storage self) job_id w = (Return p, w1) ->
  exists f1,
    mkdir_parents (audio_dir job_id) (w_fs w) = Return f1
    /\ p = voiceover_path job_id /\ w1 = mkWorld f1 (w_trace w).
Proof.
  rewrite get_audio_path_run.
  destruct (mkdir_parents _ _) as [f1|e]; [|discriminate].
  intros [= <- <-]. now exists f1.
Qed.

Lemma save_audio_returns audio_path job_id w p w1 :
  Storage.save_audio (TTSService.storage self) audio_path job_id w = (Return p, w1) ->
  audio_path <> voiceover_path job_id ->
  exists f1 c,
    mkdir_parents (audio_dir job_id) (w_fs w) = Return f1
    /\ p = voiceover_path job_id
    /\ f1 !! audio_path = Some (File c)
    /\ f1 !! p <> Some Dir
    /\ w1 = mkWorld (<[p := File c]> f1) (w_trace w).
Proof.
  unfold Storage.save_audio. unfold bind at 1. rewrite get_job_dir_run.
  destruct (mkdir_parents _ _) as [f1|e] eqn:Hm; [|discriminate].
  change (join ?d "voiceover.mp3") with (d ++ ["voiceover.mp3"]).
  unfold bind. destruct (bool_decide (audio_path = voiceover_path job_id)) eqn:Hdec.
  { apply bool_decide_eq_true in Hdec. congruence. }
  unfold copy2, read_file. cbn [w_fs w_trace].
  destruct (f1 !! audio_path) as [[|c]|] eqn:Hsrc; try discriminate.
  unfold on_fs, write_file. cbn [w_fs w_trace].
  destruct (f1 !! voiceover_path job_id) as [[|c0]|] eqn:Hdest; try discriminate;
    (destruct (is_dir f1 (parent (voiceover_path job_id))); [|discriminate]);
    unfold ret; intros [= <- <-] _; exists f1, c;
    (split; [reflexivity|]); (split; [reflexivity|]); (split; [exact Hsrc|]);
    (split; [|reflexivity]);
    change (f1 !! voiceover_path job_id <> Some Dir); rewrite Hdest; discriminate.
Qed.

Lemma delete_file_keeps_dirs (f : fs) (p : path) :
  f !! p <> Some Dir -> forall q, f !! q = Some Dir -> delete p f !! q = Some Dir.
Proof.
  intros Hp q Hq. rewrite lookup_delete_ne; [exact Hq|]. intros ->. congruence.
Qed.

Lemma temp_audio_not_voiceover (dir : path) (task_id : string) (job_id : string) :
  join dir ("audio_" +:+ task_id +:+ ".mp3") <> voiceover_path job_id.
Proof.
  change (join dir ("audio_" +:+ task_id +:+ ".mp3"))
    with (dir ++ [String "a" ("udio_" +:+ task_id +:+ ".mp3")]).
  intros H. apply app_inj_tail in H as [_ H]. discriminate.
Qed.

(** What a voiceover that was generated leaves: the narration at its path
    in a store whose [audio] directory needs no making. *)
Lemma generate_voiceover_returns E job_id text voice verbose w r w1 :
  TTSService.generate_voiceover E self job_id text voice verbose w = (Return r, w1) ->
  r = TTSService.mkVoiceoverResponse job_id (voiceover_path job_id) "completed"
  /\ mkdir_parents (audio_dir job_id) (w_fs w1) = Return (w_fs w1)
  /\ exists_ (w_fs w1) (voiceover_path job_id) = true.
Proof.
  unfold TTSService.generate_voiceover. intros H.
  apply bind_returns in H as (ap & wa & Hap & H).
  apply get_audio_path_returns in Hap as (f1 & Hm & -> & ->).
  apply bind_returns in H as (present & w0 & Hp & H).
  unfold path_exists, gets in Hp. cbn [w_fs] in Hp.
  assert (Hpresent : present = exists_ f1 (voiceover_path job_id)) by congruence.
  assert (Hw0 : w0 = mkWorld f1 (w_trace w)) by congruence.
  clear Hp. subst w0.
  destruct (exists_ f1 (voiceover_path job_id)) eqn:Hthere; subst present.
  { assert (Hr : r = TTSService.mkVoiceoverResponse job_id (voiceover_path job_id)
                       "completed") by (unfold ret in H; congruence).
    assert (Hw1 : w1 = mkWorld f1 (w_trace w)) by (unfold ret in H; congruence).
    subst r w1. split; [reflexivity|]. cbn [w_fs].
    split; [|exact Hthere]. unfold mkdir_parents in *.
    exact (mkdir_from_idempotent _ _ _ _ Hm). }
  apply bind_returns in H as (u0 & w2 & Hverbose & H).
  assert (Hw2 : w2 = mkWorld f1 (w_trace w)).
  { destruct (verbose && negb (TTSService.has_len text)); [discriminate|].
    now injection Hverbose. }
  subst w2.
  apply bind_returns in H as (task_id & w3 & Hcreate & H).
  apply kie_create_returns in Hcreate as [Hf3 _]. cbn [w_fs] in Hf3.
  apply bind_returns in H as (detail & w4 & Hpoll & H).
  apply kie_poll_returns in Hpoll as [Hf4 _]. rewrite Hf3 in Hf4.
  apply bind_returns in H as (audio_url & w5 & Hurl & H).
  assert (Hw5 : w5 = w4) by (unfold lift in Hurl; congruence). subst w5.
  apply bind_returns in H as (u1 & w6 & Hdl & H).
  apply kie_download_returns in Hdl as (f5 & Hm5 & Hnd5 & Hf6). rewrite Hf4 in Hm5.
  apply bind_returns in H as (final_path & w7 & Hsave & H).
  apply save_audio_returns in Hsave as (f7 & c & Hm7 & -> & Hsrc & Hnd7 & ->);
    [|apply temp_audio_not_voiceover].
  apply bind_returns in H as (still_there & w8 & Hst & H). injection Hst as <- <-.
  apply bind_returns in H as (u2 & w9 & Hrm & H). injection H as <- <-.
  split; [reflexivity|].
  set (temp := join (TTSService.tempdir self) ("audio_" +:+ task_id +:+ ".mp3")) in *.
  assert (Hfinal : w_fs w9 = <[voiceover_path job_id := File c]> f7
                   \/ w_fs w9 = delete temp (<[voiceover_path job_id := File c]> f7)).
  { destruct (exists_ _ temp); apply (f_equal snd) in Hrm;
      unfold remove, modify, ret in Hrm; cbn [snd] in Hrm; subst w9; cbn [w_fs]; auto. }
  assert (Hne : voiceover_path job_id <> temp).
  { intros Heq. symmetry in Heq. revert Heq. apply temp_audio_not_voiceover. }
  assert (Hdirs : forall q, f7 !! q = Some Dir -> w_fs w9 !! q = Some Dir).
  { intros q Hq. pose proof (insert_file_keeps_dirs _ _ c Hnd7 q Hq) as Hi.
    destruct Hfinal as [-> | ->]; [exact Hi|].
    apply delete_file_keeps_dirs; [|exact Hi].
    rewrite lookup_insert_ne by exact Hne. rewrite Hsrc. discriminate. }
  split; [exact (mkdir_parents_again _ _ _ _ Hm7 Hdirs)|].
  unfold exists_. destruct Hfinal as [-> | ->].
  - now rewrite lookup_insert_eq.
  - rewrite lookup_delete_ne by (intros Heq; now apply Hne).
    now rewrite lookup_insert_eq.
Qed.



End VoiceoverFacts.

(* ===================================================================== *)
(** * More facts: the video stage (video_service.py)                      *)
(* ===================================================================== *)

Section VideoMoreFacts.

Variable isalnum : ascii -> bool.
Variable E : env.
Variable self : VideoService.VideoService.

Abbreviation job_videos job_id :=
  (Storage.job_dir_path (VideoService.storage self) job_id (Some "videos")).
Abbreviation clip_path job_id shot_number subject :=
  (job_videos job_id ++ [Storage.video_filename isalnum shot_number subject]).
Abbreviation temp_video task_id :=
  (join (VideoService.tempdir self) ("video_" +:+ task_id +:+ ".mp4")).

Lemma temp_video_not_clip task_id job_id shot_number subject :
  temp_video task_id <> clip_path job_id shot_number subject.
Proof.
  change (temp_video task_id)
    with (VideoService.tempdir self ++ [String "v" ("ideo_" +:+ task_id +:+ ".mp4")]).
  intros H. apply app_inj_tail in H as [_ H].
  destruct (video_filename_first isalnum shot_number subject) as (c & rest & Hname & Hc).
  rewrite Hname in H. injection H as <- _. discriminate.
Qed.

(** What the steps after the submission leave when they return: the whole
    download at the clip's path, no temporary file, and a [videos]
    directory that needs no making. *)
Lemma collect_effect task_id job_id shot_number subject w r w1 :
  VideoService.collect isalnum E self task_id job_id shot_number subject w
  = (Return r, w1) ->
  r = VideoService.mkResponse job_id shot_number
        (clip_path job_id shot_number subject) "completed"
  /\ (exists url,
        w_fs w1 !! clip_path job_id shot_number subject
        = Some (File (Whole (FromUrl url))))
  /\ w_fs w1 !! temp_video task_id = None
  /\ mkdir_parents (job_videos job_id) (w_fs w1) = Return (w_fs w1).
Proof.
  unfold VideoService.collect. intros H.
  apply bind_returns in H as (detail & w2 & Hpoll & H).
  apply bind_returns in H as (video_url & w3 & Hurl & H).
  apply bind_returns in H as (u1 & w4 & Hdl & H).
  apply kie_download_returns in Hdl as (f4 & Hm4 & Hnd4 & Hf4).
  apply bind_returns in H as (final_path & w5 & Hsave & H).
  apply bind_returns in H as (still_there & w6 & Hst & H).
  apply bind_returns in H as (u2 & w7 & Hrm & H).
  assert (Hne : temp_video task_id <> final_path).
  { pose proof (save_video_returns _ _ _ _ _ _ _ _ _ Hsave) as Hp.
    rewrite (join_snoc _ _ (video_filename_nonempty isalnum shot_number subject)) in Hp.
    rewrite Hp. apply temp_video_not_clip. }
  destruct (save_video_returns_copy _ _ _ _ _ _ _ _ _ Hsave Hne)
    as (f5 & c & Hm5 & -> & Hsrc & Hnd5 & ->).
  assert (Hc : c = Whole (FromUrl video_url)).
  { rewrite Hf4 in Hm5.
    pose proof (mkdir_from_preserves _ _ _ _ (temp_video task_id)
                  (File (Whole (FromUrl video_url))) Hm5) as Hkeep.
    rewrite lookup_insert_eq in Hkeep. specialize (Hkeep eq_refl). congruence. }
  subst c.
  unfold path_exists, gets in Hst. cbn [w_fs] in Hst.
  assert (Hthere : still_there = true).
  { assert (Hs : still_there
                 = exists_ (<[clip_path job_id shot_number subject
                              := File (Whole (FromUrl video_url))]> f5)
                     (temp_video task_id)) by congruence.
    rewrite Hs. unfold exists_.
    rewrite lookup_insert_ne by (intros Heq; now apply Hne). now rewrite Hsrc. }
  assert (Hw6 : w6 = mkWorld (<[clip_path job_id shot_number subject
                                := File (Whole (FromUrl video_url))]> f5) (w_trace w4))
    by congruence.
  subst still_there w6. clear Hst.
  apply (f_equal snd) in Hrm. unfold remove, modify in Hrm. cbn [snd w_fs w_trace] in Hrm.
  subst w7.
  assert (Hr : r = VideoService.mkResponse job_id shot_number
                     (clip_path job_id shot_number subject) "completed")
    by (unfold ret in H; congruence).
  assert (Hw1 : w1 = mkWorld
                  (delete (temp_video task_id)
                     (<[clip_path job_id shot_number subject
                        := File (Whole (FromUrl video_url))]> f5)) (w_trace w4))
    by (unfold ret in H; congruence).
  subst r w1. cbn [w_fs]. split; [reflexivity|]. split.
  { exists video_url. rewrite lookup_delete_ne by exact Hne. apply lookup_insert_eq. }
  split; [apply lookup_delete_eq|].
  apply (mkdir_parents_again _ _ _ _ Hm5). intros q Hq.
  apply delete_file_keeps_dirs.
  - rewrite lookup_insert_ne by (intros Heq; now apply Hne). rewrite Hsrc. discriminate.
  - now apply insert_file_keeps_dirs.
Qed.

Lemma submit_and_collect_effect payload job_id shot_number subject w r w1 :
  VideoService.submit_and_collect isalnum E self payload job_id shot_number subject w
  = (Return r, w1) ->
  exists task_id,
    kie_create_task E (EvCreateTask shot_number payload (w_fs w) :: w_trace w)
    = Return task_id
    /\ r = VideoService.mkResponse job_id shot_number
             (clip_path job_id shot_number subject) "completed"
    /\ (exists url,
          w_fs w1 !! clip_path job_id shot_number subject
          = Some (File (Whole (FromUrl url))))
    /\ w_fs w1 !! temp_video task_id = None
    /\ VideoService.provider_contacts (w_trace w1)
       = S (VideoService.provider_contacts (w_trace w)).
Proof.
  unfold VideoService.submit_and_collect. intros H.
  apply bind_returns in H as (task_id & w2 & Hcreate & H).
  rewrite kie_create_run in Hcreate.
  exists task_id.
  assert (Htask : kie_create_task E (EvCreateTask shot_number payload (w_fs w) :: w_trace w)
                  = Return task_id) by congruence.
  assert (Hw2 : w2 = mkWorld (w_fs w)
                       (EvCreateTask shot_number payload (w_fs w) :: w_trace w))
    by congruence.
  subst w2. split; [exact Htask|].
  destruct (quiet_collect isalnum E self task_id job_id shot_number subject
              (mkWorld (w_fs w) (EvCreateTask shot_number payload (w_fs w) :: w_trace w)))
    as (added & Ht & Hq).
  rewrite H in Ht. cbn [snd w_trace] in Ht.
  apply collect_effect in H as (Hr & Hclip & Htemp & _).
  split; [exact Hr|]. split; [exact Hclip|]. split; [exact Htemp|].
  rewrite Ht, (provider_contacts_quiet _ _ Hq). reflexivity.
Qed.


(** One task per submission, none for the steps around it. *)
Lemma at_most_quiet {A} (m : M world A) : quiet m -> submits_at_most 0 m.
Proof.
  intros Hq w. destruct (Hq w) as (added & Ht & Hall). exists added.
  split; [exact Ht|].
  pose proof (provider_contacts_quiet added [] Hall) as Hn.
  unfold VideoService.provider_contacts in Hn. rewrite app_nil_r in Hn.
  rewrite Hn. apply Nat.le_refl.
Qed.

Lemma at_most_bind {A B} (a b : nat) (m : M world A) (k : A -> M world B) :
  submits_at_most a m -> (forall x, submits_at_most b (k x)) ->
  submits_at_most (a + b) (bind m k).
Proof.
  intros Hm Hk w. unfold bind. destruct (Hm w) as (a1 & H1 & N1).
  destruct (m w) as [[x|e] w1]; cbn [snd] in *.
  2:{ exists a1. split; [exact H1|lia]. }
  destruct (Hk x w1) as (a2 & H2 & N2).
  exists (a2 ++ a1). split; [now rewrite H2, H1, app_assoc|].
  rewrite List.filter_app, length_app. lia.
Qed.

Lemma at_most_weaken {A} (a b : nat) (m : M world A) :
  (a <= b)%nat -> submits_at_most a m -> submits_at_most b m.
Proof.
  intros Hab Hm w. destruct (Hm w) as (added & Ht & Hn). exists added.
  split; [exact Ht|lia].
Qed.

Lemma at_most_submit_and_collect payload job_id shot_number subject :
  submits_at_most 1
    (VideoService.submit_and_collect isalnum E self payload job_id shot_number subject).
Proof.
  apply (at_most_bind 1 0).
  - intros w. rewrite kie_create_run. cbn [snd w_trace].
    exists [EvCreateTask shot_number payload (w_fs w)]. split; [reflexivity|].
    cbn. apply Nat.le_refl.
  - intros task_id. apply at_most_quiet, quiet_collect.
Qed.

Lemma at_most_shots_loop job_id total shots :
  forall idx results previous_video_path,
    submits_at_most (List.length shots)
      (VideoService.shots_loop isalnum E self job_id total idx shots results
         previous_video_path).
Proof.
  induction shots as [|shot rest IH]; intros idx results previous_video_path.
  { apply at_most_quiet, quiet_ret. }
  cbn [VideoService.shots_loop List.length].
  apply (at_most_bind 0 (S (List.length rest)));
    [apply at_most_quiet, quiet_get_job_dir|intros job_dir].
  apply (at_most_bind 0 (S (List.length rest)));
    [apply at_most_quiet, quiet_path_exists|intros present].
  apply (at_most_bind 1 (List.length rest)).
  { destruct present; [apply (at_most_weaken 0); [lia|apply at_most_quiet, quiet_ret]|].
    destruct previous_video_path as [previous|];
      [|apply at_most_submit_and_collect].
    destruct (1 <? VideoService.shot_number shot);
      [|apply at_most_submit_and_collect].
    apply (at_most_bind 0 1);
      [apply at_most_quiet, quiet_extract_last_frame|intros frame].
    unfold VideoService.generate_video_from_image.
    apply (at_most_bind 0 1); [now apply at_most_quiet, quiet_log|intros ?].
    apply (at_most_bind 0 1); [apply at_most_quiet, quiet_ask|intros upload].
    apply (at_most_bind 0 1); [apply at_most_quiet, quiet_lift|intros url].
    apply at_most_submit_and_collect. }
  intros result.
  apply (at_most_bind 0 (List.length rest));
    [apply at_most_quiet, quiet_update_job_status|intros ?].
  apply IH.
Qed.

(** X20.  One call of [generate_videos_from_prompts] submits at most one
    task for each shot of the list, whatever the provider and the tools do:
    nothing is submitted twice within a call. *)
Theorem video_stage_submits_once_per_shot (job_id : string)
    (shots : list VideoService.Shot) (w : world) :
  (VideoService.provider_contacts
     (w_trace (snd (VideoService.generate_videos_from_prompts isalnum E self job_id
                      shots w)))
   <= VideoService.provider_contacts (w_trace w) + List.length shots)%nat.
Proof.
  unfold VideoService.generate_videos_from_prompts.
  destruct (at_most_shots_loop job_id (List.length shots) shots 1%nat [] None w)
    as (added & Ht & Hn).
  rewrite Ht. unfold VideoService.provider_contacts.
  rewrite List.filter_app, length_app. lia.
Qed.

(** The responses of the shots handled so far, then one for each shot that
    was left, in order. *)
Lemma shots_loop_results job_id total shots :
  forall idx results previous_video_path w rs w1,
    VideoService.shots_loop isalnum E self job_id total idx shots results
      previous_video_path w = (Return rs, w1) ->
    exists new,
      rs = results ++ new
      /\ Forall2 (fun shot r =>
                    VideoService.resp_job_id r = job_id
                    /\ VideoService.resp_shot_number r = VideoService.shot_number shot
                    /\ VideoService.resp_status r = "completed"
                    /\ In (VideoService.video_path r)
                         (VideoService.artifact_paths isalnum self job_id shot))
           shots new.
Proof.
  induction shots as [|shot rest IH]; intros idx results previous_video_path w rs w1 H.
  { injection H as <- _. exists []. split; [now rewrite app_nil_r|constructor]. }
  cbn [VideoService.shots_loop] in H.
  apply bind_returns in H as (job_dir & w2 & Hdir & H).
  apply get_job_dir_returns in Hdir as (-> & _).
  apply bind_returns in H as (present & w3 & _ & H).
  apply bind_returns in H as (result & w4 & Hresult & H).
  apply bind_returns in H as (u & w5 & _ & H).
  apply IH in H as (new & -> & Hnew).
  exists (result :: new). split; [now rewrite <- app_assoc|].
  constructor; [|exact Hnew].
  assert (Hgen : forall payload w' w'',
            VideoService.submit_and_collect isalnum E self payload job_id
              (VideoService.shot_number shot) (VideoService.subject shot) w'
            = (Return result, w'') ->
            VideoService.resp_job_id result = job_id
            /\ VideoService.resp_shot_number result = VideoService.shot_number shot
            /\ VideoService.resp_status result = "completed"
            /\ In (VideoService.video_path result)
                 (VideoService.artifact_paths isalnum self job_id shot)).
  { intros payload w' w'' Hs.
    apply submit_and_collect_effect in Hs as (task_id & _ & -> & _).
    cbn. repeat split. right. left.
    apply join_snoc, video_filename_nonempty. }
  destruct present.
  { injection Hresult as <- _. cbn. repeat split. now left. }
  destruct previous_video_path as [previous|]; [|now apply Hgen in Hresult].
  destruct (1 <? VideoService.shot_number shot); [|now apply Hgen in Hresult].
  apply bind_returns in Hresult as (frame & w6 & _ & Hresult).
  rewrite generate_video_from_image_run in Hresult.
  destruct (uploader_upload_image E _); [|discriminate].
  now apply Hgen in Hresult.
Qed.

(** X21.  When [generate_videos_from_prompts] returns, it returns one
    response for each shot of the list, in the order of the list, each
    with the job id, the shot's number, the status [completed], and as its
    path the clip's path in the [videos] directory or, for a shot that was
    skipped, the path of the skip test. *)
Theorem video_stage_results_follow_shots (job_id : string)
    (shots : list VideoService.Shot) (w : world)
    (rs : list VideoService.VideoGenerationResponse) (w1 : world) :
  VideoService.generate_videos_from_prompts isalnum E self job_id shots w
  = (Return rs, w1) ->
  Forall2 (fun shot r =>
             VideoService.resp_job_id r = job_id
             /\ VideoService.resp_shot_number r = VideoService.shot_number shot
             /\ VideoService.resp_status r = "completed"
             /\ In (VideoService.video_path r)
                  (VideoService.artifact_paths isalnum self job_id shot))
    shots rs.
Proof.
  intros H. apply shots_loop_results in H as (new & -> & Hnew). exact Hnew.
Qed.

End VideoMoreFacts.

(* ===================================================================== *)
(** * More facts: concatenation and frames (merge_service.py,
      frame_extractor_service.py)                                         *)
(* ===================================================================== *)

Section MergeMoreFacts.

Variable E : env.
Variable storage : Storage.StorageManager.
Variable concat_file : path.

Abbreviation job_clips job_id := (Storage.job_dir_path storage job_id (Some "videos")).

Lemma subprocess_run_fs cmd w :
  w_fs (snd (subprocess_run E cmd w)) = w_fs w
  \/ exists c, w_fs (snd (subprocess_run E cmd w)) = <[output_of cmd := File c]> (w_fs w).
Proof.
  rewrite subprocess_run_run. cbv zeta.
  destruct (ffmpeg_run E _) as [[|]|lp]; cbn [snd w_fs].
  - destruct (_ && _); cbn [snd w_fs]; eauto.
  - destruct (_ && _); cbn [snd w_fs]; eauto.
  - destruct (_ && lp); eauto.
Qed.

Lemma concatenate_videos_run (video_paths : list path) (output_path : path)
    (w : world) (f1 : fs) :
  write_file concat_file (ConcatList video_paths) (w_fs w) = Return f1 ->
  MergeService.concatenate_videos E concat_file video_paths output_path w
  = let sub := subprocess_run E (ConcatCopy concat_file output_path)
                 (mkWorld f1 (w_trace w)) in
    (match fst sub with Return _ => Return output_path | Raise e => Raise e end,
     if exists_ (w_fs (snd sub)) concat_file
     then mkWorld (delete concat_file (w_fs (snd sub))) (w_trace (snd sub))
     else snd sub).
Proof.
  intros Hw. unfold MergeService.concatenate_videos, bind, on_fs, try_finally.
  rewrite Hw. unfold path_exists, gets, remove, modify, ret. cbv zeta.
  destruct (subprocess_run E _ _) as [[u|e] w2]; cbn [fst snd];
    destruct (exists_ (w_fs w2) concat_file); reflexivity.
Qed.

(** X22.  The list file that [concatenate_videos] writes for the tool never
    outlives the call: whether the tool succeeds or fails, the file is gone
    afterwards.  If the list cannot be written the call raises with
    nothing changed and the tool is not run. *)
Theorem concat_list_is_removed (video_paths : list path) (output_path : path)
    (w : world) :
  let run := MergeService.concatenate_videos E concat_file video_paths output_path w in
  match write_file concat_file (ConcatList video_paths) (w_fs w) with
  | Return _ =>
      concat_file <> output_path ->
      w_fs (snd run) !! concat_file = None
      /\ w_trace (snd run)
         = EvFfmpeg (ConcatCopy concat_file output_path) :: w_trace w
  | Raise e => run = (Raise e, w)
  end.
Proof.
  cbv zeta.
  destruct (write_file _ _ _) as [f1|e] eqn:Hw.
  2:{ unfold MergeService.concatenate_videos, bind, on_fs. now rewrite Hw. }
  intros Hne. rewrite (concatenate_videos_run _ _ _ _ Hw). cbv zeta. cbn [snd].
  assert (Hthere : f1 !! concat_file = Some (File (ConcatList video_paths))).
  { unfold write_file in Hw.
    destruct (w_fs w !! concat_file) as [[|c]|]; try discriminate;
      (destruct (is_dir _ _); [|discriminate]); injection Hw as <-;
      apply lookup_insert_eq. }
  set (cmd := ConcatCopy concat_file output_path).
  set (w1 := mkWorld f1 (w_trace w)).
  assert (Htrace : w_trace (snd (subprocess_run E cmd w1)) = EvFfmpeg cmd :: w_trace w).
  { rewrite subprocess_run_run. cbv zeta.
    destruct (ffmpeg_run E _) as [wrote|lp]; [destruct (_ && _)|]; reflexivity. }
  assert (Hstill : exists_ (w_fs (snd (subprocess_run E cmd w1))) concat_file = true).
  { unfold exists_. destruct (subprocess_run_fs cmd w1) as [-> | [c ->]]; cbn [w_fs w1].
    - now rewrite Hthere.
    - rewrite lookup_insert_ne by (cbn; congruence). now rewrite Hthere. }
  rewrite Hstill. cbn [w_fs w_trace]. split; [apply lookup_delete_eq|exact Htrace].
Qed.

Lemma get_concat_video_path_run job_id w :
  Storage.get_concat_video_path storage job_id w
  = match mkdir_parents (job_clips job_id) (w_fs w) with
    | Return f1 => (Return (job_clips job_id ++ ["concatenated.mp4"]),
                    mkWorld f1 (w_trace w))
    | Raise e => (Raise e, w)
    end.
Proof.
  unfold Storage.get_concat_video_path, bind. rewrite get_job_dir_run.
  now destruct (mkdir_parents _ _).
Qed.


End MergeMoreFacts.

Section FrameMoreFacts.

Variable E : env.
Variable storage : Storage.StorageManager.

Abbreviation frames_dir job_id := (Storage.job_dir_path storage job_id (Some "frames")).

Lemma replace_without_dot (a : string) :
  Str.all (fun c => negb (Ascii.eqb c ".")) a = true ->
  Str.replace ".jpg" ".png" (a +:+ ".jpg") = a +:+ ".png".
Proof.
  unfold Str.replace. induction a as [|c a IH]; [reflexivity|].
  intros H. simpl in H. apply andb_true_iff in H as [Hc Ha].
  change (String c a +:+ ".jpg") with (String c (a +:+ ".jpg")).
  cbn [Str.replace_from String.prefix].
  destruct (ascii_dec "." c) as [<-|_]; [discriminate|].
  rewrite (IH Ha). reflexivity.
Qed.

Lemma replace_absent (old new s : string) :
  (forall c rest, old = String c rest ->
     Str.all (fun x => negb (Ascii.eqb x c)) s = true) ->
  old <> "" -> Str.replace old new s = s.
Proof.
  intros Hfirst Hne. destruct old as [|c rest]; [congruence|].
  specialize (Hfirst c rest eq_refl). clear Hne.
  unfold Str.replace. induction s as [|x s IH]; [reflexivity|].
  simpl in Hfirst. apply andb_true_iff in Hfirst as [Hx Hs].
  cbn [Str.replace_from String.prefix].
  destruct (ascii_dec c x) as [<-|_].
  - rewrite Ascii.eqb_refl in Hx. discriminate.
  - now rewrite (IH Hs).
Qed.

Lemma sign_or_digit_not_dot (s : string) :
  Str.all Str.sign_or_digit s = true -> Str.all (fun c => negb (Ascii.eqb c ".")) s = true.
Proof.
  induction s as [|c s IH]; [reflexivity|]. simpl. intros H.
  apply andb_true_iff in H as [Hc Hs]. rewrite (IH Hs), andb_true_r.
  destruct (Ascii.eqb_spec c ".") as [->|]; [discriminate|reflexivity].
Qed.

Lemma frame_name_png (shot_number : Z) :
  Str.replace ".jpg" ".png"
    ("shot_" +:+ Storage.format_02d shot_number +:+ "_" +:+ "last" +:+ ".jpg")
  = "shot_" +:+ Storage.format_02d shot_number +:+ "_last.png".
Proof.
  replace ("shot_" +:+ Storage.format_02d shot_number +:+ "_" +:+ "last" +:+ ".jpg")
    with (("shot_" +:+ Storage.format_02d shot_number +:+ "_last") +:+ ".jpg").
  2:{ rewrite !string_app_assoc. reflexivity. }
  rewrite replace_without_dot.
  - rewrite !string_app_assoc. reflexivity.
  - rewrite !all_append. rewrite (sign_or_digit_not_dot _ (format_02d_chars shot_number)).
    reflexivity.
Qed.

(** X24.  [extract_last_frame] checks its input and its output: without the
    video it raises [FileNotFoundError] with nothing changed and no tool
    run; a frame it returns is on disk, like the video, after one run of
    the tool on that video; and the frame's file is [shot_NN_last.png] in
    the job's [frames] directory, each directory name on the way having its
    own [.jpg] replaced by [.png] too, since the replacement runs over the
    whole path. *)
Theorem extract_last_frame_checks (video_path : path) (job_id : string)
    (shot_number : Z) (w : world) :
  let run := FrameExtractorService.extract_last_frame E storage video_path job_id
               shot_number w in
  (exists_ (w_fs w) video_path = false -> run = (Raise FileNotFoundError, w))
  /\ (forall frame,
        fst run = Return frame ->
        w_trace (snd run) = EvFfmpeg (ExtractLastFrame video_path frame) :: w_trace w
        /\ exists_ (w_fs (snd run)) video_path = true
        /\ exists_ (w_fs (snd run)) frame = true
        /\ frame = List.map (Str.replace ".jpg" ".png") (frames_dir job_id)
                   ++ ["shot_" +:+ Storage.format_02d shot_number +:+ "_last.png"]).
Proof.
  cbv zeta. split.
  - intros Hmissing. unfold FrameExtractorService.extract_last_frame, bind.
    unfold path_exists, gets. now rewrite Hmissing.
  - intros frame Hret.
    destruct (FrameExtractorService.extract_last_frame E storage video_path job_id
                shot_number w) as [r w1] eqn:Hrun.
    cbn [fst snd] in *. subst r.
    pose proof (extract_last_frame_returns _ _ _ _ _ _ _ _ Hrun) as (Ht & Hv & Hf).
    split; [exact Ht|]. split; [exact Hv|]. split; [exact Hf|].
    unfold FrameExtractorService.extract_last_frame in Hrun.
    apply bind_returns in Hrun as (present & w2 & _ & Hrun).
    destruct (negb present); [discriminate|].
    apply bind_returns in Hrun as (jpg & w3 & Hjpg & Hrun).
    unfold Storage.get_frame_path in Hjpg.
    apply bind_returns in Hjpg as (d & w4 & Hd & Hjpg).
    apply get_job_dir_returns in Hd as (-> & _).
    assert (Hj : jpg = frames_dir job_id
                       ++ ["shot_" +:+ Storage.format_02d shot_number +:+ "_" +:+ "last"
                           +:+ ".jpg"]).
    { unfold ret in Hjpg. injection Hjpg as <- _. reflexivity. }
    subst jpg.
    apply bind_returns in Hrun as (u1 & w5 & _ & Hrun).
    apply bind_returns in Hrun as (u2 & w6 & _ & Hrun).
    apply bind_returns in Hrun as (created & w7 & _ & Hrun).
    destruct (negb created); [discriminate|].
    unfold ret in Hrun. injection Hrun as <- _.
    rewrite map_app. cbn [List.map]. now rewrite frame_name_png.
Qed.

End FrameMoreFacts.

(* ===================================================================== *)
(** * More facts: set-up, narration from a prompts file, the pipeline's
      last word                                                           *)
(* ===================================================================== *)

Section InitFacts.

Lemma init_run (base : path) (w : world) :
  Storage.init base w
  = let self := Storage.mkStorage base (join base "jobs") (join base "output")
                  (join base "downloads") in
    match mkdir_parents (Storage.jobs_dir self) (w_fs w) with
    | Raise e => (Raise e, w)
    | Return f1 =>
        match mkdir_parents (Storage.output_dir self) f1 with
        | Raise e => (Raise e, mkWorld f1 (w_trace w))
        | Return f2 =>
            match mkdir_parents (Storage.downloads_dir self) f2 with
            | Raise e => (Raise e, mkWorld f2 (w_trace w))
            | Return f3 => (Return self, mkWorld f3 (w_trace w))
            end
        end
    end.
Proof.
  unfold Storage.init, bind, on_fs, ret. cbv zeta. cbn [Storage.jobs_dir
    Storage.output_dir Storage.downloads_dir].
  destruct (mkdir_parents (join base "jobs") _) as [f1|e]; [|reflexivity].
  cbn [w_fs w_trace].
  destruct (mkdir_parents (join base "output") _) as [f2|e]; [|reflexivity].
  cbn [w_fs w_trace].
  now destruct (mkdir_parents (join base "downloads") _).
Qed.

(** X25.  Setting up the store makes its three directories below the base
    directory and touches nothing that is there; setting it up again on
    the same base changes nothing and gives the same store. *)
Theorem init_makes_directories (base : path) (w : world) (self : Storage.StorageManager)
    (w1 : world) :
  Storage.init base w = (Return self, w1) ->
  self = Storage.mkStorage base (base ++ ["jobs"]) (base ++ ["output"])
           (base ++ ["downloads"])
  /\ is_dir (w_fs w1) (Storage.jobs_dir self) = true
  /\ is_dir (w_fs w1) (Storage.output_dir self) = true
  /\ is_dir (w_fs w1) (Storage.downloads_dir self) = true
  /\ (forall q n, w_fs w !! q = Some n -> w_fs w1 !! q = Some n)
  /\ Storage.init base w1 = (Return self, w1).
Proof.
  rewrite init_run. cbv zeta. cbn [Storage.jobs_dir Storage.output_dir Storage.downloads_dir].
  change (join base "jobs") with (base ++ ["jobs"]).
  change (join base "output") with (base ++ ["output"]).
  change (join base "downloads") with (base ++ ["downloads"]).
  destruct (mkdir_parents (base ++ ["jobs"]) _) as [f1|e] eqn:H1; [|discriminate].
  destruct (mkdir_parents (base ++ ["output"]) _) as [f2|e] eqn:H2; [|discriminate].
  destruct (mkdir_parents (base ++ ["downloads"]) _) as [f3|e] eqn:H3; [|discriminate].
  intros [= <- <-]. cbn [Storage.jobs_dir Storage.output_dir Storage.downloads_dir w_fs].
  assert (D1 : f1 !! (base ++ ["jobs"]) = Some Dir).
  { pose proof (mkdir_from_is_dir [] _ _ _ H1) as Hd. apply Hd. now destruct base. }
  assert (D2 : f2 !! (base ++ ["output"]) = Some Dir).
  { pose proof (mkdir_from_is_dir [] _ _ _ H2) as Hd. apply Hd. now destruct base. }
  assert (D3 : f3 !! (base ++ ["downloads"]) = Some Dir).
  { pose proof (mkdir_from_is_dir [] _ _ _ H3) as Hd. apply Hd. now destruct base. }
  assert (K12 : forall q n, f1 !! q = Some n -> f2 !! q = Some n)
    by (intros q n; apply (mkdir_from_preserves _ _ _ _ _ _ H2)).
  assert (K23 : forall q n, f2 !! q = Some n -> f3 !! q = Some n)
    by (intros q n; apply (mkdir_from_preserves _ _ _ _ _ _ H3)).
  split; [reflexivity|]. unfold is_dir.
  split; [now rewrite (K23 _ _ (K12 _ _ D1))|].
  split; [now rewrite (K23 _ _ D2)|].
  split; [now rewrite D3|].
  split.
  { intros q n Hq. apply K23, K12. exact (mkdir_from_preserves _ _ _ _ _ _ H1 Hq). }
  rewrite init_run. cbv zeta. cbn [Storage.jobs_dir Storage.output_dir
    Storage.downloads_dir w_fs w_trace].
  change (join base "jobs") with (base ++ ["jobs"]).
  change (join base "output") with (base ++ ["output"]).
  change (join base "downloads") with (base ++ ["downloads"]).
  rewrite (mkdir_parents_again _ _ _ f3 H1) by (intros q Hq; now apply K23, K12).
  rewrite (mkdir_parents_again _ _ _ f3 H2) by (intros q Hq; now apply K23).
  unfold mkdir_parents in *. now rewrite (mkdir_from_idempotent _ _ _ _ H3).
Qed.

End InitFacts.

Section NameSafetyFacts.

Variable isalnum : ascii -> bool.

Lemma map_sanitize_no_slash (s : string) :
  isalnum "/" = false ->
  Str.all (fun c => negb (Ascii.eqb c "/")) (Str.map (Storage.sanitize isalnum) s) = true.
Proof.
  intros Hslash. induction s as [|c s IH]; [reflexivity|].
  simpl. rewrite IH, andb_true_r. unfold Storage.sanitize, Storage.keeps.
  destruct (Ascii.eqb_spec c "/") as [->|Hne].
  - now rewrite Hslash.
  - destruct (isalnum c || Ascii.eqb c "_" || Ascii.eqb c "-"); [|reflexivity].
    now destruct (Ascii.eqb_spec c "/").
Qed.

Lemma sign_or_digit_no_slash (s : string) :
  Str.all Str.sign_or_digit s = true -> Str.all (fun c => negb (Ascii.eqb c "/")) s = true.
Proof.
  induction s as [|c s IH]; [reflexivity|]. simpl. intros H.
  apply andb_true_iff in H as [Hc Hs]. rewrite (IH Hs), andb_true_r.
  destruct (Ascii.eqb_spec c "/") as [->|]; [discriminate|reflexivity].
Qed.

(** X26.  No subject can leave the directory: where [/] does not count as
    alphanumeric, as in Python, the clip file name of any shot number and
    any subject holds no [/], and the sanitized subject in it holds no dot
    either, so the name is one path component and is not [..]. *)
Theorem video_filename_is_one_component (shot_number : Z) (subject : string) :
  isalnum "/" = false -> isalnum "." = false ->
  Str.all (fun c => negb (Ascii.eqb c "/"))
    (Storage.video_filename isalnum shot_number subject) = true
  /\ Str.all (fun c => negb (Ascii.eqb c "/") && negb (Ascii.eqb c "."))
       (Storage.safe_subject isalnum subject) = true
  /\ Storage.video_filename isalnum shot_number subject <> ".."
  /\ Storage.video_filename isalnum shot_number subject <> "".
Proof.
  intros Hslash Hdot.
  assert (Hsubj : Str.all (fun c => negb (Ascii.eqb c "/") && negb (Ascii.eqb c "."))
                    (Storage.safe_subject isalnum subject) = true).
  { unfold Storage.safe_subject. apply all_take.
    induction subject as [|c s IH]; [reflexivity|].
    simpl. rewrite IH, andb_true_r. unfold Storage.sanitize, Storage.keeps.
    destruct (Ascii.eqb_spec c "/") as [->|H1]; [now rewrite Hslash|].
    destruct (Ascii.eqb_spec c ".") as [->|H2]; [now rewrite Hdot|].
    destruct (isalnum c || Ascii.eqb c "_" || Ascii.eqb c "-"); [|reflexivity].
    destruct (Ascii.eqb_spec c "/"); [congruence|].
    now destruct (Ascii.eqb_spec c "."). }
  split; [|split; [exact Hsubj|split]].
  - unfold Storage.video_filename. rewrite !all_append.
    rewrite (sign_or_digit_no_slash _ (format_02d_chars shot_number)).
    unfold Storage.safe_subject.
    rewrite (all_take _ 50 _ (map_sanitize_no_slash subject Hslash)). reflexivity.
  - destruct (video_filename_first isalnum shot_number subject) as (c & rest & -> & Hc).
    intros [= -> _]. discriminate.
  - apply video_filename_nonempty.
Qed.

End NameSafetyFacts.

Section PromptsVoiceFacts.

Variable E : env.
Variable self : TTSService.TTSService.


End PromptsVoiceFacts.

Section PipelineEndFacts.

Variable E : env.
Variable storage : Storage.StorageManager.
Variable str_exn : exn -> string.

Lemma update_job_status_record (job_id status : string) (kwargs : list (string * value))
    (w : world) (u : unit) (w1 : world) :
  Storage.update_job_status E storage job_id status kwargs w = (Return u, w1) ->
  exists after,
    Api.persisted_record storage job_id w1 = Some (VDict after)
    /\ (forall k v, dict_get (rev kwargs) k = Some v -> dict_get after k = Some v)
    /\ (dict_get (rev kwargs) "status" = None ->
        dict_get after "status" = Some (VStr status)).
Proof.
  intros H.
  assert (Hret : fst (Storage.update_job_status E storage job_id status kwargs w)
                 = Return tt) by (rewrite H; now destruct u).
  destruct (update_job_status_returns E storage job_id status kwargs w Hret)
    as (f1 & before & _ & _ & Hw1).
  rewrite H in Hw1. cbn [snd] in Hw1. subst w1.
  eexists. split.
  { unfold Api.persisted_record. cbn [w_fs]. now rewrite lookup_insert_eq. }
  unfold Storage.updated_metadata. split.
  - intros k v Hk. now rewrite dict_get_update, Hk.
  - intros Hk. rewrite dict_get_update, Hk, !dict_get_set. reflexivity.
Qed.

(** X28.  When the pipeline task ends without raising, the status record
    on disk is in a final state that says how it ended: [completed] with
    the result of the last stage, or [failed] with the text of the
    exception that stopped a stage. *)
Theorem pipeline_ends_in_final_status (job_id : string) (r : Api.run) (w : world) :
  fst (Api.full_pipeline_task E storage str_exn job_id r w) = Return tt ->
  exists after,
    Api.persisted_record storage job_id
      (snd (Api.full_pipeline_task E storage str_exn job_id r w)) = Some (VDict after)
    /\ ((dict_get after "status" = Some (VStr "completed")
         /\ exists output_path,
              dict_get after "result"
              = Some (VDict [("job_id", VStr job_id);
                             ("final_video_path", VStr output_path);
                             ("status", VStr "completed")]))
        \/ (dict_get after "status" = Some (VStr "failed")
            /\ exists e, dict_get after "error" = Some (VStr (str_exn e)))).
Proof.
  unfold Api.full_pipeline_task, try_except.
  match goal with |- context [match ?body w with _ => _ end] =>
    destruct (body w) as [[u|e] w1] eqn:Hbody end.
  - intros _. cbn [snd].
    apply bind_returns in Hbody as (d & w2 & _ & Hbody).
    apply bind_returns in Hbody as (u1 & w3 & _ & Hbody).
    apply bind_returns in Hbody as (u2 & w4 & _ & Hbody).
    apply bind_returns in Hbody as (u3 & w5 & _ & Hbody).
    apply bind_returns in Hbody as (u4 & w6 & _ & Hbody).
    apply bind_returns in Hbody as (u5 & w7 & _ & Hbody).
    apply bind_returns in Hbody as (u6 & w8 & _ & Hbody).
    apply bind_returns in Hbody as (u7 & w9 & _ & Hbody).
    apply bind_returns in Hbody as (u8 & w10 & _ & Hbody).
    apply bind_returns in Hbody as (final_result & w11 & Hmerge & Hbody).
    apply update_job_status_record in Hbody as (after & Hrec & Hkw & Hst).
    exists after. split; [exact Hrec|]. left. split; [now apply Hst|].
    unfold Api.merge_stage in Hmerge.
    destruct (Api.merge_outcome r) as [[already_there output_path]|e]; [|discriminate].
    apply bind_returns in Hmerge as (u9 & w12 & _ & Hmerge).
    injection Hmerge as <- _. exists output_path. now apply Hkw.
  - intros Hret.
    destruct (Api.update E storage job_id "failed" [("error", VStr (str_exn e))] w1)
      as [[u|e'] w2] eqn:Hfail; [|discriminate].
    cbn [snd]. apply update_job_status_record in Hfail as (after & Hrec & Hkw & Hst).
    exists after. split; [exact Hrec|]. right. split; [now apply Hst|].
    exists e. now apply Hkw.
Qed.

End PipelineEndFacts.

(* ===================================================================== *)
(** * Concrete runs of the facts above                                      *)
(* ===================================================================== *)

(* ===================================================================== *)
(** * More facts: the witnesses                                           *)
(* ===================================================================== *)

Lemma pair_of_fst {A B} (p : A * B) (a : A) : fst p = a -> p = (a, snd p).
Proof. destruct p. simpl. now intros ->. Qed.

(** X3: the witness, a provider that is done at the third query; the
    second query was answered by a pending response. *)
Lemma poll_task_first_verdict_witness :
  KieClient.pending (KieClient.poll_get Fixtures.succeeds_at_third 1).
Proof.
  assert (H : exists slept,
            KieClient.poll_task KieClient.init Fixtures.succeeds_at_third 5 0
            = (Some (Return (Fixtures.detail_with (VStr Fixtures.json_urls_list))), slept)
            /\ List.length slept = 2%nat).
  { eexists. split; vm_compute; reflexivity. }
  destruct H as (slept & H & Hlen).
  destruct (poll_task_first_verdict Fixtures.succeeds_at_third 5 0 _ slept H)
    as [Hpending _].
  apply Hpending. rewrite Hlen. constructor.
Defined.



(** X12: the witness, the downloaded clip stored as shot 1 of "Test-50". *)
Lemma saved_video_is_listed_witness :
  exists listed,
    Storage.list_videos_for_job Fixtures.store "Test-50"
      (snd (Storage.save_video Fixtures.ascii_isalnum Fixtures.store
              ["tmp"; "video_task_1.mp4"] "Test-50" 1 "Opening" Fixtures.downloaded))
    = (Return listed,
       snd (Storage.save_video Fixtures.ascii_isalnum Fixtures.store
              ["tmp"; "video_task_1.mp4"] "Test-50" 1 "Opening" Fixtures.downloaded))
    /\ In ["srv"; "jobs"; "Test-50"; "videos"; "01_Opening.mp4"] listed.
Proof.
  apply (saved_video_is_listed Fixtures.ascii_isalnum Fixtures.store
           ["tmp"; "video_task_1.mp4"] "Test-50" 1 "Opening" Fixtures.downloaded).
  - apply pair_of_fst. vm_compute. reflexivity.
  - discriminate.
Defined.






(** X21: the witness, the two shots of "Test-50" on an empty disk. *)
Lemma video_stage_results_follow_shots_witness :
  Forall2 (fun shot r =>
             VideoService.resp_job_id r = "Test-50"
             /\ VideoService.resp_shot_number r = VideoService.shot_number shot
             /\ VideoService.resp_status r = "completed"
             /\ In (VideoService.video_path r)
                  (VideoService.artifact_paths Fixtures.ascii_isalnum Fixtures.service
                     "Test-50" shot))
    Fixtures.two_shots
    [VideoService.mkResponse "Test-50" 1
       ["srv"; "jobs"; "Test-50"; "videos"; "01_Opening.mp4"] "completed";
     VideoService.mkResponse "Test-50" 2
       ["srv"; "jobs"; "Test-50"; "videos"; "02_Closing.mp4"] "completed"].
Proof.
  apply (video_stage_results_follow_shots Fixtures.ascii_isalnum Fixtures.all_fine
           Fixtures.service "Test-50" Fixtures.two_shots Fixtures.fresh_world _
           (snd Fixtures.first_video_run)).
  apply (pair_of_fst Fixtures.first_video_run). vm_compute. reflexivity.
Defined.


(** X25: the witness, the store below [/srv] set up on an empty disk. *)
Lemma init_makes_directories_witness :
  Storage.init ["srv"] (snd (Storage.init ["srv"] Fixtures.fresh_world))
  = (Return Fixtures.store, snd (Storage.init ["srv"] Fixtures.fresh_world)).
Proof.
  refine (proj2 (proj2 (proj2 (proj2 (proj2
            (init_makes_directories ["srv"] Fixtures.fresh_world Fixtures.store
               (snd (Storage.init ["srv"] Fixtures.fresh_world)) _)))))).
  apply pair_of_fst. vm_compute. reflexivity.
Defined.

(** X26: the witness, a subject that tries to climb out of the directory. *)
Lemma video_filename_is_one_component_witness :
  Str.all (fun c => negb (Ascii.eqb c "/"))
    (Storage.video_filename Fixtures.ascii_isalnum 3 "../../etc/passwd") = true.
Proof.
  exact (proj1 (video_filename_is_one_component Fixtures.ascii_isalnum 3
                  "../../etc/passwd" eq_refl eq_refl)).
Defined.

(** X28: the witness, a run on an empty disk in which every stage
    succeeds. *)
Lemma pipeline_ends_in_final_status_witness :
  exists after,
    Api.persisted_record Fixtures.store "Test-50"
      (snd (Api.full_pipeline_task Fixtures.all_fine Fixtures.store Fixtures.str_exn
              "Test-50" Fixtures.successful_retry Fixtures.fresh_world))
    = Some (VDict after)
    /\ ((dict_get after "status" = Some (VStr "completed")
         /\ exists output_path,
              dict_get after "result"
              = Some (VDict [("job_id", VStr "Test-50");
                             ("final_video_path", VStr output_path);
                             ("status", VStr "completed")]))
        \/ (dict_get after "status" = Some (VStr "failed")
            /\ exists e, dict_get after "error" = Some (VStr (Fixtures.str_exn e)))).
Proof.
  apply (pipeline_ends_in_final_status Fixtures.all_fine Fixtures.store Fixtures.str_exn
           "Test-50" Fixtures.successful_retry Fixtures.fresh_world).
  vm_compute. reflexivity.
Defined.
